(** * White-noise pipeline: generation, quantization, WAV output, playback, spectrum

    A shallow embedding of the four functions of [White noise.py]
    ([generate_white_noise], [play_audio], [save_wav],
    [plot_signal_and_spectrum]) and of the NumPy / SciPy / sounddevice calls
    they make, followed by the properties of the specification.

    - Samples are IEEE-754 numbers, taken from the Standard Library's
      [SpecFloat]: binary32 for the audio buffer ([np.float32]), binary64 for
      Python's [float].
    - NumPy arrays are mutable objects: they live in a store ([heap]) and are
      passed by reference, so that "does not mutate the buffer" is a statement
      about the store.
    - Files, the audio device, the console and the figures shown are fields of
      one [world] record that every function threads through.
    - What the libraries compute with algorithms of their own (the values of
      the fast Fourier transform, the modulus of a complex number) is a field
      of the [world] as well: the model fixes how the program combines these
      values, not the values. *)

From Stdlib Require Import ZArith QArith Qround Lia List.
From Stdlib Require Import Floats.SpecFloat.
From Stdlib Require Import DecimalString.
From stdpp Require Import gmap strings list.

Local Open Scope Z_scope.

(** ** IEEE-754 numbers *)

Module IEEE.

Definition is_nan (x : spec_float) : bool :=
  match x with S754_nan => true | _ => false end.

Definition is_infinity (x : spec_float) : bool :=
  match x with S754_infinity _ => true | _ => false end.

(** Zero or a finite non-zero number. *)
Definition is_finite (x : spec_float) : bool :=
  match x with S754_zero _ | S754_finite _ _ _ => true | _ => false end.

(** The exact value [(-1)^s * m * 2^e] of a finite number, as a rational
    (0 for the other classes, which have no value). *)
Definition SF2Q (x : spec_float) : Q :=
  match x with
  | S754_finite s m (Zneg p) => Qmake (cond_Zopp s (Zpos m)) (2 ^ p)%positive
  | S754_finite s m e => inject_Z (cond_Zopp s (Zpos m * 2 ^ e))
  | _ => 0%Q
  end.

(** IEEE comparison.  [SpecFloat.SFcompare] compares the exponents first,
    which is the order of the values on canonical mantissas only; this one
    compares the values themselves, whatever the representation. *)
Definition compare (x y : spec_float) : option comparison :=
  match x, y with
  | S754_nan, _ | _, S754_nan => None
  | S754_infinity sx, S754_infinity sy =>
      Some (match sx, sy with
            | true, true | false, false => Eq
            | true, false => Lt
            | false, true => Gt
            end)
  | S754_infinity s, _ => Some (if s then Lt else Gt)
  | _, S754_infinity s => Some (if s then Gt else Lt)
  | _, _ => Some (SF2Q x ?= SF2Q y)%Q
  end.

Definition ltb (x y : spec_float) : bool :=
  match compare x y with Some Lt => true | _ => false end.

Definition leb (x y : spec_float) : bool :=
  match compare x y with Some (Lt | Eq) => true | _ => false end.

(** Truncation toward zero of a finite number (C's conversion of a floating
    value to an integer type, Python's [int(x)]); [None] for NaN and the
    infinities. *)
Definition trunc (x : spec_float) : option Z :=
  match x with
  | S754_zero _ => Some 0
  | S754_finite s m e => Some (cond_Zopp s (Z.shiftl (Zpos m) e))
  | _ => None
  end.

(** binary32 ([np.float32]). *)
Module B32.
Definition prec : Z := 24.
Definition emax : Z := 128.
Definition mul : spec_float -> spec_float -> spec_float := SFmul prec emax.
(** [m * 2^e], rounded to nearest even. *)
Definition of_Z_exp (m e : Z) : spec_float := binary_normalize prec emax m e false.
Definition of_Z (m : Z) : spec_float := of_Z_exp m 0.
(** Conversion of a number of another format ([astype(np.float32)]). *)
Definition of_float (x : spec_float) : spec_float :=
  match x with
  | S754_finite s m e => binary_round prec emax s m e
  | _ => x
  end.
End B32.

(** binary64 (Python's [float], [np.float64]). *)
Module B64.
Definition prec : Z := 53.
Definition emax : Z := 1024.
Definition mul : spec_float -> spec_float -> spec_float := SFmul prec emax.
Definition div : spec_float -> spec_float -> spec_float := SFdiv prec emax.
Definition of_Z_exp (m e : Z) : spec_float := binary_normalize prec emax m e false.
Definition of_Z (m : Z) : spec_float := of_Z_exp m 0.
End B64.

End IEEE.

(** ** Integers and rationals of the specification *)

(** Truncation toward zero of a rational. *)
Definition Qtrunc (q : Q) : Z := Z.quot (Qnum q) (Zpos (Qden q)).

(** Rounding to the nearest integer, ties to even (Python's [round],
    [np.round]). *)
Definition Qround_nearest (q : Q) : Z :=
  let f := Qfloor q in
  match (q - inject_Z f ?= 1 # 2)%Q with
  | Lt => f
  | Gt => f + 1
  | Eq => if Z.even f then f else f + 1
  end.

Definition clamp (lo hi z : Z) : Z := Z.max lo (Z.min hi z).

Definition in_int16 (z : Z) : bool := (-32768 <=? z) && (z <=? 32767).

(** Two's-complement reduction to 16 bits. *)
Definition wrap16 (z : Z) : Z := (z + 32768) mod 65536 - 32768.

(** ** The quantizer of [save_wav]

    [[
    max_int16 = np.iinfo(np.int16).max
    wav_int16 = (buffer * max_int16).clip(-max_int16, max_int16).astype(np.int16)
    ]] *)

(** [np.iinfo(np.int16).max] *)
Definition max_int16 : Z := 32767.

(** One element of [buffer * max_int16]: a float32 array times a Python
    integer stays float32; the integer is converted and the product rounded
    to binary32. *)
Definition np_multiply (x : spec_float) (k : Z) : spec_float :=
  IEEE.B32.mul x (IEEE.B32.of_Z k).

(** The two halves of NumPy's clip loop, [_NPY_MAX] and [_NPY_MIN]: the first
    argument is kept when it is NaN or strictly beyond the bound. *)
Definition npy_max (a b : spec_float) : spec_float :=
  if IEEE.is_nan a || IEEE.ltb b a then a else b.

Definition npy_min (a b : spec_float) : spec_float :=
  if IEEE.is_nan a || IEEE.ltb a b then a else b.

(** One element of [a.clip(lo, hi)] with integer bounds. *)
Definition np_clip (x : spec_float) (lo hi : Z) : spec_float :=
  npy_min (npy_max x (IEEE.B32.of_Z lo)) (IEEE.B32.of_Z hi).

(** One element of [a.astype(np.int16)]: the C conversion truncates toward
    zero.  When the truncated value does not fit 16 bits, or for NaN and the
    infinities, C leaves the result undefined: [invalid] stands for whatever
    the platform stores then. *)
Definition np_astype_int16 (invalid : spec_float -> Z) (x : spec_float) : Z :=
  match IEEE.trunc x with
  | Some z => if in_int16 z then z else wrap16 (invalid x)
  | None => wrap16 (invalid x)
  end.

(** One sample through the three steps. *)
Definition quantize (invalid : spec_float -> Z) (x : spec_float) : Z :=
  np_astype_int16 invalid (np_clip (np_multiply x max_int16) (- max_int16) max_int16).

(** The quantization formula of the specification, on the exact value of the
    sample: [clamp(round(b * 32767), -32768, 32767)]. *)
Definition spec_quantize (x : spec_float) : Z :=
  clamp (-32768) 32767 (Qround_nearest (IEEE.SF2Q x * 32767)).

(** ** Bytes of a WAV file *)

Definition byte_of_Z (z : Z) : Byte.byte :=
  default Byte.x00 (Byte.of_N (Z.to_N (z mod 256))).

Definition Z_of_byte (b : Byte.byte) : Z := Z.of_N (Byte.to_N b).

(** [n] bytes of [z], least significant first ([struct.pack('<...')], and
    the memory of a little-endian array). *)
Fixpoint le_bytes (n : nat) (z : Z) : list Byte.byte :=
  match n with
  | O => []
  | S n' => byte_of_Z z :: le_bytes n' (z / 256)
  end.

Definition le_decode (bs : list Byte.byte) : Z :=
  fold_right (fun b acc => Z_of_byte b + 256 * acc) 0 bs.

(** The bytes of an int16 array, two per sample. *)
Definition int16_bytes (samples : list Z) : list Byte.byte :=
  flat_map (le_bytes 2) samples.

(** ** The world the program runs in *)

(** Python exceptions the four functions can let through.  The
    specification's [StorageError] is [OSError] here (a failed [open] or
    write), its [DeviceError] is [PortAudioError]; nothing in the program
    raises an [InvalidParameter]. *)
Inductive exn : Type :=
  | ValueError | OverflowError | ZeroDivisionError | TypeError
  | StructError | OSError | PortAudioError | MemoryError.

Inductive result (A : Type) : Type :=
  | Ok (a : A)
  | Raise (e : exn).
Arguments Ok {A} a.
Arguments Raise {A} e.

(** NumPy arrays, by element type.  [Complex] is the result of the
    transform, its elements as (real, imaginary); [Moduli] is the result of
    [np.abs] on such an array.  Both are float32-based or float64-based as the
    version of NumPy computes the transform, which the model leaves open. *)
Inductive ndarray : Type :=
  | Float64 (data : list spec_float)
  | Float32 (data : list spec_float)
  | Int16 (data : list Z)
  | Int64 (data : list Z)
  | Complex (data : list (spec_float * spec_float))
  | Moduli (data : list spec_float).

(** What one call of [plt.show()] displays: the signal against time and the
    magnitude against frequency, with the numbers of the four arrays handed
    to the two plots. *)
Record figure : Type := {
  fig_time : list spec_float;
  fig_signal : list spec_float;
  fig_freqs : list spec_float;
  fig_magnitude : list spec_float
}.

(** The output stream of sounddevice: the frames handed to the stream and
    not played yet, and the frames that reached the device. *)
Record stream : Type := {
  queued : list spec_float;
  emitted : list spec_float
}.

Record world : Type := {
  (** arrays, by reference *)
  heap : gmap nat ndarray;
  (** files, by path *)
  files : gmap string (list Byte.byte);
  (** the paths [open(path, 'wb')] accepts *)
  writable : string -> bool;
  (** bytes the storage still accepts ([None]: no limit) *)
  disk_free : option nat;
  (** whether an audio output device can be opened *)
  device_ok : bool;
  audio : stream;
  console : list string;
  figures : list figure;
  (** the draws to come of [np.random.normal(0, 1)] *)
  gauss : nat -> spec_float;
  (** what the platform stores for an undefined float-to-int16 conversion *)
  invalid_cast : spec_float -> Z;
  (** the size of the largest array the memory can take, in GiB ([None]: no
      limit); the program is not modelled on less than 1 GiB *)
  mem_limit : option positive;
  (** coefficient [k] of what [np.fft.rfft] computes for these samples, as
      (real, imaginary) *)
  rfft_coeff : list spec_float -> nat -> spec_float * spec_float;
  (** what [np.abs] computes for a complex number *)
  complex_abs : spec_float * spec_float -> spec_float
}.

Definition set_heap (h : gmap nat ndarray) (w : world) : world :=
  {| heap := h; files := files w; writable := writable w; disk_free := disk_free w;
     device_ok := device_ok w; audio := audio w; console := console w;
     figures := figures w; gauss := gauss w; invalid_cast := invalid_cast w;
     mem_limit := mem_limit w; rfft_coeff := rfft_coeff w; complex_abs := complex_abs w |}.

Definition set_files (f : gmap string (list Byte.byte)) (free : option nat) (w : world) : world :=
  {| heap := heap w; files := f; writable := writable w; disk_free := free;
     device_ok := device_ok w; audio := audio w; console := console w;
     figures := figures w; gauss := gauss w; invalid_cast := invalid_cast w;
     mem_limit := mem_limit w; rfft_coeff := rfft_coeff w; complex_abs := complex_abs w |}.

Definition set_audio (a : stream) (w : world) : world :=
  {| heap := heap w; files := files w; writable := writable w; disk_free := disk_free w;
     device_ok := device_ok w; audio := a; console := console w; figures := figures w;
     gauss := gauss w; invalid_cast := invalid_cast w; mem_limit := mem_limit w;
     rfft_coeff := rfft_coeff w; complex_abs := complex_abs w |}.

Definition set_console (c : list string) (w : world) : world :=
  {| heap := heap w; files := files w; writable := writable w; disk_free := disk_free w;
     device_ok := device_ok w; audio := audio w; console := c; figures := figures w;
     gauss := gauss w; invalid_cast := invalid_cast w; mem_limit := mem_limit w;
     rfft_coeff := rfft_coeff w; complex_abs := complex_abs w |}.

Definition set_figures (f : list figure) (w : world) : world :=
  {| heap := heap w; files := files w; writable := writable w; disk_free := disk_free w;
     device_ok := device_ok w; audio := audio w; console := console w; figures := f;
     gauss := gauss w; invalid_cast := invalid_cast w; mem_limit := mem_limit w;
     rfft_coeff := rfft_coeff w; complex_abs := complex_abs w |}.

Definition set_gauss (g : nat -> spec_float) (w : world) : world :=
  {| heap := heap w; files := files w; writable := writable w; disk_free := disk_free w;
     device_ok := device_ok w; audio := audio w; console := console w;
     figures := figures w; gauss := g; invalid_cast := invalid_cast w;
     mem_limit := mem_limit w; rfft_coeff := rfft_coeff w; complex_abs := complex_abs w |}.

Definition set_mem_limit (limit : option positive) (w : world) : world :=
  {| heap := heap w; files := files w; writable := writable w; disk_free := disk_free w;
     device_ok := device_ok w; audio := audio w; console := console w;
     figures := figures w; gauss := gauss w; invalid_cast := invalid_cast w;
     mem_limit := limit; rfft_coeff := rfft_coeff w; complex_abs := complex_abs w |}.

(** Computations that read and change the world and may raise: an exception
    keeps the effects that happened before it. *)
Definition M (A : Type) : Type := world -> result A * world.

Definition ret {A} (a : A) : M A := fun w => (Ok a, w).

Definition raise {A} (e : exn) : M A := fun w => (Raise e, w).

Definition bind {A B} (k : A -> M B) (m : M A) : M B :=
  fun w => match m w with
           | (Ok a, w') => k a w'
           | (Raise e, w') => (Raise e, w')
           end.

#[global] Instance M_ret : MRet M := @ret.
#[global] Instance M_bind : MBind M := @bind.

(** [print(s)] *)
Definition print (s : string) : M unit :=
  fun w => (Ok tt, set_console (console w ++ [s]) w).

(** A new array object. *)
Definition alloc (a : ndarray) : M nat :=
  fun w => let l := fresh (dom (heap w)) in (Ok l, set_heap (<[l := a]> (heap w)) w).

(** The elements of a float32 array.  The audio functions are modelled on
    the float32 buffers that [generate_white_noise] returns and that they
    document; an array of another type is outside the model and is refused
    here. *)
Definition read_float32 (l : nat) : M (list spec_float) :=
  fun w => match heap w !! l with
           | Some (Float32 xs) => (Ok xs, w)
           | _ => (Raise TypeError, w)
           end.

Definition read_int16 (l : nat) : M (list Z) :=
  fun w => match heap w !! l with
           | Some (Int16 xs) => (Ok xs, w)
           | _ => (Raise TypeError, w)
           end.

(** An assignment to the elements of an existing array (an in-place
    operator). *)
Definition store (l : nat) (a : ndarray) : M unit :=
  fun w => (Ok tt, set_heap (<[l := a]> (heap w)) w).

Definition lift {A} (r : result A) : M A := fun w => (r, w).

(** ** Python scalars *)

(** [x * n] for a [float] and an [int]: the integer is converted to binary64
    first, which raises [OverflowError] when it is too large. *)
Definition py_float_mul_int (x : spec_float) (n : Z) : result spec_float :=
  let y := IEEE.B64.of_Z n in
  if IEEE.is_infinity y then Raise OverflowError else Ok (IEEE.B64.mul x y).

(** [int(x)] for a [float]. *)
Definition py_int (x : spec_float) : result Z :=
  match x with
  | S754_nan => Raise ValueError
  | S754_infinity _ => Raise OverflowError
  | _ => match IEEE.trunc x with Some z => Ok z | None => Raise ValueError end
  end.

(** [1.0 / n] for an [int]: the integer is converted to binary64 first, which
    raises [OverflowError] when it is too large; a zero divisor raises
    [ZeroDivisionError]; the quotient is rounded to binary64. *)
Definition py_one_over (n : Z) : result spec_float :=
  let y := IEEE.B64.of_Z n in
  if IEEE.is_infinity y then Raise OverflowError
  else if n =? 0 then Raise ZeroDivisionError
  else Ok (IEEE.B64.div (IEEE.B64.of_Z 1) y).

(** [x / y] for two [float]s. *)
Definition py_float_div (x y : spec_float) : result spec_float :=
  match y with
  | S754_zero _ => Raise ZeroDivisionError
  | _ => Ok (IEEE.B64.div x y)
  end.

(** ** NumPy arrays *)

(** The largest size in bytes NumPy accepts for an array, [NPY_MAX_INTP] on
    a 64-bit platform. *)
Definition max_intp : Z := 2 ^ 63 - 1.

(** Whether the memory can take an array of this many bytes. *)
Definition granted (bytes : Z) (w : world) : bool :=
  match mem_limit w with
  | None => true
  | Some gib => bytes <=? 2 ^ 30 * Zpos gib
  end.

(** [np.random.normal(loc=0.0, scale=1.0, size=n)]: a new float64 array of
    the next [n] draws.  NumPy refuses with [ValueError] a negative size and
    a size whose 8 bytes per element exceed [max_intp]; when the memory
    cannot take the array the call raises [MemoryError].  No draw is used in
    these cases. *)
Definition np_random_normal (n : Z) : M nat :=
  if n <? 0 then raise ValueError
  else if max_intp <? 8 * n then raise ValueError
  else fun w =>
         if granted (8 * n) w then
           let k := Z.to_nat n in
           alloc (Float64 (map (gauss w) (seq 0 k)))
                 (set_gauss (fun i => gauss w (k + i)%nat) w)
         else (Raise MemoryError, w).

Definition platform_cast : M (spec_float -> Z) :=
  fun w => (Ok (invalid_cast w), w).

(** [a.astype(np.float32)]: a new array, of 4 bytes per element. *)
Definition ndarray_astype_float32 (a : nat) : M nat :=
  fun w => match heap w !! a with
           | Some (Float64 xs) =>
               if granted (4 * Z.of_nat (length xs)) w
               then alloc (Float32 (map IEEE.B32.of_float xs)) w
               else (Raise MemoryError, w)
           | Some (Float32 xs) =>
               if granted (4 * Z.of_nat (length xs)) w
               then alloc (Float32 xs) w
               else (Raise MemoryError, w)
           | _ => (Raise TypeError, w)
           end.

(** [a *= x] for a float32 array and a Python [float]: the elements of [a]
    itself are replaced. *)
Definition ndarray_imul (a : nat) (x : spec_float) : M unit :=
  xs ← read_float32 a;
  store a (Float32 (map (fun v => IEEE.B32.mul v (IEEE.B32.of_float x)) xs)).

(** [a * k]: a new array. *)
Definition ndarray_mul (a : nat) (k : Z) : M nat :=
  xs ← read_float32 a;
  alloc (Float32 (map (fun v => np_multiply v k) xs)).

(** [a.clip(lo, hi)]: a new array. *)
Definition ndarray_clip (a : nat) (lo hi : Z) : M nat :=
  xs ← read_float32 a;
  alloc (Float32 (map (fun v => np_clip v lo hi) xs)).

(** [a.astype(np.int16)]: a new array. *)
Definition ndarray_astype_int16 (a : nat) : M nat :=
  xs ← read_float32 a;
  invalid ← platform_cast;
  alloc (Int16 (map (np_astype_int16 invalid) xs)).

(** ** Files *)

(** [open(filename, 'wb')]: refused with [OSError] when the path cannot be
    opened for writing; otherwise the file exists and is empty. *)
Definition fopen_wb (filename : string) : M unit :=
  fun w => if writable w filename
           then (Ok tt, set_files (<[filename := []]> (files w)) (disk_free w) w)
           else (Raise OSError, w).

(** [fid.write(bs)]: appends; when the storage runs out, the bytes that
    still fitted stay in the file and the write raises [OSError]. *)
Definition fwrite (filename : string) (bs : list Byte.byte) : M unit :=
  fun w =>
    let old := default [] (files w !! filename) in
    match disk_free w with
    | None => (Ok tt, set_files (<[filename := old ++ bs]> (files w)) None w)
    | Some free =>
        if (length bs <=? free)%nat
        then (Ok tt, set_files (<[filename := old ++ bs]> (files w))
                               (Some (free - length bs)%nat) w)
        else (Raise OSError, set_files (<[filename := old ++ take free bs]> (files w))
                                       (Some 0%nat) w)
    end.

(** [fid.tell()] at the end of the file. *)
Definition ftell (filename : string) : M Z :=
  fun w => (Ok (Z.of_nat (length (default [] (files w !! filename)))), w).

(** [fid.seek(pos); fid.write(bs)] over bytes that exist already. *)
Definition fpatch (filename : string) (pos : nat) (bs : list Byte.byte) : M unit :=
  fun w =>
    let old := default [] (files w !! filename) in
    (Ok tt, set_files (<[filename := take pos old ++ bs ++ drop (pos + length bs) old]> (files w))
                      (disk_free w) w).

(** [struct.pack] of one unsigned little-endian field of [n] bytes. *)
Definition struct_pack (n : nat) (v : Z) : result (list Byte.byte) :=
  if (0 <=? v) && (v <? 256 ^ Z.of_nat n) then Ok (le_bytes n v) else Raise StructError.

Definition tag (s : string) : list Byte.byte := String.list_byte_of_string s.

(** The 16 bytes of the [fmt ] subchunk, [struct.pack('<HHIIHH', ...)]. *)
Definition fmt_chunk_data (format_tag channels fs bytes_per_second block_align bit_depth : Z)
  : result (list Byte.byte) :=
  match struct_pack 2 format_tag, struct_pack 2 channels, struct_pack 4 fs,
        struct_pack 4 bytes_per_second, struct_pack 2 block_align, struct_pack 2 bit_depth with
  | Ok a, Ok b, Ok c, Ok d, Ok e, Ok f => Ok (a ++ b ++ c ++ d ++ e ++ f)
  | _, _, _, _, _, _ => Raise StructError
  end.

(** Modelled from the spec: [scipy.io.wavfile.write(filename, rate, data)]
    is library code that is not among the sources.  The layout is the one the
    specification names in its section 6: a RIFF container, a [fmt ] subchunk
    for PCM / mono / 16 bits / the given sample rate, a [data] subchunk of
    little-endian signed 16-bit samples, 44 bytes before the samples.  The
    order of the steps is SciPy's: the file is opened for writing (which
    empties it), then the header with a zero RIFF size, the [data] tag, the
    byte count and the samples are written, and the RIFF size is patched in
    last; there is no temporary file and nothing is removed on failure. *)
Definition wavfile_write (filename : string) (rate : Z) (data : nat) : M unit :=
  fopen_wb filename;;
  samples ← read_int16 data;
  let nbytes := 2 * Z.of_nat (length samples) in
  fmt ← lift (fmt_chunk_data 1 1 rate (rate * 2 * 1) (1 * 2) 16);
  len_fmt ← lift (struct_pack 4 (Z.of_nat (length fmt)));
  let header_data :=
    tag "RIFF" ++ le_bytes 4 0 ++ tag "WAVE" ++ tag "fmt " ++ len_fmt ++ fmt in
  if 4294967295 <? (Z.of_nat (length header_data) - 4 - 4) + (4 + 4 + nbytes)
  then raise ValueError
  else
    fwrite filename header_data;;
    fwrite filename (tag "data");;
    len_data ← lift (struct_pack 4 nbytes);
    fwrite filename len_data;;
    fwrite filename (int16_bytes samples);;
    size ← ftell filename;
    riff_size ← lift (struct_pack 4 (size - 8));
    fpatch filename 4 riff_size.

(** ** The audio device *)

(** The stream plays its queue frame by frame. *)
Fixpoint drain (q e : list spec_float) : list spec_float :=
  match q with
  | [] => e
  | x :: q' => drain q' (e ++ [x])
  end.

(** [sd.wait()]: returns when the queue of the stream is empty. *)
Definition sd_wait : M unit :=
  fun w => (Ok tt,
            set_audio {| queued := [];
                         emitted := drain (queued (audio w)) (emitted (audio w)) |} w).

(** The frames of an array handed to sounddevice, which converts them to
    float32. *)
Definition read_frames (data : nat) : M (list spec_float) :=
  fun w => match heap w !! data with
           | Some (Float32 xs) => (Ok xs, w)
           | Some (Float64 xs) => (Ok (map IEEE.B32.of_float xs), w)
           | _ => (Raise TypeError, w)
           end.

(** A new output stream on the default device, with its queue. *)
Definition start_stream (frames : list spec_float) : M unit :=
  fun w => if device_ok w
           then (Ok tt, set_audio {| queued := frames; emitted := emitted (audio w) |} w)
           else (Raise PortAudioError, w).

(** Modelled from the spec: [sd.play(data, samplerate, blocking)] is the
    sounddevice library, not among the sources.  As in the specification's
    PlaybackSink (and sounddevice's documentation), the frames are handed to
    the default output stream, any earlier playback being dropped; without a
    device the call raises; with [blocking=True] it waits for the end of the
    playback before it returns, with [blocking=False] it returns at once and
    the stream keeps playing. *)
Definition sd_play (data : nat) (samplerate : Z) (blocking : bool) : M unit :=
  frames ← read_frames data;
  start_stream frames;;
  if blocking then sd_wait else mret tt.

(** ** The spectrum

    The arithmetic the program itself asks for (the two divisions by the
    sample rate, the spacing of the frequencies) is binary64 and is computed
    here as NumPy and Python compute it.  The values of the transform and of
    the moduli come out of NumPy's own algorithms, whose rounding depends on
    the version of the library: they are [rfft_coeff] and [complex_abs] of
    the world. *)

(** [np.arange(n)]: a new array of the integers below [n]. *)
Definition np_arange (n : nat) : M nat :=
  alloc (Int64 (map Z.of_nat (seq 0 n))).

(** [a / k] for an integer array and a Python [int] that fits int64: a new
    float64 array, each element the binary64 quotient of the two integers
    converted to binary64.  A zero divisor raises nothing: the elements are
    then NaN and infinities.  (For a divisor beyond int64 the versions of
    NumPy differ; the properties on the quotients assume [fits_int64].) *)
Definition ndarray_truediv (a : nat) (k : Z) : M nat :=
  fun w => match heap w !! a with
           | Some (Int64 xs) =>
               alloc (Float64 (map (fun v => IEEE.B64.div (IEEE.B64.of_Z v) (IEEE.B64.of_Z k))
                                   xs)) w
           | _ => (Raise TypeError, w)
           end.

(** Modelled from the spec: [np.fft.rfft(a)] is NumPy, not among the
    sources.  As the specification's magnitude mode has it, it is a transform
    of the real-valued buffer restricted to the non-negative frequencies,
    [floor(N/2)+1] coefficients; NumPy refuses an empty input.  The
    coefficients are the ones NumPy computes, [rfft_coeff] of the world. *)
Definition np_fft_rfft (a : nat) : M nat :=
  xs ← read_float32 a;
  if (length xs =? 0)%nat then raise ValueError
  else fun w => alloc (Complex (map (rfft_coeff w xs) (seq 0 (length xs / 2 + 1)%nat))) w.

(** [np.fft.rfftfreq(n, d)], as NumPy writes it, with a Python [int] and a
    Python [float]:
    [[
    val = 1.0 / (n * d)
    N = n // 2 + 1
    results = arange(0, N, dtype=int)
    return results * val
    ]]
    [n * d] and [1.0 / (n * d)] are operations on Python floats, [results *
    val] multiplies each integer, converted to binary64, by [val]. *)
Definition np_fft_rfftfreq (n : nat) (d : spec_float) : M nat :=
  val ← lift (py_float_div (IEEE.B64.of_Z 1) (IEEE.B64.mul (IEEE.B64.of_Z (Z.of_nat n)) d));
  alloc (Float64 (map (fun k => IEEE.B64.mul (IEEE.B64.of_Z (Z.of_nat k)) val)
                      (seq 0 (n / 2 + 1)%nat))).

(** [np.abs(a)] for a complex array: a new array of the moduli. *)
Definition np_abs (a : nat) : M nat :=
  fun w => match heap w !! a with
           | Some (Complex zs) => alloc (Moduli (map (complex_abs w) zs)) w
           | _ => (Raise TypeError, w)
           end.

(** The two [plt.plot] calls and [plt.show()]: the four arrays are read and
    the figure is displayed. *)
Definition plt_show (t buffer freqs magnitude : nat) : M unit :=
  fun w => match heap w !! t, heap w !! buffer, heap w !! freqs, heap w !! magnitude with
           | Some (Float64 ts), Some (Float32 xs), Some (Float64 fs), Some (Moduli ms) =>
               (Ok tt,
                set_figures (figures w ++ [ {| fig_time := ts; fig_signal := xs;
                                               fig_freqs := fs; fig_magnitude := ms |} ]) w)
           | _, _, _, _ => (Raise TypeError, w)
           end.

(** ** The four functions of the program *)

(** [[
    def generate_white_noise(duration_sec=2.0, sample_rate=48000, amplitude=0.2):
        n_samples = int(duration_sec * sample_rate)
        noise = np.random.normal(loc=0.0, scale=1.0, size=n_samples).astype(np.float32)
        noise *= amplitude
        return noise
    ]] *)
Definition generate_white_noise (duration_sec : spec_float) (sample_rate : Z)
    (amplitude : spec_float) : M nat :=
  product ← lift (py_float_mul_int duration_sec sample_rate);
  n_samples ← lift (py_int product);
  draws ← np_random_normal n_samples;
  noise ← ndarray_astype_float32 draws;
  ndarray_imul noise amplitude;;
  mret noise.

(** [[
    def play_audio(buffer, sample_rate=48000):
        print("[INFO] Riproduzione audio in corso...")
        sd.play(buffer, samplerate=sample_rate, blocking=True)
        print("[OK] Riproduzione terminata.")
    ]] *)
Definition play_audio (buffer : nat) (sample_rate : Z) : M unit :=
  print "[INFO] Riproduzione audio in corso...";;
  sd_play buffer sample_rate true;;
  print "[OK] Riproduzione terminata.".

(** [[
    def save_wav(buffer, sample_rate=48000, filename="white_noise.wav"):
        max_int16 = np.iinfo(np.int16).max
        wav_int16 = (buffer * max_int16).clip(-max_int16, max_int16).astype(np.int16)
        wavfile.write(filename, sample_rate, wav_int16)
        print(f"[OK] File WAV salvato: {filename}")
    ]]
    [quantize_buffer] is the right-hand side of the assignment to
    [wav_int16]. *)
Definition quantize_buffer (buffer : nat) : M nat :=
  scaled ← ndarray_mul buffer max_int16;
  clipped ← ndarray_clip scaled (- max_int16) max_int16;
  ndarray_astype_int16 clipped.

Definition save_wav (buffer : nat) (sample_rate : Z) (filename : string) : M unit :=
  wav_int16 ← quantize_buffer buffer;
  wavfile_write filename sample_rate wav_int16;;
  print ("[OK] File WAV salvato: " +:+ filename).

(** [[
    def plot_signal_and_spectrum(buffer, sample_rate=48000):
        t = np.arange(buffer.shape[0]) / sample_rate
        fft = np.fft.rfft(buffer)
        freqs = np.fft.rfftfreq(buffer.shape[0], d=1.0 / sample_rate)
        magnitude = np.abs(fft)
        ... plt.plot(t, buffer) ... plt.semilogx(freqs, magnitude) ... plt.show()
    ]] *)
Definition plot_signal_and_spectrum (buffer : nat) (sample_rate : Z) : M unit :=
  xs ← read_float32 buffer;
  indices ← np_arange (length xs);
  t ← ndarray_truediv indices sample_rate;
  fft ← np_fft_rfft buffer;
  d ← lift (py_one_over sample_rate);
  freqs ← np_fft_rfftfreq (length xs) d;
  magnitude ← np_abs fft;
  plt_show t buffer freqs magnitude.

(** The playback of the first script, [White noise generator.py]:
    [[
    sd.play(white_noise, samplerate=sampling_rate)
    sd.wait()
    ]] *)
Definition script_playback (white_noise : nat) (sampling_rate : Z) : M unit :=
  sd_play white_noise sampling_rate false;;
  sd_wait.

(** ** Notions the properties are stated with *)

(** What the quantizer computes from the binary32 product [p] of a sample by
    32767: the product truncated toward zero and kept within
    [-32767, 32767]. *)
Definition saturating_trunc (p : spec_float) : Z :=
  match p with
  | S754_infinity s => if s then - max_int16 else max_int16
  | _ => clamp (- max_int16) max_int16 (Qtrunc (IEEE.SF2Q p))
  end.

Definition not_nan (x : spec_float) : Prop := IEEE.is_nan x = false.

Definition finite (x : spec_float) : Prop := IEEE.is_finite x = true.

(** [x > 0] for a Python [float]. *)
Definition positive_float (x : spec_float) : Prop :=
  IEEE.ltb (S754_zero false) x = true.

(** The 44 bytes that precede the samples of a mono 16-bit PCM file holding
    [nbytes] bytes of samples. *)
Definition wav_header (rate nbytes : Z) : list Byte.byte :=
  tag "RIFF" ++ le_bytes 4 (36 + nbytes) ++ tag "WAVE" ++
  tag "fmt " ++ le_bytes 4 16 ++
  le_bytes 2 1 ++ le_bytes 2 1 ++ le_bytes 4 rate ++ le_bytes 4 (rate * 2) ++
  le_bytes 2 2 ++ le_bytes 2 16 ++
  tag "data" ++ le_bytes 4 nbytes.

(** The unsigned 32-bit field at an offset of a file. *)
Definition field32 (offset : nat) (file : list Byte.byte) : Z :=
  le_decode (take 4 (drop offset file)).

(** The RIFF chunk size and the size of the [data] subchunk, at their
    places in the canonical header. *)
Definition chunk_size (file : list Byte.byte) : Z := field32 4 file.
Definition subchunk2_size (file : list Byte.byte) : Z := field32 40 file.

(** The signed 16-bit samples of the bytes of a [data] subchunk. *)
Fixpoint int16_samples (bs : list Byte.byte) : list Z :=
  match bs with
  | lo :: hi :: rest => wrap16 (le_decode [lo; hi]) :: int16_samples rest
  | _ => []
  end.

(** The storage accepts [n] more bytes. *)
Definition disk_has (n : Z) (w : world) : Prop :=
  match disk_free w with None => True | Some free => n <= Z.of_nat free end.

(** [m] changes the world only in ways [P] allows, whatever its outcome. *)
Definition preserves (P : world -> world -> Prop) {A} (m : M A) : Prop :=
  forall w, P w (snd (m w)).

(** Arrays are only added: every array of [w] is in [w'] with the same
    elements. *)
Definition heap_grows (w w' : world) : Prop := heap w ⊆ heap w'.

(** The files other than [filename] are the same. *)
Definition other_files_kept (filename : string) (w w' : world) : Prop :=
  forall p, p <> filename -> files w' !! p = files w !! p.

(** What the consumers of a buffer may change: arrays are only added, and of
    the files only [filename] is touched. *)
Definition frame (filename : string) (w w' : world) : Prop :=
  heap_grows w w' /\ other_files_kept filename w w'.

(** A number whose sign bit is clear: [+0], a positive finite number or
    [+inf]. *)
Definition sign_clear (x : spec_float) : Prop :=
  match x with
  | S754_zero s | S754_infinity s | S754_finite s _ _ => s = false
  | S754_nan => False
  end.

Definition is_zero (x : spec_float) : Prop :=
  match x with S754_zero _ => True | _ => False end.

(** A world whose file [f] holds [c]. *)
Definition with_file (f : string) (c : list Byte.byte) (free : option nat) (w : world) : world :=
  set_files (<[f := c]> (files w)) free w.

(** The bytes [wavfile_write] has written before it patches the RIFF size. *)
Definition unpatched (rate nbytes : Z) (data : list Byte.byte) : list Byte.byte :=
  (((tag "RIFF" ++ le_bytes 4 0 ++ tag "WAVE" ++ tag "fmt " ++ le_bytes 4 16 ++
       (le_bytes 2 1 ++ le_bytes 2 1 ++ le_bytes 4 rate ++ le_bytes 4 (rate * 2)
          ++ le_bytes 2 2 ++ le_bytes 2 16))
    ++ tag "data") ++ le_bytes 4 nbytes) ++ data.

(** The spacing of the frequencies for [n] samples at the rate
    [sample_rate], as the program computes it: [1.0 / (n * (1.0 /
    sample_rate))], three operations of binary64. *)
Definition bin_width (n : nat) (sample_rate : Z) : spec_float :=
  IEEE.B64.div (IEEE.B64.of_Z 1)
    (IEEE.B64.mul (IEEE.B64.of_Z (Z.of_nat n))
       (IEEE.B64.div (IEEE.B64.of_Z 1) (IEEE.B64.of_Z sample_rate))).

(** The sample rate is one [1.0 / sample_rate] and [np.fft.rfftfreq] accept
    for [n] samples: not 0, not too large for a [float], and [n * (1.0 /
    sample_rate)] is not 0. *)
Definition rate_accepted (n : nat) (sample_rate : Z) : Prop :=
  sample_rate <> 0
  /\ IEEE.is_infinity (IEEE.B64.of_Z sample_rate) = false
  /\ ~ is_zero (IEEE.B64.mul (IEEE.B64.of_Z (Z.of_nat n))
                  (IEEE.B64.div (IEEE.B64.of_Z 1) (IEEE.B64.of_Z sample_rate))).

(** The sample rate fits the int64 array it divides. *)
Definition fits_int64 (z : Z) : Prop := - 2 ^ 63 <= z < 2 ^ 63.

(** ** Concrete worlds, for the examples *)

(** No array, no file, a device, storage and memory without limit; every
    path is writable except those under [/nonexistent/].  The transform of
    the examples is a stand-in: coefficient [k] is sample [k]. *)
Definition empty_world : world :=
  {| heap := ∅; files := ∅;
     writable := fun p => negb (String.prefix "/nonexistent/" p);
     disk_free := None; device_ok := true;
     audio := {| queued := []; emitted := [] |};
     console := []; figures := [];
     gauss := fun i => IEEE.B64.of_Z_exp (Z.of_nat i - 2) (-1);
     invalid_cast := fun _ => 0;
     mem_limit := None;
     rfft_coeff := fun xs k => (nth k xs (S754_zero false), S754_zero false);
     complex_abs := fun z => SFabs (fst z) |}.

(** The same with one audio buffer, at reference 0. *)
Definition world_with_buffer (xs : list spec_float) : world :=
  set_heap {[ 0%nat := Float32 xs ]} empty_world.

(** A buffer of three samples, a file [a.wav] of two bytes written earlier,
    and room for 46 more bytes. *)
Definition nearly_full_world : world :=
  set_files {[ "a.wav" := [Byte.x01; Byte.x02] ]} (Some 46%nat)
            (world_with_buffer [IEEE.B32.of_Z_exp 1 (-1); IEEE.B32.of_Z_exp 1 (-1);
                                IEEE.B32.of_Z_exp 1 (-1)]).

(** ** The process around the four functions

    The rest of [White noise.py]: the dependency bootstrap ([pip_available],
    [install_packages], [ensure_import], [ensure_dependencies]) and the menu
    loop of [main].  They run in a process that has, besides the world of the
    audio functions, a set of importable modules, a way to start child
    processes and a standard input.  A child acts on the process through its
    result and through the modules that are importable afterwards, nothing
    else: what [pip] writes on the disk is seen as modules, and [pip] is
    taken not to read the standard input of the program. *)

(** What [subprocess.run(..., check=False)] gives: a finished child with its
    return code and its two captured streams, or the exception of a child
    that could not be started, with its text. *)
Inductive completed : Type :=
  | Completed (returncode : Z) (stdout stderr : string)
  | SpawnError (message : string).

Record process : Type := {
  proc_world : world;
  (** the modules [importlib.import_module] finds *)
  modules : gset string;
  (** [sys.executable] *)
  executable : string;
  (** what a child started with these arguments does: its result, and the
      modules that are importable once it is done *)
  spawn : list string -> gset string -> completed * gset string;
  (** the children started so far, by their arguments *)
  commands : list (list string);
  (** the lines still to be read from standard input, without their end of
      line *)
  stdin : list string
}.

Definition set_world (w : world) (p : process) : process :=
  {| proc_world := w; modules := modules p; executable := executable p;
     spawn := spawn p; commands := commands p; stdin := stdin p |}.

Definition set_stdin (l : list string) (p : process) : process :=
  {| proc_world := proc_world p; modules := modules p; executable := executable p;
     spawn := spawn p; commands := commands p; stdin := l |}.

(** What can end the program early: an exception of the audio functions,
    [sys.exit(code)], or the end of standard input. *)
Inductive pexn : Type :=
  | PyExn (e : exn)
  | SystemExit (code : Z)
  | EOFError.

Inductive outcome (A : Type) : Type :=
  | Return (a : A)
  | Throw (e : pexn).
Arguments Return {A} a.
Arguments Throw {A} e.

Definition P (A : Type) : Type := process -> outcome A * process.

Definition P_return {A} (a : A) : P A := fun p => (Return a, p).

Definition throw {A} (e : pexn) : P A := fun p => (Throw e, p).

Definition P_then {A B} (k : A -> P B) (m : P A) : P B :=
  fun p => match m p with
           | (Return a, p') => k a p'
           | (Throw e, p') => (Throw e, p')
           end.

#[global] Instance P_ret : MRet P := @P_return.
#[global] Instance P_bind : MBind P := @P_then.

(** A call of one of the audio functions. *)
Definition in_world {A} (m : M A) : P A :=
  fun p => match m (proc_world p) with
           | (Ok a, w) => (Return a, set_world w p)
           | (Raise e, w) => (Throw (PyExn e), set_world w p)
           end.

(** [print(s)] *)
Definition echo (s : string) : P unit := in_world (print s).

(** [sys.exit(code)] *)
Definition sys_exit {A} (code : Z) : P A := throw (SystemExit code).

(** [subprocess.run(args, stdout=PIPE, stderr=PIPE, text=True, check=False)] *)
Definition subprocess_run (args : list string) : P completed :=
  fun p => let '(c, ms) := spawn p args (modules p) in
           (Return c,
            {| proc_world := proc_world p; modules := ms; executable := executable p;
               spawn := spawn p; commands := commands p ++ [args]; stdin := stdin p |}).

Definition sys_executable : P string := fun p => (Return (executable p), p).

(** [[
    def pip_available() -> bool:
        try:
            result = subprocess.run([sys.executable, "-m", "pip", "--version"], ...)
            return result.returncode == 0
        except Exception:
            return False
    ]] *)
Definition pip_available : P bool :=
  exe ← sys_executable;
  result ← subprocess_run [exe; "-m"; "pip"; "--version"];
  match result with
  | Completed returncode _ _ => mret (returncode =? 0)
  | SpawnError _ => mret false
  end.

Definition newline : string := String (Ascii.ascii_of_nat 10) EmptyString.

(** The body of the loop of [install_packages], with the list [results]
    built so far. *)
Fixpoint install_loop (packages : list string) (results : list (string * bool * string))
  : P (list (string * bool * string)) :=
  match packages with
  | [] => mret results
  | pkg :: rest =>
      echo (newline +:+ "[INFO] Installazione di '" +:+ pkg +:+ "'...");;
      exe ← sys_executable;
      proc ← subprocess_run [exe; "-m"; "pip"; "install"; "--upgrade"; pkg];
      match proc with
      | Completed returncode stdout stderr =>
          let success := returncode =? 0 in
          let message := if success then stdout else stderr in
          echo message;;
          install_loop rest (results ++ [(pkg, success, message)])
      | SpawnError e =>
          let msg := "Errore durante l'installazione di " +:+ pkg +:+ ": " +:+ e in
          echo msg;;
          install_loop rest (results ++ [(pkg, false, msg)])
      end
  end.

(** [[
    def install_packages(packages):
        results = []
        for pkg in packages:
            print(f"\n[INFO] Installazione di '{pkg}'...")
            try:
                proc = subprocess.run([sys.executable, "-m", "pip", "install", "--upgrade", pkg], ...)
                success = proc.returncode == 0
                message = proc.stdout if success else proc.stderr
                print(message)
                results.append((pkg, success, message))
            except Exception as e:
                msg = f"Errore durante l'installazione di {pkg}: {e}"
                print(msg)
                results.append((pkg, False, msg))
        return results
    ]] *)
Definition install_packages (packages : list string) : P (list (string * bool * string)) :=
  install_loop packages [].

(** [[
    def ensure_import(module_name: str) -> bool:
        try:
            importlib.import_module(module_name)
            return True
        except Exception:
            return False
    ]] *)
Definition ensure_import (module_name : string) : P bool :=
  fun p => (Return (bool_decide (module_name ∈ modules p)), p).

(** A list comprehension [[x for x in l if keep(x)]] whose condition is a
    call. *)
Fixpoint comprehension {A} (keep : A -> P bool) (l : list A) : P (list A) :=
  match l with
  | [] => mret []
  | x :: rest =>
      b ← keep x;
      kept ← comprehension keep rest;
      mret (if (b : bool) then x :: kept else kept)
  end.

Definition required : list string := ["numpy"; "scipy"; "sounddevice"; "matplotlib"].

(** [not success or not ensure_import(pkg)]: the import is tried only after
    a successful installation. *)
Definition not_available (r : string * bool * string) : P bool :=
  let '(pkg, success, _) := r in
  if negb success then mret true
  else b ← ensure_import pkg; mret (negb b).

(** [[
    def ensure_dependencies() -> None:
        required = ["numpy", "scipy", "sounddevice", "matplotlib"]
        print("[INFO] Verifica disponibilità di pip...")
        if not pip_available():
            print(...); print(...); sys.exit(1)
        missing = [m for m in required if not ensure_import(m)]
        if not missing:
            print("[OK] Tutte le dipendenze sono già presenti.")
            return
        print(f"[INFO] Mancano i seguenti pacchetti: {', '.join(missing)}")
        results = install_packages(missing)
        still_missing = [pkg for pkg, success, _ in results
                         if not success or not ensure_import(pkg)]
        if still_missing:
            print(...); print(...); sys.exit(1)
        else:
            print("[OK] Dipendenze installate e importabili.")
    ]] *)
Definition ensure_dependencies : P unit :=
  echo "[INFO] Verifica disponibilità di pip...";;
  available ← pip_available;
  if negb available then
    echo "[ERRORE] 'pip' non è disponibile tramite 'python -m pip'.";;
    echo "Prova ad aggiornare Python o a installare pip. Interrompo.";;
    sys_exit 1
  else
    missing ← comprehension (fun m => b ← ensure_import m; mret (negb b)) required;
    match missing with
    | [] => echo "[OK] Tutte le dipendenze sono già presenti."
    | _ =>
        echo ("[INFO] Mancano i seguenti pacchetti: " +:+ String.concat ", " missing);;
        results ← install_packages missing;
        still ← comprehension not_available results;
        let still_missing := map (fun r => fst (fst r)) still in
        match still_missing with
        | [] => echo "[OK] Dipendenze installate e importabili."
        | _ =>
            echo ("[ERRORE] Non sono riuscito a rendere disponibili: "
                    +:+ String.concat ", " still_missing);;
            echo "Controlla gli errori mostrati sopra. Interrompo.";;
            sys_exit 1
        end
    end.

(** ** The menu *)

(** [input(prompt)]: the prompt is written, a line is read; at the end of
    the input the call raises [EOFError]. *)
Definition readline : P string :=
  fun p => match stdin p with
           | [] => (Throw EOFError, p)
           | line :: rest => (Return line, set_stdin rest p)
           end.

Definition input (prompt : string) : P string :=
  echo prompt;; readline.

(** Strings hold the UTF-8 bytes of Python's [str], as the literals of this
    file do. *)
Definition utf8 (bytes : list nat) : string :=
  String.string_of_list_ascii (map Ascii.ascii_of_nat bytes).

(** The characters [str.strip()] removes, those of Python's [str.isspace]:
    U+0009 to U+000D, U+001C to U+0020, U+0085, U+00A0, U+1680, U+2000 to
    U+200A, U+2028, U+2029, U+202F, U+205F and U+3000. *)
Definition whitespace : list string :=
  map utf8
    ([[9]; [10]; [11]; [12]; [13]; [28]; [29]; [30]; [31]; [32];
      [194; 133]; [194; 160]; [225; 154; 128]]
     ++ map (fun b => [226; 128; b]) (seq 128 11)
     ++ [[226; 128; 168]; [226; 128; 169]; [226; 128; 175]; [226; 129; 159];
         [227; 128; 128]])%nat.

(** What follows the prefix [pre] in [s], when [s] starts with it. *)
Fixpoint after_prefix (pre s : string) : option string :=
  match pre, s with
  | EmptyString, _ => Some s
  | String a pre', String b s' => if Ascii.eqb a b then after_prefix pre' s' else None
  | String _ _, EmptyString => None
  end.

(** [s] without its leading characters among [spaces]; every step removes at
    least one byte, so that [fuel] need not exceed the length of [s]. *)
Fixpoint lstrip_with (spaces : list string) (fuel : nat) (s : string) : string :=
  match fuel with
  | O => s
  | S fuel' =>
      match head (omap (fun c => after_prefix c s) spaces) with
      | Some rest => lstrip_with spaces fuel' rest
      | None => s
      end
  end.

Definition lstrip (s : string) : string :=
  lstrip_with whitespace (String.length s) s.

(** The same from the end: on reversed bytes, with the reversed encodings. *)
Definition rstrip (s : string) : string :=
  String.rev (lstrip_with (map String.rev whitespace) (String.length s) (String.rev s)).

(** [s.strip()] *)
Definition strip (s : string) : string := rstrip (lstrip s).

(** U+00A0, the no-break space: white space that is not ASCII. *)
Definition nbsp : string := utf8 [194; 160]%nat.

(** [s or default] for strings *)
Definition or_default (s default : string) : string :=
  if String.eqb s "" then default else s.

(** [str(n)] *)
Definition str_of_Z (n : Z) : string := NilZero.string_of_int (Z.to_int n).

(** [len(a)] *)
Definition ndarray_len (a : nat) : M Z :=
  fun w => match heap w !! a with
           | Some (Float64 xs) | Some (Float32 xs) => (Ok (Z.of_nat (length xs)), w)
           | Some (Int16 xs) => (Ok (Z.of_nat (length xs)), w)
           | Some (Int64 xs) => (Ok (Z.of_nat (length xs)), w)
           | Some (Complex xs) => (Ok (Z.of_nat (length xs)), w)
           | Some (Moduli xs) => (Ok (Z.of_nat (length xs)), w)
           | None => (Raise TypeError, w)
           end.

(** [[
    def print_menu():
        print("\n=== Mini Terminale Rumore Bianco ===")
        ...
    ]] *)
Definition print_menu : P unit :=
  echo (newline +:+ "=== Mini Terminale Rumore Bianco ===");;
  echo "1. Verifica/installa dipendenze";;
  echo "2. Genera rumore bianco";;
  echo "3. Riproduci rumore bianco";;
  echo "4. Salva rumore bianco in WAV";;
  echo "5. Visualizza segnale e spettro";;
  echo "6. Esci";;
  echo "====================================".

(** The two variables of [main]: [current_buffer] ([None] until a buffer is
    generated) and [current_sr]. *)
Record session : Type := {
  current_buffer : option nat;
  current_sr : Z
}.

Definition no_buffer_warning : string :=
  "[ATTENZIONE] Nessun buffer generato. Seleziona '2' per generarlo prima.".

Section Menu.

(** [float(s)] and [int(s)] on strings: [None] when Python raises
    [ValueError]. *)
Variable float_of_string : string -> option spec_float.
Variable int_of_string : string -> option Z.

(** The three prompts of choice 2, inside the [try]: the first value that
    does not parse ends the block with [ValueError], here [None]. *)
Definition read_parameters : P (option (spec_float * Z * spec_float)) :=
  l1 ← input "Durata in secondi (es. 2.0): ";
  match float_of_string (or_default (strip l1) "2.0") with
  | None => mret None
  | Some dur =>
      l2 ← input "Sample rate in Hz (es. 48000): ";
      match int_of_string (or_default (strip l2) "48000") with
      | None => mret None
      | Some sr =>
          l3 ← input "Ampiezza (0.0-1.0, es. 0.2): ";
          match float_of_string (or_default (strip l3) "0.2") with
          | None => mret None
          | Some amp => mret (Some (dur, sr, amp))
          end
      end
  end.

(** One turn of the [while True] loop of [main]: [None] is the [break] of
    choice 6, [Some s] the state the next turn starts with.
    [[
    print_menu()
    choice = input("Seleziona un'opzione (1-6): ").strip()
    if choice == "1": ensure_dependencies()
    elif choice == "2":
        try: dur = float(input(...).strip() or "2.0"); sr = int(...); amp = float(...)
        except ValueError: print("[ERRORE] Parametri non validi. Riprova."); continue
        current_buffer = generate_white_noise(duration_sec=dur, sample_rate=sr, amplitude=amp)
        current_sr = sr
        print(f"[OK] Rumore bianco generato: {len(current_buffer)} campioni @ {current_sr} Hz.")
    elif choice == "3":
        if current_buffer is None: print(...); continue
        play_audio(current_buffer, sample_rate=current_sr)
    elif choice == "4":
        if current_buffer is None: print(...); continue
        filename = input("Nome file WAV (es. white_noise.wav): ").strip() or "white_noise.wav"
        save_wav(current_buffer, sample_rate=current_sr, filename=filename)
    elif choice == "5":
        if current_buffer is None: print(...); continue
        plot_signal_and_spectrum(current_buffer, sample_rate=current_sr)
    elif choice == "6": print("[INFO] Uscita dal mini terminale. A presto!"); break
    else: print("[ERRORE] Scelta non valida. Inserisci un numero tra 1 e 6.")
    ]] *)
Definition menu_turn (s : session) : P (option session) :=
  print_menu;;
  line ← input "Seleziona un'opzione (1-6): ";
  let choice := strip line in
  if String.eqb choice "1" then
    ensure_dependencies;; mret (Some s)
  else if String.eqb choice "2" then
    parameters ← read_parameters;
    match parameters with
    | None => echo "[ERRORE] Parametri non validi. Riprova.";; mret (Some s)
    | Some (dur, sr, amp) =>
        buffer ← in_world (generate_white_noise dur sr amp);
        n ← in_world (ndarray_len buffer);
        echo ("[OK] Rumore bianco generato: " +:+ str_of_Z n +:+ " campioni @ "
                +:+ str_of_Z sr +:+ " Hz.");;
        mret (Some {| current_buffer := Some buffer; current_sr := sr |})
    end
  else if String.eqb choice "3" then
    match current_buffer s with
    | None => echo no_buffer_warning;; mret (Some s)
    | Some buffer => in_world (play_audio buffer (current_sr s));; mret (Some s)
    end
  else if String.eqb choice "4" then
    match current_buffer s with
    | None => echo no_buffer_warning;; mret (Some s)
    | Some buffer =>
        line ← input "Nome file WAV (es. white_noise.wav): ";
        let filename := or_default (strip line) "white_noise.wav" in
        in_world (save_wav buffer (current_sr s) filename);; mret (Some s)
    end
  else if String.eqb choice "5" then
    match current_buffer s with
    | None => echo no_buffer_warning;; mret (Some s)
    | Some buffer => in_world (plot_signal_and_spectrum buffer (current_sr s));; mret (Some s)
    end
  else if String.eqb choice "6" then
    echo "[INFO] Uscita dal mini terminale. A presto!";; mret None
  else
    echo "[ERRORE] Scelta non valida. Inserisci un numero tra 1 e 6.";; mret (Some s).

(** The loop, for at most [fuel] turns: [Return false] when the turns ran out
    before the loop ended, [Return true] after the [break]. *)
Fixpoint main_loop (fuel : nat) (s : session) : P bool :=
  match fuel with
  | O => mret false
  | S fuel' =>
      next ← menu_turn s;
      match next with
      | None => mret true
      | Some s' => main_loop fuel' s'
      end
  end.

(** [[
    def main():
        current_buffer = None
        current_sr = 48000
        print("[INFO] Avvio mini terminale. Passo 1: dipendenze.")
        ensure_dependencies()
        while True: ...
    ]] *)
Definition main (fuel : nat) : P bool :=
  echo "[INFO] Avvio mini terminale. Passo 1: dipendenze.";;
  ensure_dependencies;;
  main_loop fuel {| current_buffer := None; current_sr := 48000 |}.

End Menu.

(** The lines [l1], [l2] and [l3] are accepted at the three prompts of choice
    2, as the duration, the sample rate and the amplitude. *)
Definition accepted (float_of_string : string -> option spec_float)
    (int_of_string : string -> option Z) (l1 l2 l3 : string)
    (dur : spec_float) (sr : Z) (amp : spec_float) : Prop :=
  float_of_string (or_default (strip l1) "2.0") = Some dur
  /\ int_of_string (or_default (strip l2) "48000") = Some sr
  /\ float_of_string (or_default (strip l3) "0.2") = Some amp.

(** The current buffer, when there is one, is a float32 array of the store,
    of a length the generator computes for the current sample rate and some
    duration. *)
Definition session_ok (s : session) (w : world) : Prop :=
  match current_buffer s with
  | None => True
  | Some b =>
      exists xs dur p,
        heap w !! b = Some (Float32 xs)
        /\ py_float_mul_int dur (current_sr s) = Ok p
        /\ py_int p = Ok (Z.of_nat (length xs))
  end.

(** ** Notions for the process and the menu *)

(** The white noise of the first script, a float64 array, at reference 0. *)
Definition world_with_float64 (xs : list spec_float) : world :=
  set_heap {[ 0%nat := Float64 xs ]} empty_world.

(** Console, device and figures are as they were. *)
Definition quiet (w w' : world) : Prop :=
  console w' = console w /\ audio w' = audio w /\ figures w' = figures w.

(** [m] changes the process only as [R] allows and throws only what [E]
    allows. *)
Definition P_post {A} (R : process -> process -> Prop) (E : pexn -> Prop) (m : P A) : Prop :=
  forall p, R p (snd (m p)) /\ forall e, fst (m p) = Throw e -> E e.

(** Only the console differs. *)
Definition only_console (w w' : world) : Prop := exists c, w' = set_console c w.

(** What the dependency bootstrap leaves alone: the world but for its
    console, the standard input, the interpreter and the behaviour of child
    processes. *)
Definition bootstrap_frame (p p' : process) : Prop :=
  only_console (proc_world p) (proc_world p')
  /\ stdin p' = stdin p /\ executable p' = executable p /\ spawn p' = spawn p.

(** The probe for [pip]. *)
Definition probe_command (exe : string) : list string := [exe; "-m"; "pip"; "--version"].

(** The installation of one package. *)
Definition install_command (exe pkg : string) : list string :=
  [exe; "-m"; "pip"; "install"; "--upgrade"; pkg].

(** The required modules that are not among [ms]. *)
Definition missing_from (ms : gset string) : list string :=
  List.filter (fun m => negb (bool_decide (m ∈ ms))) required.

(** Starting a child never makes a module disappear. *)
Definition spawn_monotone (p : process) : Prop :=
  forall args ms, ms ⊆ snd (spawn p args ms).

(** [pip] answers and installs what it is asked to. *)
Definition working_pip (args : list string) (ms : gset string) : completed * gset string :=
  match args with
  | [_; _; _; _; _; pkg] => (Completed 0 ("Successfully installed " +:+ pkg) "", {[pkg]} ∪ ms)
  | _ => (Completed 0 "pip 24.0" "", ms)
  end.

(** A process with the given modules and input, and a working [pip]. *)
Definition process_with (ms : gset string) (lines : list string) : process :=
  {| proc_world := empty_world; modules := ms; executable := "python3";
     spawn := working_pip; commands := []; stdin := lines |}.

(** The same without [pip]: no child can be started. *)
Definition process_without_pip (ms : gset string) (lines : list string) : process :=
  {| proc_world := empty_world; modules := ms; executable := "python3";
     spawn := fun _ ms => (SpawnError "No such file or directory", ms);
     commands := []; stdin := lines |}.

(** The one exception of the bootstrap: [sys.exit(1)]. *)
Definition exits_with_1 (e : pexn) : Prop := e = SystemExit 1.

(** The modules grow, the children are the same. *)
Definition modules_grow (p p' : process) : Prop :=
  modules p ⊆ modules p' /\ spawn p' = spawn p.

(** The process once a child started with [args] is done. *)
Definition after_child (args : list string) (ms : gset string) (p : process) : process :=
  {| proc_world := proc_world p; modules := ms; executable := executable p;
     spawn := spawn p; commands := commands p ++ [args]; stdin := stdin p |}.

(** The console after one more [print]. *)
Definition after_echo (s : string) (p : process) : process :=
  set_world (set_console (console (proc_world p) ++ [s]) (proc_world p)) p.

(** [not success or not importable], on the modules [ms]. *)
Definition unavailable (ms : gset string) (r : string * bool * string) : bool :=
  negb (snd (fst r)) || negb (bool_decide (fst (fst r) ∈ ms)).

(** Lines are only read, from the front. *)
Definition reads_on (p p' : process) : Prop := exists used, stdin p = used ++ stdin p'.

(** What a turn of the menu may change: lines are read, arrays are only
    added. *)
Definition turn_frame (p p' : process) : Prop :=
  reads_on p p' /\ heap_grows (proc_world p) (proc_world p').

(** No constraint on the exception. *)
Definition any_exception (e : pexn) : Prop := True.

(** The last line of a session that ends by choice 6. *)
Definition goodbye : string := "[INFO] Uscita dal mini terminale. A presto!".

(** [int] on plain decimal numerals. *)
Definition example_int (s : string) : option Z :=
  option_map Z.of_int (NilZero.int_of_string s).

(** [float] on the strings the examples use. *)
Definition example_float (s : string) : option spec_float :=
  if String.eqb s "2.0" then Some (IEEE.B64.of_Z 2)
  else if String.eqb s "-1.0" then Some (IEEE.B64.of_Z (-1))
  else if String.eqb s "0.2" then Some (S754_finite false 7205759403792794 (-55))
  else None.

(** The variables of [main] when the loop starts. *)
Definition first_session : session := {| current_buffer := None; current_sr := 48000 |}.

(** Every required module is importable. *)
Definition all_modules : gset string := list_to_set required.

(** The turn only answers [msg]: it returns the session [s], has read the
    input up to [rest], and has changed nothing but the console, whose last
    line is [msg]. *)
Definition answers_only (msg : string) (s : session) (rest : list string) (p : process)
    (r : outcome (option session) * process) : Prop :=
  fst r = Return (Some s)
  /\ stdin (snd r) = rest
  /\ only_console (proc_world p) (proc_world (snd r))
  /\ last (console (proc_world (snd r))) = Some msg
  /\ commands (snd r) = commands p /\ modules (snd r) = modules p.

(** The answer of choice 2 to a value that does not parse. *)
Definition bad_parameters : string := "[ERRORE] Parametri non validi. Riprova.".

(** A session after a generation of 2 seconds at 4 Hz. *)
Definition second_session : session := {| current_buffer := Some 0%nat; current_sr := 4 |}.

(** A process whose store holds eight samples at reference 0. *)
Definition process_with_buffer (lines : list string) : process :=
  set_world (world_with_buffer (repeat (S754_zero false) 8)) (process_with all_modules lines).

(** * Properties *)

(** ** Truncation and rounding of IEEE numbers *)

(** On canonical numbers the comparison by value is the library's; on other
    representations of the same values only the former is their order. *)
Example compare_canonical :
  let lo := IEEE.B32.of_Z (-32767) in
  let half := IEEE.B32.of_Z_exp 1 (-1) in
  let hi := IEEE.B32.of_Z 32767 in
  IEEE.compare lo half = SFcompare lo half
  /\ IEEE.compare half hi = SFcompare half hi
  /\ IEEE.compare hi lo = SFcompare hi lo
  /\ IEEE.compare (S754_finite false 1 10) (S754_finite false 1048576 (-10)) = Some Eq
  /\ SFcompare (S754_finite false 1 10) (S754_finite false 1048576 (-10)) = Some Gt.
Proof. repeat split. Qed.

Lemma Qtrunc_inject_Z z : Qtrunc (inject_Z z) = z.
Proof. unfold Qtrunc; simpl. apply Z.quot_1_r. Qed.

Lemma trunc_SF2Q x :
  IEEE.is_finite x = true -> IEEE.trunc x = Some (Qtrunc (IEEE.SF2Q x)).
Proof.
  destruct x as [s|s| |s m e]; simpl; try discriminate; intros _.
  - reflexivity.
  - f_equal. destruct e as [|p|p].
    + rewrite Qtrunc_inject_Z. simpl. now rewrite Z.mul_1_r.
    + rewrite Qtrunc_inject_Z. now rewrite Z.shiftl_mul_pow2 by lia.
    + unfold Qtrunc; simpl Qnum; simpl Qden.
      rewrite Z.shiftl_div_pow2 by lia.
      rewrite Pos2Z.inj_pow. change (- Z.neg p) with (Z.pos p).
      destruct s; simpl cond_Zopp.
      * change (Z.neg m) with (- Z.pos m).
        rewrite Z.quot_opp_l by lia. f_equal.
        symmetry; apply Z.quot_div_nonneg; lia.
      * symmetry; apply Z.quot_div_nonneg; lia.
Qed.

Section Rounding.
Variables prec emax : Z.

Lemma shr_1_nonneg mrs : 0 <= shr_m mrs -> 0 <= shr_m (shr_1 mrs).
Proof.
  destruct mrs as [m r s]; simpl.
  destruct m as [|[p|p|]|[p|p|]]; simpl; lia.
Qed.

Lemma iter_shr_1_nonneg p :
  forall mrs, 0 <= shr_m mrs -> 0 <= shr_m (SpecFloat.iter_pos shr_1 p mrs).
Proof.
  induction p as [p IH|p IH|]; simpl; intros mrs H.
  - apply IH, IH, shr_1_nonneg, H.
  - apply IH, IH, H.
  - apply shr_1_nonneg, H.
Qed.

Lemma shr_fexp_nonneg m e l :
  0 <= m -> 0 <= shr_m (fst (shr_fexp prec emax m e l)).
Proof.
  intros H. unfold shr_fexp, shr.
  assert (H0 : 0 <= shr_m (shr_record_of_loc m l)) by (destruct l as [|[]]; simpl; lia).
  destruct (fexp prec emax (Zdigits2 m + e) - e); simpl; auto.
  now apply iter_shr_1_nonneg.
Qed.

Lemma round_nearest_even_nonneg m l : 0 <= m -> 0 <= round_nearest_even m l.
Proof. destruct l as [|[]]; simpl; try lia. destruct (Z.even m); lia. Qed.

(** The sign and the class of a rounded number. *)
Lemma binary_round_aux_class sx mx ex lx :
  0 <= mx ->
  match binary_round_aux prec emax sx mx ex lx with
  | S754_zero s | S754_infinity s | S754_finite s _ _ => s = sx
  | S754_nan => False
  end.
Proof.
  intros H. unfold binary_round_aux.
  pose proof (shr_fexp_nonneg mx ex lx H) as H1.
  destruct (shr_fexp prec emax mx ex lx) as [mrs' e']. simpl in H1.
  pose proof (shr_fexp_nonneg _ e' loc_Exact
                (round_nearest_even_nonneg _ (loc_of_shr_record mrs') H1)) as H2.
  destruct (shr_fexp prec emax _ e' loc_Exact) as [mrs'' e'']. simpl in H2.
  destruct (shr_m mrs''); try lia; auto.
  destruct (e'' <=? emax - prec); auto.
Qed.

Lemma binary_round_class sx mx ex :
  match binary_round prec emax sx mx ex with
  | S754_zero s | S754_infinity s | S754_finite s _ _ => s = sx
  | S754_nan => False
  end.
Proof.
  unfold binary_round. destruct (shl_align _ _ _) as [mz ez].
  apply binary_round_aux_class. lia.
Qed.

Lemma SFmul_finite_not_nan x s m e :
  IEEE.is_nan (SFmul prec emax x (S754_finite s m e)) = IEEE.is_nan x.
Proof.
  destruct x as [sx|sx| |sx mx ex]; simpl; auto.
  pose proof (binary_round_aux_class (xorb sx s) (Z.pos (mx * m)) (ex + e) loc_Exact) as H.
  destruct (binary_round_aux _ _ _ _ _ _); simpl; auto. exfalso; apply H; lia.
Qed.
End Rounding.

(** ** Clipping, then truncating *)

Lemma ltb_finite x y :
  IEEE.is_finite x = true -> IEEE.is_finite y = true ->
  IEEE.ltb x y = match (IEEE.SF2Q x ?= IEEE.SF2Q y)%Q with Lt => true | _ => false end.
Proof. destruct x, y; try discriminate; reflexivity. Qed.

Lemma quot_le_upper n d k : 0 < d -> n <= k * d -> Z.quot n d <= k.
Proof.
  intros Hd H. rewrite <- (Z.quot_mul k d) by lia.
  apply Z.quot_le_mono; lia.
Qed.

Lemma quot_le_lower n d k : 0 < d -> k * d <= n -> k <= Z.quot n d.
Proof.
  intros Hd H. rewrite <- (Z.quot_mul k d) by lia.
  apply Z.quot_le_mono; lia.
Qed.

Lemma B32_of_Z_max : IEEE.B32.of_Z max_int16 = S754_finite false 16776704 (-9).
Proof. reflexivity. Qed.

Lemma B32_of_Z_min : IEEE.B32.of_Z (- max_int16) = S754_finite true 16776704 (-9).
Proof. reflexivity. Qed.

Lemma clip_astype invalid p :
  IEEE.is_nan p = false ->
  np_astype_int16 invalid (np_clip p (- max_int16) max_int16) = saturating_trunc p.
Proof.
  intros Hnan. unfold np_clip. rewrite B32_of_Z_max, B32_of_Z_min.
  destruct p as [s|s| |s m e]; try discriminate.
  - reflexivity.
  - destruct s; reflexivity.
  - change (saturating_trunc (S754_finite s m e))
      with (clamp (- max_int16) max_int16 (Qtrunc (IEEE.SF2Q (S754_finite s m e)))).
    set (p := S754_finite s m e).
    assert (Hfin : IEEE.is_finite p = true) by reflexivity.
    unfold npy_max, npy_min. change (IEEE.is_nan p) with false. rewrite orb_false_l.
    rewrite (ltb_finite _ p) by auto.
    pose proof (trunc_SF2Q p Hfin) as Htr.
    change (IEEE.SF2Q (S754_finite true 16776704 (-9))) with (-16776704 # 512)%Q.
    destruct (IEEE.SF2Q p) as [n d] eqn:Hv.
    unfold Qcompare; simpl Qnum; simpl Qden.
    unfold Qtrunc in *; simpl Qnum in *; simpl Qden in *.
    unfold clamp, max_int16.
    set (t := Z.quot n (Z.pos d)) in *.
    destruct (Z.compare_spec (-16776704 * Z.pos d) (n * 512)) as [H|H|H].
    + (* value = -32767 *)
      change (np_astype_int16 _ _) with (-32767).
      assert (t = -32767).
      { unfold t. replace n with (-32767 * Z.pos d) by lia. apply Z.quot_mul; lia. }
      clearbody t; lia.
    + (* above the lower bound *)
      rewrite orb_false_l, (ltb_finite p) by auto.
      change (IEEE.SF2Q (S754_finite false 16776704 (-9))) with (16776704 # 512)%Q.
      rewrite Hv. unfold Qcompare; simpl Qnum; simpl Qden.
      assert (Hlo : -32767 <= t) by (apply quot_le_lower; lia).
      destruct (Z.compare_spec (n * 512) (16776704 * Z.pos d)) as [H'|H'|H'].
      * change (np_astype_int16 _ _) with 32767.
        assert (t = 32767).
        { unfold t. replace n with (32767 * Z.pos d) by lia. apply Z.quot_mul; lia. }
        clearbody t; lia.
      * assert (Hhi : t <= 32767) by (apply quot_le_upper; lia).
        unfold np_astype_int16. rewrite Htr. unfold in_int16.
        replace (-32768 <=? _) with true by (symmetry; apply Z.leb_le; lia).
        replace (_ <=? 32767) with true by (symmetry; apply Z.leb_le; lia).
        simpl. clearbody t; lia.
      * change (np_astype_int16 _ _) with 32767.
        assert (32767 <= t) by (apply quot_le_lower; lia).
        clearbody t; lia.
    + change (np_astype_int16 _ _) with (-32767).
      assert (t <= -32767) by (apply quot_le_upper; lia).
      clearbody t; lia.
Qed.

(** ** Running computations *)

Lemma bind_run {A B} (m : M A) (k : A -> M B) w :
  (m ≫= k) w = match m w with
               | (Ok a, w') => k a w'
               | (Raise e, w') => (Raise e, w')
               end.
Proof. reflexivity. Qed.

Lemma bind_Ok {A B} (m : M A) (k : A -> M B) w b w' :
  (m ≫= k) w = (Ok b, w') ->
  exists a w1, m w = (Ok a, w1) /\ k a w1 = (Ok b, w').
Proof.
  rewrite bind_run. destruct (m w) as [[a|e] w1]; [eauto | discriminate].
Qed.

Lemma bind_Ok_run {A B} (m : M A) (k : A -> M B) w a w1 :
  m w = (Ok a, w1) -> (m ≫= k) w = k a w1.
Proof. intros H. now rewrite bind_run, H. Qed.

Lemma bind_Raise_run {A B} (m : M A) (k : A -> M B) w e w1 :
  m w = (Raise e, w1) -> (m ≫= k) w = (Raise e, w1).
Proof. intros H. now rewrite bind_run, H. Qed.

Lemma alloc_fresh w :
  heap w !! fresh (dom (heap w)) = None.
Proof. apply not_elem_of_dom, is_fresh. Qed.

Lemma alloc_run a w :
  exists l, alloc a w = (Ok l, set_heap (<[l := a]> (heap w)) w) /\ heap w !! l = None.
Proof. eexists; split; [reflexivity | apply alloc_fresh]. Qed.

(** ** What a computation leaves unchanged *)

Section Preserves.
Variable P : world -> world -> Prop.
Hypothesis P_refl : forall w, P w w.
Hypothesis P_trans : forall w1 w2 w3, P w1 w2 -> P w2 w3 -> P w1 w3.

Lemma preserves_ret {A} (a : A) : preserves P (mret a).
Proof. intros w; apply P_refl. Qed.

Lemma preserves_raise {A} e : preserves P (@raise A e).
Proof. intros w; apply P_refl. Qed.

Lemma preserves_lift {A} (r : result A) : preserves P (lift r).
Proof. intros w; apply P_refl. Qed.

Lemma preserves_bind {A B} (m : M A) (k : A -> M B) :
  preserves P m -> (forall a, preserves P (k a)) -> preserves P (m ≫= k).
Proof.
  intros Hm Hk w. rewrite bind_run. specialize (Hm w).
  destruct (m w) as [[a|e] w1]; simpl in *; auto.
  eapply P_trans; [exact Hm | apply Hk].
Qed.

Lemma preserves_if {A} (c : bool) (m1 m2 : M A) :
  preserves P m1 -> preserves P m2 -> preserves P (if c then m1 else m2).
Proof. destruct c; auto. Qed.
End Preserves.

Lemma frame_refl f w : frame f w w.
Proof. split; [unfold heap_grows; reflexivity | intros p _; reflexivity]. Qed.

Lemma frame_trans f w1 w2 w3 : frame f w1 w2 -> frame f w2 w3 -> frame f w1 w3.
Proof.
  intros [H1 K1] [H2 K2]. split.
  - unfold heap_grows in *. etransitivity; eauto.
  - intros p Hp. rewrite K2, K1; auto.
Qed.

(** A step that changes neither the arrays nor the files. *)
Lemma frame_same f w w' : heap w' = heap w -> files w' = files w -> frame f w w'.
Proof.
  intros Hh Hf. split.
  - unfold heap_grows. rewrite Hh. reflexivity.
  - intros p _. now rewrite Hf.
Qed.

(** A step that changes the file [f] only. *)
Lemma frame_file f c w w' :
  heap w' = heap w -> files w' = <[f := c]> (files w) -> frame f w w'.
Proof.
  intros Hh Hf. split.
  - unfold heap_grows. rewrite Hh. reflexivity.
  - intros p Hp. rewrite Hf. apply lookup_insert_ne. congruence.
Qed.

Lemma alloc_frame f a : preserves (frame f) (alloc a).
Proof.
  intros w. split.
  - unfold heap_grows; simpl. apply insert_subseteq, alloc_fresh.
  - intros p _. reflexivity.
Qed.

Ltac frame_cases :=
  intros ?w;
  repeat match goal with
         | |- context [match ?x with _ => _ end] => destruct x
         end;
  first [ apply frame_refl
        | apply alloc_frame
        | apply frame_same; reflexivity
        | eapply frame_file; reflexivity ].

Lemma read_float32_frame f l : preserves (frame f) (read_float32 l).
Proof. unfold read_float32. frame_cases. Qed.

Lemma read_int16_frame f l : preserves (frame f) (read_int16 l).
Proof. unfold read_int16. frame_cases. Qed.

Lemma read_frames_frame f l : preserves (frame f) (read_frames l).
Proof. unfold read_frames. frame_cases. Qed.

Lemma print_frame f s : preserves (frame f) (print s).
Proof. unfold print. frame_cases. Qed.

Lemma platform_cast_frame f : preserves (frame f) platform_cast.
Proof. unfold platform_cast. frame_cases. Qed.

Lemma fopen_wb_frame f : preserves (frame f) (fopen_wb f).
Proof. unfold fopen_wb. frame_cases. Qed.

Lemma fwrite_frame f bs : preserves (frame f) (fwrite f bs).
Proof. unfold fwrite. frame_cases. Qed.

Lemma ftell_frame f : preserves (frame f) (ftell f).
Proof. unfold ftell. frame_cases. Qed.

Lemma fpatch_frame f pos bs : preserves (frame f) (fpatch f pos bs).
Proof. unfold fpatch. frame_cases. Qed.

Lemma sd_wait_frame f : preserves (frame f) sd_wait.
Proof. unfold sd_wait. frame_cases. Qed.

Lemma start_stream_frame f fr : preserves (frame f) (start_stream fr).
Proof. unfold start_stream. frame_cases. Qed.

Lemma ndarray_truediv_frame f a k : preserves (frame f) (ndarray_truediv a k).
Proof. unfold ndarray_truediv. frame_cases. Qed.

Lemma np_abs_frame f a : preserves (frame f) (np_abs a).
Proof. unfold np_abs. frame_cases. Qed.

Lemma plt_show_frame f t b fr m : preserves (frame f) (plt_show t b fr m).
Proof. unfold plt_show. frame_cases. Qed.

Create HintDb frame discriminated.
#[export] Hint Resolve frame_refl alloc_frame read_float32_frame read_int16_frame
  read_frames_frame print_frame platform_cast_frame fopen_wb_frame fwrite_frame
  ftell_frame fpatch_frame sd_wait_frame start_stream_frame ndarray_truediv_frame
  np_abs_frame plt_show_frame : frame.

Ltac frame :=
  repeat first
    [ apply (preserves_bind (frame _) (frame_trans _)); [ | intros ? ]
    | apply preserves_if
    | apply (preserves_ret (frame _) (frame_refl _))
    | apply (preserves_raise (frame _) (frame_refl _))
    | apply (preserves_lift (frame _) (frame_refl _))
    | solve [ auto with frame ] ].

Lemma quantize_buffer_frame f b : preserves (frame f) (quantize_buffer b).
Proof. unfold quantize_buffer, ndarray_mul, ndarray_clip, ndarray_astype_int16. frame. Qed.

Lemma wavfile_write_frame f r d : preserves (frame f) (wavfile_write f r d).
Proof. unfold wavfile_write. frame. Qed.

Lemma save_wav_frame b r f : preserves (frame f) (save_wav b r f).
Proof.
  unfold save_wav. frame; auto using quantize_buffer_frame, wavfile_write_frame.
Qed.

Lemma play_audio_frame f b r : preserves (frame f) (play_audio b r).
Proof. unfold play_audio, sd_play. frame. Qed.

Lemma np_fft_rfft_frame f a : preserves (frame f) (np_fft_rfft a).
Proof.
  unfold np_fft_rfft. frame. intros w. apply alloc_frame.
Qed.

Lemma np_fft_rfftfreq_frame f n d : preserves (frame f) (np_fft_rfftfreq n d).
Proof. unfold np_fft_rfftfreq. frame. Qed.

Lemma plot_frame f b r : preserves (frame f) (plot_signal_and_spectrum b r).
Proof.
  unfold plot_signal_and_spectrum, np_arange.
  frame; auto using np_fft_rfft_frame, np_fft_rfftfreq_frame.
  intros w. apply alloc_frame.
Qed.

(** ** The quantizer on arrays *)

Lemma read_float32_run l xs w :
  heap w !! l = Some (Float32 xs) -> read_float32 l w = (Ok xs, w).
Proof. intros H. unfold read_float32. now rewrite H. Qed.

Lemma read_int16_run l xs w :
  heap w !! l = Some (Int16 xs) -> read_int16 l w = (Ok xs, w).
Proof. intros H. unfold read_int16. now rewrite H. Qed.

(** The three steps of the quantizer leave the quantized samples in a new
    array and change nothing else. *)
Lemma quantize_buffer_run w b xs :
  heap w !! b = Some (Float32 xs) ->
  exists l h,
    quantize_buffer b w = (Ok l, set_heap h w)
    /\ h !! l = Some (Int16 (map (quantize (invalid_cast w)) xs))
    /\ heap w ⊆ h.
Proof.
  intros Hb.
  set (a1 := Float32 (map (fun v => np_multiply v max_int16) xs)).
  destruct (alloc_run a1 w) as (l1 & E1 & F1).
  set (w1 := set_heap (<[l1 := a1]> (heap w)) w) in *.
  set (a2 := Float32 (map (fun v => np_clip v (- max_int16) max_int16)
                          (map (fun v => np_multiply v max_int16) xs))).
  destruct (alloc_run a2 w1) as (l2 & E2 & F2).
  set (w2 := set_heap (<[l2 := a2]> (heap w1)) w1) in *.
  set (a3 := Int16 (map (np_astype_int16 (invalid_cast w))
                        (map (fun v => np_clip v (- max_int16) max_int16)
                             (map (fun v => np_multiply v max_int16) xs)))).
  destruct (alloc_run a3 w2) as (l3 & E3 & F3).
  assert (H1 : heap w1 !! l1 = Some a1) by apply lookup_insert_eq.
  assert (H2 : heap w2 !! l2 = Some a2) by apply lookup_insert_eq.
  exists l3, (<[l3 := a3]> (heap w2)).
  split; [|split].
  - unfold quantize_buffer, ndarray_mul, ndarray_clip, ndarray_astype_int16.
    rewrite (bind_Ok_run _ _ w l1 w1).
    2: { rewrite (bind_Ok_run _ _ w xs w) by (apply read_float32_run; exact Hb). exact E1. }
    rewrite (bind_Ok_run _ _ w1 l2 w2).
    2: { rewrite (bind_Ok_run _ _ w1 _ w1) by (apply read_float32_run; exact H1). exact E2. }
    rewrite (bind_Ok_run _ _ w2 _ w2) by (apply read_float32_run; exact H2).
    rewrite (bind_Ok_run platform_cast _ w2 (invalid_cast w) w2) by reflexivity.
    exact E3.
  - rewrite lookup_insert_eq. unfold a3. do 2 f_equal. now rewrite !map_map.
  - etransitivity; [apply (insert_subseteq _ l1); exact F1|].
    etransitivity; [apply (insert_subseteq _ l2); exact F2|].
    apply insert_subseteq; exact F3.
Qed.

Lemma leb_finite x y :
  IEEE.is_finite x = true -> IEEE.is_finite y = true ->
  IEEE.leb x y = match (IEEE.SF2Q x ?= IEEE.SF2Q y)%Q with Gt => false | _ => true end.
Proof. destruct x, y; try discriminate; reflexivity. Qed.

Lemma np_multiply_not_nan x : not_nan x -> not_nan (np_multiply x max_int16).
Proof.
  unfold not_nan, np_multiply, IEEE.B32.mul. rewrite B32_of_Z_max.
  now rewrite SFmul_finite_not_nan.
Qed.

(** One sample: the code's three steps are the truncation of the product,
    kept within [-32767, 32767]. *)
Lemma quantize_saturating invalid x :
  not_nan x -> quantize invalid x = saturating_trunc (np_multiply x max_int16).
Proof. intros H. apply clip_astype, np_multiply_not_nan, H. Qed.

Lemma saturating_trunc_range p : - max_int16 <= saturating_trunc p <= max_int16.
Proof.
  unfold saturating_trunc, clamp, max_int16.
  destruct p as [s|[]| |s m e]; lia.
Qed.

Lemma wrap16_range z : -32768 <= wrap16 z <= 32767.
Proof. unfold wrap16. pose proof (Z.mod_pos_bound (z + 32768) 65536). lia. Qed.

Lemma np_astype_int16_range invalid x : -32768 <= np_astype_int16 invalid x <= 32767.
Proof.
  unfold np_astype_int16. destruct (IEEE.trunc x) as [z|]; [|apply wrap16_range].
  destruct (in_int16 z) eqn:E; [|apply wrap16_range].
  unfold in_int16 in E. apply andb_true_iff in E as [E1 E2].
  apply Z.leb_le in E1, E2. lia.
Qed.

Lemma saturating_trunc_high p :
  IEEE.leb (IEEE.B32.of_Z max_int16) p = true -> saturating_trunc p = max_int16.
Proof.
  rewrite B32_of_Z_max. destruct p as [s|[]| |s m e]; try discriminate; auto.
  set (p := S754_finite s m e).
  rewrite (leb_finite _ p) by reflexivity.
  change (saturating_trunc p) with (clamp (- max_int16) max_int16 (Qtrunc (IEEE.SF2Q p))).
  change (IEEE.SF2Q (S754_finite false 16776704 (-9))) with (16776704 # 512)%Q.
  destruct (IEEE.SF2Q p) as [n d].
  unfold Qcompare, Qtrunc, clamp, max_int16; simpl Qnum; simpl Qden.
  destruct (Z.compare_spec (16776704 * Z.pos d) (n * 512)); try discriminate; intros _.
  - replace n with (32767 * Z.pos d) by lia. rewrite Z.quot_mul by lia. reflexivity.
  - assert (32767 <= Z.quot n (Z.pos d)) by (apply quot_le_lower; lia).
    set (t := Z.quot n (Z.pos d)) in *. clearbody t. lia.
Qed.

Lemma saturating_trunc_low p :
  IEEE.leb p (IEEE.B32.of_Z (- max_int16)) = true -> saturating_trunc p = - max_int16.
Proof.
  rewrite B32_of_Z_min. destruct p as [s|[]| |s m e]; try discriminate; auto.
  set (p := S754_finite s m e).
  rewrite (leb_finite p) by reflexivity.
  change (saturating_trunc p) with (clamp (- max_int16) max_int16 (Qtrunc (IEEE.SF2Q p))).
  change (IEEE.SF2Q (S754_finite true 16776704 (-9))) with (-16776704 # 512)%Q.
  destruct (IEEE.SF2Q p) as [n d].
  unfold Qcompare, Qtrunc, clamp, max_int16; simpl Qnum; simpl Qden.
  destruct (Z.compare_spec (n * 512) (-16776704 * Z.pos d)); try discriminate; intros _.
  - replace n with (-32767 * Z.pos d) by lia. rewrite Z.quot_mul by lia. reflexivity.
  - assert (Z.quot n (Z.pos d) <= -32767) by (apply quot_le_upper; lia).
    set (t := Z.quot n (Z.pos d)) in *. clearbody t. lia.
Qed.

Lemma lookup_map {A B} (f : A -> B) (l : list A) (i : nat) :
  map f l !! i = f <$> (l !! i).
Proof. revert i; induction l as [|a l IH]; intros [|i]; simpl; auto. Qed.

(** C1, counterexample.  The sample 0.375 scales to 12287.625: the code
    stores 12287 where the formula of the specification rounds to 12288; the
    sample -2 is stored as -32767 where the formula clamps to -32768. *)
Lemma quantizer_truncates_counterexample :
  let xs := [IEEE.B32.of_Z_exp 3 (-3); IEEE.B32.of_Z (-2)] in
  exists l w',
    quantize_buffer 0 (world_with_buffer xs) = (Ok l, w')
    /\ heap w' !! l = Some (Int16 [12287; -32767])
    /\ map spec_quantize xs = [12288; -32768]
    /\ [12287; -32767] <> map spec_quantize xs.
Proof.
  do 2 eexists. split; [vm_compute; reflexivity|].
  split; [vm_compute; reflexivity|].
  split; [vm_compute; reflexivity|].
  vm_compute. discriminate.
Qed.

(** C1, amended.  For every buffer of samples that are numbers, the quantizer
    stores for each sample [b i] the binary32 product of [b i] by 32767,
    truncated toward zero and kept within [-32767, 32767]:
    [q i = clamp (trunc (b i * 32767)) (-32767) 32767]. *)
Theorem quantizer_formula (w : world) (b : nat) (xs : list spec_float) :
  heap w !! b = Some (Float32 xs) ->
  Forall not_nan xs ->
  exists l qs w',
    quantize_buffer b w = (Ok l, w')
    /\ heap w' !! l = Some (Int16 qs)
    /\ length qs = length xs
    /\ forall i x, xs !! i = Some x ->
         qs !! i = Some (saturating_trunc (IEEE.B32.mul x (IEEE.B32.of_Z 32767))).
Proof.
  intros Hb Hnan.
  destruct (quantize_buffer_run w b xs Hb) as (l & h & Hrun & Hl & _).
  exists l, (map (quantize (invalid_cast w)) xs), (set_heap h w).
  split; [exact Hrun|]. split; [exact Hl|]. split; [apply length_map|].
  intros i x Hi. rewrite lookup_map, Hi. simpl. f_equal.
  apply quantize_saturating.
  rewrite Forall_forall in Hnan. apply Hnan.
  eapply list_elem_of_lookup_2; eauto.
Qed.

Lemma quantizer_formula_witness :
  exists l qs w',
    quantize_buffer 0 (world_with_buffer [IEEE.B32.of_Z_exp 3 (-3)]) = (Ok l, w')
    /\ heap w' !! l = Some (Int16 qs)
    /\ length qs = length [IEEE.B32.of_Z_exp 3 (-3)]
    /\ forall i x, [IEEE.B32.of_Z_exp 3 (-3)] !! i = Some x ->
         qs !! i = Some (saturating_trunc (IEEE.B32.mul x (IEEE.B32.of_Z 32767))).
Proof.
  apply (quantizer_formula (world_with_buffer [IEEE.B32.of_Z_exp 3 (-3)]) 0%nat).
  - vm_compute; reflexivity.
  - repeat constructor.
Defined.

(** The product is rounded to binary32 before it is truncated: for the sample
    8388864 * 2^-24 the exact product is 16384 - 2^-16, which truncates to
    16383, but its binary32 rounding is 16384, and 16384 is what is stored. *)
Example product_is_rounded_first :
  let x := S754_finite false 8388864 (-24) in
  Qtrunc (IEEE.SF2Q x * 32767) = 16383
  /\ quantize (fun _ => 0) x = 16384.
Proof. split; vm_compute; reflexivity. Qed.

(** C10.  For every buffer of samples that are numbers, every quantized
    sample lies in the symmetric range [-32767, 32767]; the value -32768 is
    never produced. *)
Theorem quantizer_symmetric_range (w : world) (b : nat) (xs : list spec_float) :
  heap w !! b = Some (Float32 xs) ->
  Forall not_nan xs ->
  exists l qs w',
    quantize_buffer b w = (Ok l, w')
    /\ heap w' !! l = Some (Int16 qs)
    /\ length qs = length xs
    /\ Forall (fun q => -32767 <= q <= 32767) qs
    /\ ~ In (-32768) qs.
Proof.
  intros Hb Hnan.
  destruct (quantize_buffer_run w b xs Hb) as (l & h & Hrun & Hl & _).
  exists l, (map (quantize (invalid_cast w)) xs), (set_heap h w).
  assert (Hr : Forall (fun q => -32767 <= q <= 32767) (map (quantize (invalid_cast w)) xs)).
  { apply List.Forall_map. eapply Forall_impl; [exact Hnan|].
    intros x Hx. simpl. rewrite quantize_saturating by exact Hx.
    apply saturating_trunc_range. }
  split; [exact Hrun|]. split; [exact Hl|]. split; [apply length_map|].
  split; [exact Hr|].
  intros Hin. rewrite Forall_forall in Hr. apply list_elem_of_In in Hin.
  specialize (Hr _ Hin). lia.
Qed.

Lemma quantizer_symmetric_range_witness :
  exists l qs w',
    quantize_buffer 0 (world_with_buffer [IEEE.B32.of_Z (-2)]) = (Ok l, w')
    /\ heap w' !! l = Some (Int16 qs)
    /\ length qs = length [IEEE.B32.of_Z (-2)]
    /\ Forall (fun q => -32767 <= q <= 32767) qs
    /\ ~ In (-32768) qs.
Proof.
  apply (quantizer_symmetric_range (world_with_buffer [IEEE.B32.of_Z (-2)]) 0%nat).
  - vm_compute; reflexivity.
  - repeat constructor.
Defined.

(** C8, counterexample.  The sample -2 scales to -65534, below the 16-bit
    range; the boundary of that range nearest to it is -32768, the code
    stores -32767. *)
Lemma saturation_low_counterexample :
  let x := IEEE.B32.of_Z (-2) in
  (IEEE.SF2Q (np_multiply x max_int16) == -65534 # 1)%Q
  /\ clamp (-32768) 32767 (-65534) = -32768
  /\ exists l w',
       quantize_buffer 0 (world_with_buffer [x]) = (Ok l, w')
       /\ heap w' !! l = Some (Int16 [-32767])
       /\ -32767 <> -32768.
Proof.
  split; [vm_compute; reflexivity|]. split; [reflexivity|].
  do 2 eexists. split; [vm_compute; reflexivity|].
  split; [vm_compute; reflexivity|]. discriminate.
Qed.

(** C8, amended.  For every buffer the quantizer returns, without an error,
    samples that all lie within [-32768, 32767]; a sample whose scaled value
    is 32767 or more is stored as 32767 and one whose scaled value is -32767
    or less is stored as -32767, whatever its magnitude: values out of range
    saturate, at -32767 on the low side, and never wrap around. *)
Theorem quantizer_saturates (w : world) (b : nat) (xs : list spec_float) :
  heap w !! b = Some (Float32 xs) ->
  exists l qs w',
    quantize_buffer b w = (Ok l, w')
    /\ heap w' !! l = Some (Int16 qs)
    /\ length qs = length xs
    /\ Forall (fun q => -32768 <= q <= 32767) qs
    /\ forall i x, xs !! i = Some x -> not_nan x ->
         let p := IEEE.B32.mul x (IEEE.B32.of_Z 32767) in
         (IEEE.leb (IEEE.B32.of_Z 32767) p = true -> qs !! i = Some 32767)
         /\ (IEEE.leb p (IEEE.B32.of_Z (-32767)) = true -> qs !! i = Some (-32767)).
Proof.
  intros Hb.
  destruct (quantize_buffer_run w b xs Hb) as (l & h & Hrun & Hl & _).
  exists l, (map (quantize (invalid_cast w)) xs), (set_heap h w).
  split; [exact Hrun|]. split; [exact Hl|]. split; [apply length_map|]. split.
  - apply List.Forall_map, Forall_forall. intros x _. apply np_astype_int16_range.
  - intros i x Hi Hx p. rewrite lookup_map, Hi. simpl.
    rewrite quantize_saturating by exact Hx. split; intros Hp; f_equal.
    + apply (saturating_trunc_high _ Hp).
    + apply (saturating_trunc_low _ Hp).
Qed.

Lemma quantizer_saturates_witness :
  exists l qs w',
    quantize_buffer 0 (world_with_buffer [IEEE.B32.of_Z 3]) = (Ok l, w')
    /\ heap w' !! l = Some (Int16 qs)
    /\ length qs = length [IEEE.B32.of_Z 3]
    /\ Forall (fun q => -32768 <= q <= 32767) qs
    /\ forall i x, [IEEE.B32.of_Z 3] !! i = Some x -> not_nan x ->
         let p := IEEE.B32.mul x (IEEE.B32.of_Z 32767) in
         (IEEE.leb (IEEE.B32.of_Z 32767) p = true -> qs !! i = Some 32767)
         /\ (IEEE.leb p (IEEE.B32.of_Z (-32767)) = true -> qs !! i = Some (-32767)).
Proof.
  apply (quantizer_saturates (world_with_buffer [IEEE.B32.of_Z 3]) 0%nat).
  vm_compute; reflexivity.
Defined.

(** ** The generator *)

Lemma generate_raise_product d sr amp w e :
  py_float_mul_int d sr = Raise e -> generate_white_noise d sr amp w = (Raise e, w).
Proof. intros H. unfold generate_white_noise. rewrite bind_run. unfold lift. now rewrite H. Qed.

Lemma generate_raise_int d sr amp w p e :
  py_float_mul_int d sr = Ok p -> py_int p = Raise e ->
  generate_white_noise d sr amp w = (Raise e, w).
Proof.
  intros H1 H2. unfold generate_white_noise. rewrite bind_run. unfold lift at 1. rewrite H1.
  rewrite bind_run. unfold lift. now rewrite H2.
Qed.

Lemma generate_negative d sr amp w p n :
  py_float_mul_int d sr = Ok p -> py_int p = Ok n -> n < 0 ->
  generate_white_noise d sr amp w = (Raise ValueError, w).
Proof.
  intros H1 H2 Hn. unfold generate_white_noise. rewrite bind_run. unfold lift at 1. rewrite H1.
  rewrite bind_run. unfold lift. rewrite H2.
  rewrite bind_run. unfold np_random_normal.
  replace (n <? 0) with true by (symmetry; apply Z.ltb_lt; lia). reflexivity.
Qed.

Lemma generate_too_large d sr amp w p n :
  py_float_mul_int d sr = Ok p -> py_int p = Ok n -> max_intp < 8 * n ->
  generate_white_noise d sr amp w = (Raise ValueError, w).
Proof.
  intros H1 H2 Hn. unfold generate_white_noise. rewrite bind_run. unfold lift at 1. rewrite H1.
  rewrite bind_run. unfold lift. rewrite H2.
  rewrite bind_run. unfold np_random_normal.
  destruct (n <? 0); [reflexivity|].
  replace (max_intp <? 8 * n) with true by (symmetry; apply Z.ltb_lt; lia). reflexivity.
Qed.

Lemma generate_no_memory d sr amp w p n :
  py_float_mul_int d sr = Ok p -> py_int p = Ok n -> 0 <= n -> 8 * n <= max_intp ->
  granted (8 * n) w = false ->
  generate_white_noise d sr amp w = (Raise MemoryError, w).
Proof.
  intros H1 H2 H0 Hn Hg. unfold generate_white_noise. rewrite bind_run. unfold lift at 1.
  rewrite H1. rewrite bind_run. unfold lift. rewrite H2.
  rewrite bind_run. unfold np_random_normal.
  replace (n <? 0) with false by (symmetry; apply Z.ltb_ge; lia).
  replace (max_intp <? 8 * n) with false by (symmetry; apply Z.ltb_ge; lia).
  now rewrite Hg.
Qed.

(** The memory that takes an array takes a smaller one. *)
Lemma granted_le b b' w : b' <= b -> granted b w = true -> granted b' w = true.
Proof.
  unfold granted. destruct (mem_limit w); [|auto].
  intros Hb H. apply Z.leb_le in H. apply Z.leb_le. lia.
Qed.

(** One GiB is always there. *)
Lemma granted_small b w : b <= 2 ^ 30 -> granted b w = true.
Proof.
  unfold granted. destruct (mem_limit w); [|auto]. intros Hb. apply Z.leb_le. lia.
Qed.

(** The samples [generate_white_noise] makes of the next [n] draws. *)
Lemma generate_shape d sr amp w p n :
  py_float_mul_int d sr = Ok p -> py_int p = Ok n -> 0 <= n ->
  8 * n <= max_intp -> granted (8 * n) w = true ->
  exists b h,
    generate_white_noise d sr amp w
    = (Ok b, set_heap h (set_gauss (fun i => gauss w (Z.to_nat n + i)%nat) w))
    /\ h !! b = Some (Float32 (map (fun i => IEEE.B32.mul (IEEE.B32.of_float (gauss w i))
                                                           (IEEE.B32.of_float amp))
                                   (seq 0 (Z.to_nat n))))
    /\ heap w ⊆ h.
Proof.
  intros H1 H2 Hn Hmax Hg.
  set (draws := map (gauss w) (seq 0 (Z.to_nat n))).
  set (w0 := set_gauss (fun i => gauss w (Z.to_nat n + i)%nat) w).
  destruct (alloc_run (Float64 draws) w0) as (l1 & E1 & F1).
  set (w1 := set_heap (<[l1 := Float64 draws]> (heap w0)) w0) in *.
  destruct (alloc_run (Float32 (map IEEE.B32.of_float draws)) w1) as (l2 & E2 & F2).
  set (w2 := set_heap (<[l2 := Float32 (map IEEE.B32.of_float draws)]> (heap w1)) w1) in *.
  set (xs := map (fun v => IEEE.B32.mul v (IEEE.B32.of_float amp))
                 (map IEEE.B32.of_float draws)).
  assert (Hlen : Z.of_nat (length draws) = n)
    by (unfold draws; rewrite length_map, length_seq; lia).
  exists l2, (<[l2 := Float32 xs]> (heap w2)).
  split; [|split].
  - unfold generate_white_noise. rewrite bind_run. unfold lift at 1. rewrite H1.
    rewrite bind_run. unfold lift. rewrite H2.
    rewrite (bind_Ok_run _ _ w l1 w1).
    2: { unfold np_random_normal.
         replace (n <? 0) with false by (symmetry; apply Z.ltb_ge; lia).
         replace (max_intp <? 8 * n) with false by (symmetry; apply Z.ltb_ge; lia).
         rewrite Hg. exact E1. }
    rewrite (bind_Ok_run _ _ w1 l2 w2).
    2: { unfold ndarray_astype_float32.
         replace (heap w1 !! l1) with (Some (Float64 draws))
           by (symmetry; apply lookup_insert_eq).
         replace (granted (4 * Z.of_nat (length draws)) w1) with true; [exact E2|].
         symmetry. apply (granted_le (8 * n)); [lia | exact Hg]. }
    rewrite (bind_Ok_run _ _ w2 tt (set_heap (<[l2 := Float32 xs]> (heap w2)) w2));
      [reflexivity|].
    unfold ndarray_imul.
    rewrite (bind_Ok_run _ _ w2 (map IEEE.B32.of_float draws) w2); [reflexivity|].
    apply read_float32_run. apply lookup_insert_eq.
  - rewrite lookup_insert_eq. unfold xs, draws. now rewrite !map_map.
  - simpl. rewrite insert_insert_eq.
    etransitivity; [apply (insert_subseteq _ l1); exact F1|].
    apply insert_subseteq; exact F2.
Qed.

Lemma generate_run d sr amp w p n :
  py_float_mul_int d sr = Ok p -> py_int p = Ok n -> 0 <= n ->
  8 * n <= max_intp -> granted (8 * n) w = true ->
  exists b xs w',
    generate_white_noise d sr amp w = (Ok b, w')
    /\ heap w' !! b = Some (Float32 xs)
    /\ Z.of_nat (length xs) = n
    /\ heap_grows w w'
    /\ files w' = files w /\ writable w' = writable w /\ disk_free w' = disk_free w.
Proof.
  intros H1 H2 Hn Hmax Hg.
  destruct (generate_shape d sr amp w p n H1 H2 Hn Hmax Hg) as (b & h & Hrun & Hb & Hh).
  eexists b, _, _. split; [exact Hrun|]. split; [exact Hb|].
  split; [rewrite length_map, length_seq; lia|]. split; [exact Hh|]. auto.
Qed.

(** The ways [generate_white_noise] ends. *)
Lemma generate_cases d sr amp w :
  (exists e, generate_white_noise d sr amp w = (Raise e, w))
  \/ (exists p n, py_float_mul_int d sr = Ok p /\ py_int p = Ok n /\ 0 <= n
                  /\ 8 * n <= max_intp /\ granted (8 * n) w = true).
Proof.
  destruct (py_float_mul_int d sr) as [p|e] eqn:Hp.
  - destruct (py_int p) as [n|e] eqn:Hn.
    + destruct (Z.lt_ge_cases n 0).
      * left. eexists. eapply generate_negative; eauto.
      * destruct (Z.lt_ge_cases max_intp (8 * n)).
        -- left. eexists. eapply generate_too_large; eauto.
        -- destruct (granted (8 * n) w) eqn:Hg.
           ++ right. eauto 8.
           ++ left. eexists. eapply generate_no_memory; eauto.
    + left. eexists. eapply generate_raise_int; eauto.
  - left. eexists. eapply generate_raise_product; eauto.
Qed.

(** What a normal return of [generate_white_noise] tells. *)
Lemma generate_Ok_inv d sr amp w b w' :
  generate_white_noise d sr amp w = (Ok b, w') ->
  exists p n xs,
    py_float_mul_int d sr = Ok p /\ py_int p = Ok n /\ 0 <= n
    /\ 8 * n <= max_intp /\ granted (8 * n) w = true
    /\ heap w' !! b = Some (Float32 xs) /\ Z.of_nat (length xs) = n
    /\ heap_grows w w'.
Proof.
  intros H. destruct (generate_cases d sr amp w)
    as [[e He]|(p & n & Hp & Hn & H0 & Hmax & Hg)]; [congruence|].
  destruct (generate_shape _ _ amp w _ _ Hp Hn H0 Hmax Hg) as (b' & h & Hrun & Hb & Hh).
  rewrite Hrun in H. injection H as <- <-.
  eexists p, n, _. split; [exact Hp|]. split; [exact Hn|]. split; [exact H0|].
  split; [exact Hmax|]. split; [exact Hg|]. split; [exact Hb|].
  split; [rewrite length_map, length_seq; lia | exact Hh].
Qed.

Lemma SF2Q_negative m e : (IEEE.SF2Q (S754_finite true m e) < 0)%Q.
Proof.
  unfold Qlt. destruct e as [|p|p]; simpl; lia.
Qed.

Lemma positive_float_sign d : positive_float d -> sign_clear d /\ IEEE.is_nan d = false.
Proof.
  unfold positive_float, IEEE.ltb.
  destruct d as [s|s| |s m e]; simpl; try discriminate.
  - destruct s; [discriminate | auto].
  - destruct s; [|auto].
    assert (H : (0 ?= IEEE.SF2Q (S754_finite true m e))%Q = Gt)
      by (apply Qgt_alt, SF2Q_negative).
    unfold IEEE.SF2Q in H. rewrite H. discriminate.
Qed.

Lemma B64_of_Z_sign sr : 0 < sr -> sign_clear (IEEE.B64.of_Z sr).
Proof.
  destruct sr as [|q|q]; try lia. intros _.
  unfold IEEE.B64.of_Z, IEEE.B64.of_Z_exp, binary_normalize.
  pose proof (binary_round_class IEEE.B64.prec IEEE.B64.emax false q 0) as H.
  unfold sign_clear. destruct (binary_round _ _ _ _ _); auto.
Qed.

Lemma mul_sign_clear prec emax x y :
  sign_clear x -> sign_clear y -> IEEE.is_finite (SFmul prec emax x y) = true ->
  sign_clear (SFmul prec emax x y).
Proof.
  destruct x as [sx|sx| |sx mx ex], y as [sy|sy| |sy my ey]; simpl;
    try contradiction; try discriminate; intros -> -> Hf; try reflexivity.
  pose proof (binary_round_aux_class prec emax (xorb false false)
                (Z.pos (mx * my)) (ex + ey) loc_Exact) as H.
  destruct (binary_round_aux _ _ _ _ _ _); simpl in *; try discriminate; apply H; lia.
Qed.

Lemma trunc_sign_clear p :
  IEEE.is_finite p = true -> sign_clear p ->
  IEEE.trunc p = Some (Qfloor (IEEE.SF2Q p)) /\ 0 <= Qfloor (IEEE.SF2Q p).
Proof.
  intros Hf Hs. rewrite (trunc_SF2Q p Hf).
  assert (Hn : 0 <= Qnum (IEEE.SF2Q p)).
  { destruct p as [s|s| |s m e]; simpl in *; try lia; subst s.
    destruct e as [|q|q]; simpl; lia. }
  destruct (IEEE.SF2Q p) as [n d]. unfold Qtrunc, Qfloor. simpl in *.
  rewrite Z.quot_div_nonneg by lia. split; [reflexivity|].
  apply Z.div_pos; lia.
Qed.

Lemma py_int_finite p :
  IEEE.is_finite p = true ->
  py_int p = match IEEE.trunc p with Some z => Ok z | None => Raise ValueError end.
Proof. destruct p; try discriminate; reflexivity. Qed.

(** For valid parameters the product converts to a count of samples, its
    floor. *)
Lemma valid_sample_count (duration_seconds : spec_float) (sample_rate : Z) :
  positive_float duration_seconds ->
  0 < sample_rate ->
  finite (IEEE.B64.mul duration_seconds (IEEE.B64.of_Z sample_rate)) ->
  let p := IEEE.B64.mul duration_seconds (IEEE.B64.of_Z sample_rate) in
  py_float_mul_int duration_seconds sample_rate = Ok p
  /\ py_int p = Ok (Qfloor (IEEE.SF2Q p))
  /\ 0 <= Qfloor (IEEE.SF2Q p).
Proof.
  intros Hd Hsr Hfin. unfold finite in Hfin.
  destruct (positive_float_sign _ Hd) as [Sd _].
  pose proof (B64_of_Z_sign _ Hsr) as Sy.
  set (y := IEEE.B64.of_Z sample_rate) in *.
  set (p := IEEE.B64.mul duration_seconds y) in *.
  assert (Hy : IEEE.is_infinity y = false).
  { destruct y as [s|s| |s m e]; auto.
    unfold p, IEEE.B64.mul in Hfin.
    destruct duration_seconds; simpl in *; discriminate || contradiction. }
  destruct (trunc_sign_clear p Hfin) as [Ht Hn].
  { apply mul_sign_clear; auto. }
  split; [|split; [|exact Hn]].
  - unfold py_float_mul_int. fold y. now rewrite Hy.
  - rewrite py_int_finite by exact Hfin. now rewrite Ht.
Qed.

(** C3.  For every duration_seconds > 0 and sample_rate > 0, a buffer that
    [generate_white_noise] returns has exactly [floor (duration_seconds *
    sample_rate)] samples, the product being the binary64 one the code
    computes.  It returns one whenever that product is finite and the float64
    draws, 8 bytes each, are an array NumPy accepts and the memory can take;
    when it raises instead there is no buffer. *)
Theorem generate_length (duration_seconds : spec_float) (sample_rate : Z)
    (amplitude : spec_float) (w : world) :
  positive_float duration_seconds ->
  0 < sample_rate ->
  (forall b w',
      generate_white_noise duration_seconds sample_rate amplitude w = (Ok b, w') ->
      exists xs,
        heap w' !! b = Some (Float32 xs)
        /\ Z.of_nat (length xs)
           = Qfloor (IEEE.SF2Q (IEEE.B64.mul duration_seconds (IEEE.B64.of_Z sample_rate))))
  /\ (finite (IEEE.B64.mul duration_seconds (IEEE.B64.of_Z sample_rate)) ->
      8 * Qfloor (IEEE.SF2Q (IEEE.B64.mul duration_seconds (IEEE.B64.of_Z sample_rate)))
      <= max_intp ->
      granted
        (8 * Qfloor (IEEE.SF2Q (IEEE.B64.mul duration_seconds (IEEE.B64.of_Z sample_rate))))
        w = true ->
      exists b w',
        generate_white_noise duration_seconds sample_rate amplitude w = (Ok b, w')).
Proof.
  intros Hd Hsr. split.
  - intros b w' Hrun.
    destruct (generate_Ok_inv _ _ _ _ _ _ Hrun) as (p & n & xs & Hp & Hi & _ & _ & _ & Hb & Hlen & _).
    assert (Hp' : p = IEEE.B64.mul duration_seconds (IEEE.B64.of_Z sample_rate)).
    { unfold py_float_mul_int in Hp.
      destruct (IEEE.is_infinity (IEEE.B64.of_Z sample_rate)); congruence. }
    assert (Hfin : finite p).
    { unfold finite. destruct p; try discriminate; reflexivity. }
    rewrite Hp' in Hfin.
    destruct (valid_sample_count _ _ Hd Hsr Hfin) as (_ & Hi' & _).
    rewrite <- Hp' in Hi'. exists xs. split; [exact Hb|]. rewrite Hlen, <- Hp'. congruence.
  - intros Hfin Hmax Hg.
    destruct (valid_sample_count _ _ Hd Hsr Hfin) as (Hp & Hi & Hn).
    destruct (generate_run _ _ amplitude w _ _ Hp Hi Hn Hmax Hg)
      as (b & xs & w' & Hrun & _).
    exists b, w'. exact Hrun.
Qed.

Lemma generate_length_witness :
  exists b w',
    generate_white_noise (IEEE.B64.of_Z 1) 48000 (IEEE.B64.of_Z_exp 1 (-2)) empty_world
      = (Ok b, w').
Proof.
  apply (proj2 (generate_length (IEEE.B64.of_Z 1) 48000 (IEEE.B64.of_Z_exp 1 (-2)) empty_world
                  ltac:(vm_compute; reflexivity) ltac:(lia))).
  - vm_compute; reflexivity.
  - vm_compute; discriminate.
  - reflexivity.
Defined.





(** Two calls NumPy refuses for their size, with duration and sample rate
    positive, and one the memory refuses. *)
Example generate_beyond_numpy :
  generate_white_noise (IEEE.B64.of_Z (10 ^ 19)) 1 (IEEE.B64.of_Z 1) empty_world
  = (Raise ValueError, empty_world)
  /\ generate_white_noise (IEEE.B64.of_Z 1) (2 ^ 62) (IEEE.B64.of_Z 1) empty_world
     = (Raise ValueError, empty_world)
  /\ generate_white_noise (IEEE.B64.of_Z 1) (2 ^ 30) (IEEE.B64.of_Z 1)
       (set_mem_limit (Some 1%positive) empty_world)
     = (Raise MemoryError, set_mem_limit (Some 1%positive) empty_world).
Proof.
  split; [|split].
  - apply (generate_too_large _ _ _ _ (IEEE.B64.of_Z (10 ^ 19)) (10 ^ 19));
      vm_compute; reflexivity.
  - apply (generate_too_large _ _ _ _ (IEEE.B64.of_Z (2 ^ 62)) (2 ^ 62));
      vm_compute; reflexivity.
  - apply (generate_no_memory _ _ _ _ (IEEE.B64.of_Z (2 ^ 30)) (2 ^ 30));
      vm_compute; solve [reflexivity | discriminate].
Qed.

(** ** Bytes *)

Lemma Z_of_byte_of_Z z : Z_of_byte (byte_of_Z z) = z mod 256.
Proof.
  unfold Z_of_byte, byte_of_Z.
  pose proof (Z.mod_pos_bound z 256 ltac:(lia)) as Hb.
  destruct (Byte.of_N (Z.to_N (z mod 256))) as [b|] eqn:E; simpl.
  - apply Byte.to_of_N in E. rewrite E. apply Z2N.id. lia.
  - apply Byte.of_N_None_iff in E. lia.
Qed.

Lemma length_le_bytes n z : length (le_bytes n z) = n.
Proof. revert z; induction n; simpl; intros; auto. Qed.

Lemma le_decode_le_bytes n z : le_decode (le_bytes n z) = z mod 256 ^ Z.of_nat n.
Proof.
  revert z; induction n as [|n IH]; intros z.
  - simpl. now rewrite Z.mod_1_r.
  - change (le_decode (le_bytes (S n) z))
      with (Z_of_byte (byte_of_Z z) + 256 * le_decode (le_bytes n (z / 256))).
    rewrite IH, Z_of_byte_of_Z, Nat2Z.inj_succ, Z.pow_succ_r by lia.
    rewrite Z.rem_mul_r by lia. reflexivity.
Qed.

Lemma le_decode_le_bytes_small n z :
  0 <= z < 256 ^ Z.of_nat n -> le_decode (le_bytes n z) = z.
Proof. intros H. rewrite le_decode_le_bytes. now apply Z.mod_small. Qed.

Lemma length_int16_bytes qs : length (int16_bytes qs) = (2 * length qs)%nat.
Proof. induction qs as [|q qs IH]; simpl; auto. rewrite IH. lia. Qed.

Lemma int16_samples_bytes qs :
  Forall (fun q => -32768 <= q <= 32767) qs -> int16_samples (int16_bytes qs) = qs.
Proof.
  induction 1 as [|q qs Hq _ IH]; auto.
  change (int16_bytes (q :: qs)) with (le_bytes 2 q ++ int16_bytes qs).
  change (le_bytes 2 q) with [byte_of_Z q; byte_of_Z (q / 256)].
  change (int16_samples ([byte_of_Z q; byte_of_Z (q / 256)] ++ int16_bytes qs))
    with (wrap16 (le_decode (le_bytes 2 q)) :: int16_samples (int16_bytes qs)).
  rewrite IH, le_decode_le_bytes. f_equal.
  unfold wrap16. change (256 ^ Z.of_nat 2) with 65536.
  rewrite Zplus_mod_idemp_l, Z.mod_small by lia. lia.
Qed.

(** ** File primitives *)

Lemma fopen_wb_Ok f w u w1 :
  fopen_wb f w = (Ok u, w1) ->
  writable w f = true /\ w1 = set_files (<[f := []]> (files w)) (disk_free w) w.
Proof.
  unfold fopen_wb. destruct (writable w f); [|discriminate]. now inversion 1.
Qed.

Lemma fwrite_Ok f bs w u w1 :
  fwrite f bs w = (Ok u, w1) ->
  exists free, w1 = set_files (<[f := default [] (files w !! f) ++ bs]> (files w)) free w
               /\ forall n, disk_has n w1 -> disk_has (Z.of_nat (length bs) + n) w.
Proof.
  unfold fwrite, disk_has. destruct (disk_free w) as [free|] eqn:E.
  - destruct (length bs <=? free)%nat eqn:L; [|discriminate].
    inversion 1; subst. eexists; split; [reflexivity|]. simpl. 
    apply Nat.leb_le in L. intros n Hn. lia.
  - inversion 1; subst. eexists; split; [reflexivity|]. intros n _. exact I.
Qed.

Lemma fwrite_run f bs n w :
  0 <= n ->
  disk_has (Z.of_nat (length bs) + n) w ->
  exists free,
    let w1 := set_files (<[f := default [] (files w !! f) ++ bs]> (files w)) free w in
    fwrite f bs w = (Ok tt, w1) /\ disk_has n w1.
Proof.
  unfold fwrite, disk_has. destruct (disk_free w) as [free|] eqn:E; intros Hn H.
  - replace (length bs <=? free)%nat with true by (symmetry; apply Nat.leb_le; lia).
    eexists; split; [reflexivity|]. simpl. lia.
  - eexists; split; [reflexivity|]. simpl. auto.
Qed.

Lemma lift_Ok {A} (r : result A) w a w1 : lift r w = (Ok a, w1) -> r = Ok a /\ w1 = w.
Proof. unfold lift. now inversion 1. Qed.

Lemma struct_pack_Ok n v bs :
  struct_pack n v = Ok bs -> bs = le_bytes n v /\ 0 <= v < 256 ^ Z.of_nat n.
Proof.
  unfold struct_pack. destruct ((0 <=? v) && (v <? 256 ^ Z.of_nat n)) eqn:E; [|discriminate].
  apply andb_true_iff in E as [E1 E2]. apply Z.leb_le in E1. apply Z.ltb_lt in E2.
  inversion 1. auto.
Qed.

Lemma struct_pack_run n v :
  0 <= v < 256 ^ Z.of_nat n -> struct_pack n v = Ok (le_bytes n v).
Proof.
  intros H. unfold struct_pack.
  replace (0 <=? v) with true by (symmetry; apply Z.leb_le; lia).
  replace (v <? 256 ^ Z.of_nat n) with true by (symmetry; apply Z.ltb_lt; lia).
  reflexivity.
Qed.

Lemma fmt_chunk_data_Ok rate bs :
  fmt_chunk_data 1 1 rate (rate * 2 * 1) (1 * 2) 16 = Ok bs ->
  bs = le_bytes 2 1 ++ le_bytes 2 1 ++ le_bytes 4 rate ++ le_bytes 4 (rate * 2)
         ++ le_bytes 2 2 ++ le_bytes 2 16
  /\ 0 <= rate /\ rate * 2 < 4294967296.
Proof.
  unfold fmt_chunk_data.
  change (struct_pack 2 1) with (Ok (le_bytes 2 1)).
  change (struct_pack 2 (1 * 2)) with (Ok (le_bytes 2 2)).
  change (struct_pack 2 16) with (Ok (le_bytes 2 16)).
  destruct (struct_pack 4 rate) as [a|] eqn:E1; [|discriminate].
  destruct (struct_pack 4 (rate * 2 * 1)) as [b|] eqn:E2; [|discriminate].
  apply struct_pack_Ok in E1 as [-> H1]. apply struct_pack_Ok in E2 as [-> H2].
  inversion 1. rewrite Z.mul_1_r. split; [reflexivity|].
  change (256 ^ Z.of_nat 4) with 4294967296 in *. lia.
Qed.

Lemma fmt_chunk_data_run rate :
  0 <= rate -> rate * 2 < 4294967296 ->
  fmt_chunk_data 1 1 rate (rate * 2 * 1) (1 * 2) 16
  = Ok (le_bytes 2 1 ++ le_bytes 2 1 ++ le_bytes 4 rate ++ le_bytes 4 (rate * 2)
          ++ le_bytes 2 2 ++ le_bytes 2 16).
Proof.
  intros H1 H2. unfold fmt_chunk_data.
  rewrite (struct_pack_run 4 rate), (struct_pack_run 4 (rate * 2 * 1));
    change (256 ^ Z.of_nat 4) with 4294967296; try lia.
  rewrite Z.mul_1_r. reflexivity.
Qed.

Lemma fwrite_with_file_Ok f bs c free0 w u w1 :
  fwrite f bs (with_file f c free0 w) = (Ok u, w1) ->
  exists free, w1 = with_file f (c ++ bs) free w.
Proof.
  intros H. apply fwrite_Ok in H as (free & -> & _). exists free.
  unfold with_file. simpl. now rewrite lookup_insert_eq, insert_insert_eq.
Qed.

Lemma fwrite_with_file_run f bs c free0 w n :
  0 <= n ->
  disk_has (Z.of_nat (length bs) + n) (with_file f c free0 w) ->
  exists free, fwrite f bs (with_file f c free0 w) = (Ok tt, with_file f (c ++ bs) free w)
               /\ disk_has n (with_file f (c ++ bs) free w).
Proof.
  intros Hn H. destruct (fwrite_run f bs n _ Hn H) as (free & E & D). exists free.
  unfold with_file in *. simpl in *. rewrite lookup_insert_eq, insert_insert_eq in *. auto.
Qed.

Lemma ftell_with_file f c free w :
  ftell f (with_file f c free w) = (Ok (Z.of_nat (length c)), with_file f c free w).
Proof. unfold ftell, with_file. simpl. now rewrite lookup_insert_eq. Qed.

Lemma fpatch_with_file f pos bs c free w :
  fpatch f pos bs (with_file f c free w)
  = (Ok tt, with_file f (take pos c ++ bs ++ drop (pos + length bs) c) free w).
Proof. unfold fpatch, with_file. simpl. now rewrite lookup_insert_eq, insert_insert_eq. Qed.

Lemma read_int16_with_file l xs f c free w :
  heap w !! l = Some (Int16 xs) ->
  read_int16 l (with_file f c free w) = (Ok xs, with_file f c free w).
Proof. intros H. now apply read_int16_run. Qed.

Lemma length_unpatched rate nbytes data :
  length (unpatched rate nbytes data) = (44 + length data)%nat.
Proof. unfold unpatched. rewrite !length_app, !length_le_bytes. reflexivity. Qed.

Lemma patch_unpatched rate nbytes data :
  take 4 (unpatched rate nbytes data) ++ le_bytes 4 (36 + nbytes)
    ++ drop (4 + length (le_bytes 4 (36 + nbytes))) (unpatched rate nbytes data)
  = wav_header rate nbytes ++ data.
Proof.
  rewrite length_le_bytes. unfold unpatched, wav_header.
  rewrite <- !app_assoc. reflexivity.
Qed.

Lemma wavfile_write_Ok f rate l samples w w' :
  heap w !! l = Some (Int16 samples) ->
  wavfile_write f rate l w = (Ok tt, w') ->
  let nbytes := 2 * Z.of_nat (length samples) in
  (exists free, w' = with_file f (wav_header rate nbytes ++ int16_bytes samples) free w)
  /\ writable w f = true
  /\ 0 <= rate /\ rate * 2 < 4294967296
  /\ 36 + nbytes <= 4294967295.
Proof.
  intros Hl H nbytes. unfold wavfile_write in H.
  apply bind_Ok in H as (u & w1 & H1 & H).
  apply fopen_wb_Ok in H1 as [Hw ->]. fold (with_file f [] (disk_free w) w) in H.
  rewrite (bind_Ok_run _ _ _ _ _ (read_int16_with_file _ _ _ _ _ _ Hl)) in H.
  apply bind_Ok in H as (fmt & w1 & H1 & H).
  apply lift_Ok in H1 as [H1 ->]. apply fmt_chunk_data_Ok in H1 as (-> & Hr1 & Hr2).
  apply bind_Ok in H as (len_fmt & w1 & H1 & H).
  apply lift_Ok in H1 as [H1 ->]. apply struct_pack_Ok in H1 as [-> _].
  rewrite !length_app, !length_le_bytes in H.
  change (le_bytes 4 (Z.of_nat (2 + (2 + (4 + (4 + (2 + 2))))))) with (le_bytes 4 16) in H.
  fold nbytes in H.
  match type of H with (if ?c then _ else _) _ = _ => destruct c eqn:Hsz end;
    [discriminate|].
  apply Z.ltb_ge in Hsz. simpl length in Hsz.
  apply bind_Ok in H as (u1 & w1 & H1 & H).
  apply fwrite_with_file_Ok in H1 as (free1 & ->).
  apply bind_Ok in H as (u2 & w1 & H1 & H).
  apply fwrite_with_file_Ok in H1 as (free2 & ->).
  apply bind_Ok in H as (len_data & w1 & H1 & H).
  apply lift_Ok in H1 as [H1 ->]. apply struct_pack_Ok in H1 as [-> _].
  apply bind_Ok in H as (u3 & w1 & H1 & H).
  apply fwrite_with_file_Ok in H1 as (free3 & ->).
  apply bind_Ok in H as (u4 & w1 & H1 & H).
  apply fwrite_with_file_Ok in H1 as (free4 & ->).
  rewrite app_nil_l in H. fold (unpatched rate nbytes (int16_bytes samples)) in H.
  rewrite (bind_Ok_run _ _ _ _ _ (ftell_with_file _ _ _ _)) in H.
  rewrite length_unpatched, length_int16_bytes in H.
  apply bind_Ok in H as (riff & w1 & H1 & H).
  apply lift_Ok in H1 as [H1 ->]. apply struct_pack_Ok in H1 as [-> _].
  replace (Z.of_nat (44 + 2 * length samples) - 8) with (36 + nbytes) in H
    by (unfold nbytes; lia).
  rewrite fpatch_with_file, patch_unpatched in H.
  inversion H; subst. repeat split; eauto; lia.
Qed.

Lemma bind_lift_run {A B} (r : result A) (k : A -> M B) a w :
  r = Ok a -> (lift r ≫= k) w = k a w.
Proof. intros ->. reflexivity. Qed.

Lemma wavfile_write_run f rate l samples w :
  heap w !! l = Some (Int16 samples) ->
  writable w f = true ->
  0 <= rate -> rate * 2 < 4294967296 ->
  36 + 2 * Z.of_nat (length samples) <= 4294967295 ->
  disk_has (44 + 2 * Z.of_nat (length samples)) w ->
  exists free,
    wavfile_write f rate l w
    = (Ok tt, with_file f (wav_header rate (2 * Z.of_nat (length samples))
                             ++ int16_bytes samples) free w).
Proof.
  intros Hl Hw Hr1 Hr2 Hsz Hd. set (nbytes := 2 * Z.of_nat (length samples)) in *.
  unfold wavfile_write.
  rewrite (bind_Ok_run _ _ w tt (with_file f [] (disk_free w) w))
    by (unfold fopen_wb; now rewrite Hw).
  rewrite (bind_Ok_run _ _ _ _ _ (read_int16_with_file _ _ _ _ _ _ Hl)).
  rewrite (bind_lift_run _ _ _ _ (fmt_chunk_data_run rate Hr1 Hr2)).
  rewrite !length_app, !length_le_bytes.
  rewrite (bind_lift_run (struct_pack 4 _) _ (le_bytes 4 16)) by reflexivity.
  fold nbytes.
  match goal with |- context [if ?c then _ else _] =>
    replace c with false by (symmetry; apply Z.ltb_ge; simpl length; lia) end.
  assert (D0 : disk_has (36 + (4 + (4 + (2 * Z.of_nat (length samples) + 0))))
                        (with_file f [] (disk_free w) w)).
  { unfold disk_has in *. simpl. destruct (disk_free w); [lia|auto]. }
  edestruct (fwrite_with_file_run f) as (free1 & E1 & D1);
    [ | | rewrite (bind_Ok_run _ _ _ _ _ E1) ].
  2: { rewrite !length_app, !length_le_bytes. exact D0. }
  { lia. }
  edestruct (fwrite_with_file_run f (tag "data")) as (free2 & E2 & D2);
    [ | exact D1 | rewrite (bind_Ok_run _ _ _ _ _ E2) ]; [lia|].
  rewrite (bind_lift_run (struct_pack 4 nbytes) _ (le_bytes 4 nbytes)).
  2: { apply struct_pack_run.
       change (256 ^ Z.of_nat 4) with 4294967296. unfold nbytes in *; lia. }
  edestruct (fwrite_with_file_run f (le_bytes 4 nbytes)) as (free3 & E3 & D3);
    [ | rewrite length_le_bytes; exact D2 | rewrite (bind_Ok_run _ _ _ _ _ E3) ]; [lia|].
  edestruct (fwrite_with_file_run f (int16_bytes samples)) as (free4 & E4 & D4);
    [ | rewrite length_int16_bytes, Nat2Z.inj_mul; exact D3
      | rewrite (bind_Ok_run _ _ _ _ _ E4) ]; [lia|].
  rewrite app_nil_l. fold (unpatched rate nbytes (int16_bytes samples)).
  rewrite (bind_Ok_run _ _ _ _ _ (ftell_with_file _ _ _ _)).
  rewrite length_unpatched, length_int16_bytes.
  replace (Z.of_nat (44 + 2 * length samples) - 8) with (36 + nbytes)
    by (unfold nbytes; lia).
  rewrite (bind_lift_run (struct_pack 4 (36 + nbytes)) _ (le_bytes 4 (36 + nbytes))).
  2: { apply struct_pack_run.
       change (256 ^ Z.of_nat 4) with 4294967296. unfold nbytes in *; lia. }
  rewrite fpatch_with_file, patch_unpatched. eauto.
Qed.

Lemma length_wav_header rate nbytes : length (wav_header rate nbytes) = 44%nat.
Proof. unfold wav_header. rewrite !length_app, !length_le_bytes. reflexivity. Qed.

Lemma subchunk2_size_wav rate nbytes data :
  0 <= nbytes < 4294967296 ->
  subchunk2_size (wav_header rate nbytes ++ data) = nbytes.
Proof.
  intros H. unfold subchunk2_size, field32.
  change (take 4 (drop 40 (wav_header rate nbytes ++ data))) with (le_bytes 4 nbytes).
  now apply le_decode_le_bytes_small.
Qed.

Lemma chunk_size_wav rate nbytes data :
  0 <= 36 + nbytes < 4294967296 ->
  chunk_size (wav_header rate nbytes ++ data) = 36 + nbytes.
Proof.
  intros H. unfold chunk_size, field32.
  change (take 4 (drop 4 (wav_header rate nbytes ++ data))) with (le_bytes 4 (36 + nbytes)).
  now apply le_decode_le_bytes_small.
Qed.

Lemma save_wav_Ok w b xs sr f w' :
  heap w !! b = Some (Float32 xs) ->
  save_wav b sr f w = (Ok tt, w') ->
  files w' !! f
    = Some (wav_header sr (2 * Z.of_nat (length xs))
              ++ int16_bytes (map (quantize (invalid_cast w)) xs))
  /\ writable w f = true
  /\ 0 <= sr /\ sr * 2 < 4294967296
  /\ 36 + 2 * Z.of_nat (length xs) <= 4294967295.
Proof.
  intros Hb H. unfold save_wav in H.
  destruct (quantize_buffer_run w b xs Hb) as (l & h & Hq & Hl & _).
  rewrite (bind_Ok_run _ _ _ _ _ Hq) in H.
  apply bind_Ok in H as (u & w1 & H1 & H).
  destruct u.
  pose proof (wavfile_write_Ok f sr l _ (set_heap h w) _ Hl H1)
    as ((free & ->) & Hw & Hr1 & Hr2 & Hsz).
  rewrite length_map in *.
  inversion H; subst; simpl. rewrite lookup_insert_eq. auto.
Qed.

Lemma save_wav_run w b xs sr f :
  heap w !! b = Some (Float32 xs) ->
  writable w f = true ->
  0 <= sr -> sr * 2 < 4294967296 ->
  36 + 2 * Z.of_nat (length xs) <= 4294967295 ->
  disk_has (44 + 2 * Z.of_nat (length xs)) w ->
  exists w', save_wav b sr f w = (Ok tt, w').
Proof.
  intros Hb Hw Hr1 Hr2 Hsz Hd. unfold save_wav.
  destruct (quantize_buffer_run w b xs Hb) as (l & h & Hq & Hl & _).
  rewrite (bind_Ok_run _ _ _ _ _ Hq).
  destruct (wavfile_write_run f sr l _ (set_heap h w) Hl) as (free & E);
    rewrite ?length_map; auto.
  rewrite (bind_Ok_run _ _ _ _ _ E). eexists. reflexivity.
Qed.

(** C4, counterexample.  For a buffer of one sample the data is 2 bytes long
    and the subchunk2 size is 2, but the chunk size stored in the header is
    38. *)
Lemma chunk_size_counterexample :
  exists w' file,
    save_wav 0 48000 "a.wav" (world_with_buffer [IEEE.B32.of_Z 0]) = (Ok tt, w')
    /\ files w' !! "a.wav" = Some file
    /\ length (drop 44 file) = 2%nat
    /\ subchunk2_size file = 2
    /\ chunk_size file = 38
    /\ chunk_size file <> Z.of_nat (length (drop 44 file)).
Proof.
  do 2 eexists. split; [vm_compute; reflexivity|].
  split; [vm_compute; reflexivity|].
  repeat split; try (vm_compute; reflexivity). vm_compute. discriminate.
Qed.

(** C4, amended.  For every buffer of N samples that [save_wav] writes, the
    file is a header of 44 bytes followed by the 2*N bytes of the quantized
    samples, little-endian signed 16-bit; the subchunk2 size stored in the
    header equals the data length 2*N, and the chunk size equals 36 + 2*N,
    the number of bytes that follow it.  In particular for sample_rate =
    48000 and duration = 1.0 the file is 44 header bytes followed by 96000
    data bytes. *)
Theorem wav_header_sizes :
  (forall (w : world) (b : nat) (xs : list spec_float) (sample_rate : Z)
          (filename : string) (w' : world),
      heap w !! b = Some (Float32 xs) ->
      save_wav b sample_rate filename w = (Ok tt, w') ->
      exists header data,
        files w' !! filename = Some (header ++ data)
        /\ length header = 44%nat
        /\ length data = (2 * length xs)%nat
        /\ int16_samples data = map (quantize (invalid_cast w)) xs
        /\ subchunk2_size (header ++ data) = Z.of_nat (length data)
        /\ chunk_size (header ++ data) = 36 + Z.of_nat (length data))
  /\ (forall (w : world) (amplitude : spec_float) (filename : string),
         writable w filename = true -> disk_has 96044 w ->
         exists b w1 w2 header data,
           generate_white_noise (IEEE.B64.of_Z 1) 48000 amplitude w = (Ok b, w1)
           /\ save_wav b 48000 filename w1 = (Ok tt, w2)
           /\ files w2 !! filename = Some (header ++ data)
           /\ length header = 44%nat
           /\ Z.of_nat (length data) = 96000).
Proof.
  split.
  - intros w b xs sr f w' Hb H.
    destruct (save_wav_Ok _ _ _ _ _ _ Hb H) as (Hf & _ & _ & _ & Hsz).
    exists (wav_header sr (2 * Z.of_nat (length xs))),
           (int16_bytes (map (quantize (invalid_cast w)) xs)).
    rewrite length_int16_bytes, length_map.
    split; [exact Hf|]. split; [apply length_wav_header|]. split; [reflexivity|]. split.
    + apply int16_samples_bytes, List.Forall_map, Forall_forall.
      intros x _. apply np_astype_int16_range.
    + replace (Z.of_nat (2 * length xs)) with (2 * Z.of_nat (length xs)) by lia.
      split; [apply subchunk2_size_wav | apply chunk_size_wav]; lia.
  - intros w amp f Hw Hd.
    destruct (generate_run (IEEE.B64.of_Z 1) 48000 amp w (IEEE.B64.of_Z 48000) 48000)
      as (b & xs & w1 & Hg & Hb & Hlen & _ & Hfiles & Hwr & Hfree);
      [vm_compute; reflexivity | vm_compute; reflexivity | lia | vm_compute; discriminate
      | apply granted_small; lia |].
    destruct (save_wav_run w1 b xs 48000 f Hb) as (w2 & Hs);
      rewrite ?Hlen, ?Hwr; try lia; auto.
    { unfold disk_has in *. now rewrite Hfree. }
    destruct (save_wav_Ok _ _ _ _ _ _ Hb Hs) as (Hf & _).
    exists b, w1, w2, (wav_header 48000 (2 * Z.of_nat (length xs))),
           (int16_bytes (map (quantize (invalid_cast w1)) xs)).
    rewrite length_int16_bytes, length_map, length_wav_header.
    repeat split; auto. lia.
Qed.

Lemma wav_header_sizes_witness :
  exists b w1 w2 header data,
    generate_white_noise (IEEE.B64.of_Z 1) 48000 (IEEE.B64.of_Z_exp 1 (-2)) empty_world
      = (Ok b, w1)
    /\ save_wav b 48000 "white_noise.wav" w1 = (Ok tt, w2)
    /\ files w2 !! "white_noise.wav" = Some (header ++ data)
    /\ length header = 44%nat
    /\ Z.of_nat (length data) = 96000.
Proof.
  apply (proj2 wav_header_sizes empty_world (IEEE.B64.of_Z_exp 1 (-2)) "white_noise.wav").
  - reflexivity.
  - exact I.
Defined.

(** C5, counterexample.  When the storage runs out while the samples are
    written, [save_wav] raises [OSError], the file written earlier under the
    same path is lost, and a file of 46 bytes with a zero chunk size is
    left. *)
Lemma partial_file_counterexample :
  exists w' partial,
    save_wav 0 48000 "a.wav" nearly_full_world = (Raise OSError, w')
    /\ files nearly_full_world !! "a.wav" = Some [Byte.x01; Byte.x02]
    /\ files w' !! "a.wav" = Some partial
    /\ length partial = 46%nat
    /\ chunk_size partial = 0
    /\ files w' !! "a.wav" <> files nearly_full_world !! "a.wav".
Proof.
  do 2 eexists. split; [vm_compute; reflexivity|].
  split; [vm_compute; reflexivity|].
  split; [vm_compute; reflexivity|].
  split; [vm_compute; reflexivity|].
  split; [vm_compute; reflexivity|].
  vm_compute. discriminate.
Qed.

Lemma save_wav_unwritable w b xs sr f :
  heap w !! b = Some (Float32 xs) -> writable w f = false ->
  exists w', save_wav b sr f w = (Raise OSError, w')
             /\ files w' = files w /\ disk_free w' = disk_free w.
Proof.
  intros Hb Hw. unfold save_wav.
  destruct (quantize_buffer_run w b xs Hb) as (l & h & Hq & Hl & _).
  rewrite (bind_Ok_run _ _ _ _ _ Hq).
  exists (set_heap h w). split; [|split; reflexivity].
  apply bind_Raise_run. unfold wavfile_write. apply bind_Raise_run.
  unfold fopen_wb. simpl. now rewrite Hw.
Qed.

Lemma frame_buffer f w w' b a : frame f w w' -> heap w !! b = Some a -> heap w' !! b = Some a.
Proof. intros [H _] Hb. eapply lookup_weaken; eauto. Qed.

(** C5, amended.  For every write to a path that cannot be opened for
    writing, [save_wav] lets the [OSError] reach the caller and no file is
    created or changed; on every failure the buffer and the files under the
    other paths are unchanged. *)
Theorem save_wav_failure (w : world) (b : nat) (xs : list spec_float)
    (sample_rate : Z) (filename : string) :
  heap w !! b = Some (Float32 xs) ->
  (writable w filename = false ->
   exists w', save_wav b sample_rate filename w = (Raise OSError, w')
              /\ files w' = files w /\ disk_free w' = disk_free w)
  /\ (forall e w', save_wav b sample_rate filename w = (Raise e, w') ->
                   heap w' !! b = Some (Float32 xs)
                   /\ forall p, p <> filename -> files w' !! p = files w !! p).
Proof.
  intros Hb. split.
  - intros Hw. eapply save_wav_unwritable; eauto.
  - intros e w' H. pose proof (save_wav_frame b sample_rate filename w) as F.
    rewrite H in F. simpl in F. split.
    + eapply frame_buffer; eauto.
    + apply F.
Qed.

Lemma save_wav_failure_witness :
  exists w', save_wav 0 48000 "/nonexistent/dir/x.wav" (world_with_buffer [IEEE.B32.of_Z 1])
             = (Raise OSError, w')
             /\ files w' = files (world_with_buffer [IEEE.B32.of_Z 1])
             /\ disk_free w' = disk_free (world_with_buffer [IEEE.B32.of_Z 1]).
Proof.
  apply (proj1 (save_wav_failure (world_with_buffer [IEEE.B32.of_Z 1]) 0%nat
                  [IEEE.B32.of_Z 1] 48000 "/nonexistent/dir/x.wav"
                  ltac:(vm_compute; reflexivity))).
  reflexivity.
Defined.

(** C7.  Each of the three consumers of a buffer, [save_wav],
    [plot_signal_and_spectrum] and [play_audio], leaves it unchanged: after
    the call, whatever its outcome, the buffer holds the same samples. *)
Theorem consumers_keep_buffer (w : world) (b : nat) (xs : list spec_float)
    (sample_rate : Z) (filename : string) :
  heap w !! b = Some (Float32 xs) ->
  heap (snd (save_wav b sample_rate filename w)) !! b = Some (Float32 xs)
  /\ heap (snd (plot_signal_and_spectrum b sample_rate w)) !! b = Some (Float32 xs)
  /\ heap (snd (play_audio b sample_rate w)) !! b = Some (Float32 xs).
Proof.
  intros Hb. repeat split.
  - eapply frame_buffer; [apply save_wav_frame | exact Hb].
  - eapply (frame_buffer filename); [apply plot_frame | exact Hb].
  - eapply (frame_buffer filename); [apply play_audio_frame | exact Hb].
Qed.

Lemma consumers_keep_buffer_witness :
  let w := world_with_buffer [IEEE.B32.of_Z_exp 1 (-2); IEEE.B32.of_Z_exp (-3) (-1)] in
  let a := Float32 [IEEE.B32.of_Z_exp 1 (-2); IEEE.B32.of_Z_exp (-3) (-1)] in
  heap (snd (save_wav 0 48000 "white_noise.wav" w)) !! 0%nat = Some a
  /\ heap (snd (plot_signal_and_spectrum 0 48000 w)) !! 0%nat = Some a
  /\ heap (snd (play_audio 0 48000 w)) !! 0%nat = Some a.
Proof.
  apply (consumers_keep_buffer
           (world_with_buffer [IEEE.B32.of_Z_exp 1 (-2); IEEE.B32.of_Z_exp (-3) (-1)]) 0%nat).
  vm_compute; reflexivity.
Defined.

(** In-place operations do change an array: the model can tell. *)
Example imul_mutates :
  heap (snd (ndarray_imul 0 (IEEE.B64.of_Z 2) (world_with_buffer [IEEE.B32.of_Z 1]))) !! 0%nat
  = Some (Float32 [IEEE.B32.of_Z 2]).
Proof. vm_compute. reflexivity. Qed.

(** ** Playback *)

Lemma drain_app q : forall e, drain q e = e ++ q.
Proof.
  induction q as [|x q IH]; intros e; simpl.
  - now rewrite app_nil_r.
  - rewrite IH, <- app_assoc. reflexivity.
Qed.

Lemma play_audio_run w b xs sr :
  heap w !! b = Some (Float32 xs) -> device_ok w = true ->
  play_audio b sr w
  = (Ok tt,
     set_console (console w ++ ["[INFO] Riproduzione audio in corso..."]
                            ++ ["[OK] Riproduzione terminata."])
       (set_audio {| queued := []; emitted := emitted (audio w) ++ xs |} w)).
Proof.
  intros Hb Hd.
  unfold play_audio, sd_play, print, read_frames, start_stream, sd_wait,
    mbind, M_bind, bind.
  simpl. rewrite Hb. simpl. rewrite Hd. simpl. rewrite drain_app, <- app_assoc. reflexivity.
Qed.

Lemma play_audio_no_device w b xs sr :
  heap w !! b = Some (Float32 xs) -> device_ok w = false ->
  play_audio b sr w
  = (Raise PortAudioError,
     set_console (console w ++ ["[INFO] Riproduzione audio in corso..."]) w).
Proof.
  intros Hb Hd.
  unfold play_audio, sd_play, print, read_frames, start_stream, mbind, M_bind, bind.
  simpl. rewrite Hb. simpl. rewrite Hd. reflexivity.
Qed.

(** C9.  [play_audio] returns only after the whole buffer has been played:
    with a device it returns normally, the queue of the stream is then empty
    and every sample of the buffer has reached the device, in order; without
    a device it does not return normally but raises. *)
Theorem play_audio_blocks (w : world) (b : nat) (xs : list spec_float) (sample_rate : Z) :
  heap w !! b = Some (Float32 xs) ->
  (device_ok w = true ->
   exists w', play_audio b sample_rate w = (Ok tt, w')
              /\ queued (audio w') = []
              /\ emitted (audio w') = emitted (audio w) ++ xs)
  /\ (forall w', play_audio b sample_rate w = (Ok tt, w') ->
                 queued (audio w') = []
                 /\ emitted (audio w') = emitted (audio w) ++ xs)
  /\ (device_ok w = false ->
      exists w', play_audio b sample_rate w = (Raise PortAudioError, w')
                 /\ audio w' = audio w).
Proof.
  intros Hb. split; [|split].
  - intros Hd. rewrite (play_audio_run _ _ _ _ Hb Hd). eexists. split; [reflexivity|]. auto.
  - intros w' H. destruct (device_ok w) eqn:Hd.
    + rewrite (play_audio_run _ _ _ _ Hb Hd) in H. inversion H. auto.
    + rewrite (play_audio_no_device _ _ _ _ Hb Hd) in H. discriminate.
  - intros Hd. rewrite (play_audio_no_device _ _ _ _ Hb Hd). eexists. split; reflexivity.
Qed.

Lemma play_audio_blocks_witness :
  let xs := [IEEE.B32.of_Z_exp 1 (-2); IEEE.B32.of_Z_exp (-1) (-3)] in
  exists w',
    play_audio 0 48000 (world_with_buffer xs) = (Ok tt, w')
    /\ queued (audio w') = []
    /\ emitted (audio w') = emitted (audio (world_with_buffer xs)) ++ xs.
Proof.
  apply (proj1 (play_audio_blocks
                  (world_with_buffer [IEEE.B32.of_Z_exp 1 (-2); IEEE.B32.of_Z_exp (-1) (-3)])
                  0%nat [IEEE.B32.of_Z_exp 1 (-2); IEEE.B32.of_Z_exp (-1) (-3)] 48000
                  ltac:(vm_compute; reflexivity))).
  reflexivity.
Defined.

(** Without [blocking=True] the call returns while the whole buffer is still
    queued; the first script then waits with [sd.wait()], which comes to the
    same as [play_audio] for the device. *)
Lemma non_blocking_play_returns_early w b xs sr :
  heap w !! b = Some (Float32 xs) -> device_ok w = true ->
  exists w', sd_play b sr false w = (Ok tt, w')
             /\ queued (audio w') = xs /\ emitted (audio w') = emitted (audio w).
Proof.
  intros Hb Hd. unfold sd_play, read_frames, start_stream, mbind, M_bind, bind.
  rewrite Hb. simpl. rewrite Hd. eexists. split; [reflexivity|]. auto.
Qed.

Lemma script_playback_waits w b xs sr :
  heap w !! b = Some (Float32 xs) -> device_ok w = true ->
  exists w', script_playback b sr w = (Ok tt, w')
             /\ queued (audio w') = [] /\ emitted (audio w') = emitted (audio w) ++ xs.
Proof.
  intros Hb Hd.
  unfold script_playback, sd_play, read_frames, start_stream, sd_wait, mbind, M_bind, bind.
  rewrite Hb. simpl. rewrite Hd. simpl.
  eexists. split; [reflexivity|]. simpl. now rewrite drain_app.
Qed.

(** ** The spectrum *)

Lemma alloc_spec a w :
  exists l w', alloc a w = (Ok l, w')
               /\ heap w' !! l = Some a /\ heap w ⊆ heap w' /\ figures w' = figures w.
Proof.
  destruct (alloc_run a w) as (l & E & F).
  exists l, (set_heap (<[l := a]> (heap w)) w). split; [exact E|]. split; [|split].
  - apply lookup_insert_eq.
  - apply insert_subseteq, F.
  - reflexivity.
Qed.

(** An allocation changes neither the transform nor the modulus. *)
Lemma alloc_oracles a w l w' :
  alloc a w = (Ok l, w') -> rfft_coeff w' = rfft_coeff w /\ complex_abs w' = complex_abs w.
Proof. unfold alloc. intros [= _ <-]. split; reflexivity. Qed.

Lemma py_float_div_Ok x y : ~ is_zero y -> py_float_div x y = Ok (IEEE.B64.div x y).
Proof. destruct y; simpl; intros H; try reflexivity. now destruct H. Qed.

Lemma py_one_over_Ok sr :
  sr <> 0 -> IEEE.is_infinity (IEEE.B64.of_Z sr) = false ->
  py_one_over sr = Ok (IEEE.B64.div (IEEE.B64.of_Z 1) (IEEE.B64.of_Z sr)).
Proof.
  intros Hsr Hinf. unfold py_one_over. rewrite Hinf.
  now rewrite (proj2 (Z.eqb_neq sr 0) Hsr).
Qed.

(** The figure [plot_signal_and_spectrum] shows. *)
Lemma plot_run w b xs sr :
  heap w !! b = Some (Float32 xs) -> xs <> [] -> rate_accepted (length xs) sr ->
  exists w',
    plot_signal_and_spectrum b sr w = (Ok tt, w')
    /\ figures w'
       = figures w
         ++ [ {| fig_time := map (fun v => IEEE.B64.div (IEEE.B64.of_Z v) (IEEE.B64.of_Z sr))
                                 (map Z.of_nat (seq 0 (length xs)));
                 fig_signal := xs;
                 fig_freqs := map (fun k => IEEE.B64.mul (IEEE.B64.of_Z (Z.of_nat k))
                                                          (bin_width (length xs) sr))
                                  (seq 0 (length xs / 2 + 1)%nat);
                 fig_magnitude := map (complex_abs w)
                                      (map (rfft_coeff w xs)
                                           (seq 0 (length xs / 2 + 1)%nat)) |} ].
Proof.
  intros Hb Hne (Hsr & Hinf & Hnd).
  set (ts := map (fun v => IEEE.B64.div (IEEE.B64.of_Z v) (IEEE.B64.of_Z sr))
                 (map Z.of_nat (seq 0 (length xs)))).
  set (fs := map (fun k => IEEE.B64.mul (IEEE.B64.of_Z (Z.of_nat k))
                                        (bin_width (length xs) sr))
                 (seq 0 (length xs / 2 + 1)%nat)).
  set (zs := map (rfft_coeff w xs) (seq 0 (length xs / 2 + 1)%nat)).
  destruct (alloc_spec (Int64 (map Z.of_nat (seq 0 (length xs)))) w)
    as (l1 & w1 & E1 & L1 & S1 & F1).
  destruct (alloc_spec (Float64 ts) w1) as (l2 & w2 & E2 & L2 & S2 & F2).
  destruct (alloc_spec (Complex zs) w2) as (l3 & w3 & E3 & L3 & S3 & F3).
  destruct (alloc_spec (Float64 fs) w3) as (l4 & w4 & E4 & L4 & S4 & F4).
  destruct (alloc_spec (Moduli (map (complex_abs w) zs)) w4)
    as (l5 & w5 & E5 & L5 & S5 & F5).
  destruct (alloc_oracles _ _ _ _ E1) as [R1 A1].
  destruct (alloc_oracles _ _ _ _ E2) as [R2 A2].
  destruct (alloc_oracles _ _ _ _ E3) as [R3 A3].
  destruct (alloc_oracles _ _ _ _ E4) as [R4 A4].
  exists (set_figures (figures w5 ++
            [ {| fig_time := ts; fig_signal := xs; fig_freqs := fs;
                 fig_magnitude := map (complex_abs w) zs |} ]) w5).
  split; [|simpl; now rewrite F5, F4, F3, F2, F1].
  unfold plot_signal_and_spectrum.
  rewrite (bind_Ok_run _ _ _ _ _ (read_float32_run _ _ _ Hb)).
  rewrite (bind_Ok_run _ _ _ _ _ E1).
  rewrite (bind_Ok_run _ _ w1 l2 w2) by (unfold ndarray_truediv; rewrite L1; exact E2).
  assert (Hb2 : heap w2 !! b = Some (Float32 xs))
    by (eapply lookup_weaken; [eapply lookup_weaken; [exact Hb|exact S1]|exact S2]).
  rewrite (bind_Ok_run _ _ w2 l3 w3).
  2: { unfold np_fft_rfft. rewrite (bind_Ok_run _ _ _ _ _ (read_float32_run _ _ _ Hb2)).
       destruct xs; [contradiction|]. cbn [length Nat.eqb]. rewrite R2, R1. exact E3. }
  rewrite (bind_lift_run (py_one_over sr) _ _ _ (py_one_over_Ok sr Hsr Hinf)).
  rewrite (bind_Ok_run _ _ w3 l4 w4).
  2: { unfold np_fft_rfftfreq.
       rewrite (bind_lift_run _ _ _ _ (py_float_div_Ok _ _ Hnd)). exact E4. }
  assert (L3' : heap w4 !! l3 = Some (Complex zs))
    by (eapply lookup_weaken; [exact L3|exact S4]).
  rewrite (bind_Ok_run _ _ w4 l5 w5).
  2: { unfold np_abs. rewrite L3', A4, A3, A2, A1. exact E5. }
  unfold plt_show.
  rewrite (lookup_weaken _ _ _ _ L2 (transitivity S3 (transitivity S4 S5))).
  rewrite (lookup_weaken _ _ _ _ Hb2 (transitivity S3 (transitivity S4 S5))).
  rewrite (lookup_weaken _ _ _ _ L4 S5), L5.
  reflexivity.
Qed.




(** * Further properties *)

(** ** The generator *)



(** X2.  The buffer [generate_white_noise] returns holds the next [n] draws
    of the generator in their order, each rounded to float32 and then
    multiplied in float32 by the amplitude rounded to float32; the draws are
    used up, so that the next call starts at draw [n]. *)
Theorem generate_uses_next_draws (duration_sec : spec_float) (sample_rate : Z)
    (amplitude : spec_float) (w : world) (b : nat) (w' : world) :
  generate_white_noise duration_sec sample_rate amplitude w = (Ok b, w') ->
  exists n,
    heap w' !! b
    = Some (Float32 (map (fun i => IEEE.B32.mul (IEEE.B32.of_float (gauss w i))
                                                 (IEEE.B32.of_float amplitude))
                         (seq 0 n)))
    /\ forall i, gauss w' i = gauss w (n + i)%nat.
Proof.
  intros H.
  destruct (generate_cases duration_sec sample_rate amplitude w)
    as [[e He]|(p & n & Hp & Hn & H0 & Hmax & Hg)].
  - rewrite He in H. discriminate.
  - destruct (generate_shape _ _ amplitude w _ _ Hp Hn H0 Hmax Hg) as (b' & h & H' & Hb & _).
    rewrite H' in H. inversion H; subst. exists (Z.to_nat n). split; [exact Hb|].
    reflexivity.
Qed.

Lemma generate_uses_next_draws_witness :
  exists n,
    heap (snd (generate_white_noise (IEEE.B64.of_Z 1) 3 (IEEE.B64.of_Z 1) empty_world))
      !! 1%nat
    = Some (Float32 (map (fun i => IEEE.B32.mul (IEEE.B32.of_float (gauss empty_world i))
                                                 (IEEE.B32.of_float (IEEE.B64.of_Z 1)))
                         (seq 0 n)))
    /\ forall i,
        gauss (snd (generate_white_noise (IEEE.B64.of_Z 1) 3 (IEEE.B64.of_Z 1) empty_world)) i
        = gauss empty_world (n + i)%nat.
Proof.
  apply (generate_uses_next_draws (IEEE.B64.of_Z 1) 3 (IEEE.B64.of_Z 1) empty_world).
  vm_compute. reflexivity.
Defined.

Lemma Qtrunc_small_negative q : (-1 < q)%Q -> (q < 0)%Q -> Qtrunc q = 0.
Proof.
  destruct q as [n d]. unfold Qlt, Qtrunc. simpl. intros H1 H2.
  replace n with (- (- n)) by lia. rewrite Z.quot_opp_l by lia.
  rewrite Z.quot_small; lia.
Qed.

Lemma Qtrunc_le_minus_one q : (q <= -1)%Q -> Qtrunc q <= -1.
Proof.
  destruct q as [n d]. unfold Qle, Qtrunc. simpl. intros H.
  apply quot_le_upper; lia.
Qed.

(** X3.  A negative product of duration and sample rate: strictly between
    -1 and 0 it is truncated to 0 by [int] and the generator returns an empty
    buffer; at -1 or below [np.random.normal] raises [ValueError] and the
    world is unchanged. *)
Theorem generate_negative_product (duration_sec : spec_float) (sample_rate : Z)
    (amplitude : spec_float) (w : world) (p : spec_float) :
  py_float_mul_int duration_sec sample_rate = Ok p ->
  finite p ->
  ((-1 < IEEE.SF2Q p)%Q -> (IEEE.SF2Q p < 0)%Q ->
   exists b w',
     generate_white_noise duration_sec sample_rate amplitude w = (Ok b, w')
     /\ heap w' !! b = Some (Float32 []))
  /\ ((IEEE.SF2Q p <= -1)%Q ->
      generate_white_noise duration_sec sample_rate amplitude w = (Raise ValueError, w)).
Proof.
  intros Hp Hfin.
  assert (Hi : py_int p = Ok (Qtrunc (IEEE.SF2Q p))).
  { rewrite py_int_finite by exact Hfin. now rewrite (trunc_SF2Q p Hfin). }
  split.
  - intros H1 H2. rewrite (Qtrunc_small_negative _ H1 H2) in Hi.
    destruct (generate_shape _ _ amplitude w _ _ Hp Hi (Z.le_refl 0)) as (b & h & H & Hb & _);
      [vm_compute; discriminate | apply granted_small; lia |].
    exists b. eexists. split; [exact H|]. exact Hb.
  - intros H. eapply generate_negative; eauto.
    pose proof (Qtrunc_le_minus_one _ H). lia.
Qed.

Lemma generate_negative_product_witness :
  (exists b w',
     generate_white_noise (IEEE.B64.of_Z_exp 1 (-1)) (-1) (IEEE.B64.of_Z 1) empty_world
     = (Ok b, w')
     /\ heap w' !! b = Some (Float32 []))
  /\ generate_white_noise (IEEE.B64.of_Z 2) (-1) (IEEE.B64.of_Z 1) empty_world
     = (Raise ValueError, empty_world).
Proof.
  split.
  - apply (proj1 (generate_negative_product (IEEE.B64.of_Z_exp 1 (-1)) (-1) (IEEE.B64.of_Z 1)
                    empty_world (IEEE.B64.of_Z_exp (-1) (-1))
                    ltac:(vm_compute; reflexivity) ltac:(vm_compute; reflexivity)));
      vm_compute; reflexivity.
  - apply (proj2 (generate_negative_product (IEEE.B64.of_Z 2) (-1) (IEEE.B64.of_Z 1)
                    empty_world (IEEE.B64.of_Z (-2))
                    ltac:(vm_compute; reflexivity) ltac:(vm_compute; reflexivity))).
    vm_compute. discriminate.
Defined.

(** X4.  Parameters whose product is not a number: a sample rate too large
    for a float raises [OverflowError]; otherwise a NaN duration raises
    [ValueError], an infinite duration raises [OverflowError] when the sample
    rate is not 0 and [ValueError] when it is 0.  The world is unchanged. *)
Theorem generate_not_a_count (duration_sec : spec_float) (sample_rate : Z)
    (amplitude : spec_float) (w : world) :
  (IEEE.is_infinity (IEEE.B64.of_Z sample_rate) = true ->
   generate_white_noise duration_sec sample_rate amplitude w = (Raise OverflowError, w))
  /\ (IEEE.is_infinity (IEEE.B64.of_Z sample_rate) = false ->
      IEEE.is_nan duration_sec = true ->
      generate_white_noise duration_sec sample_rate amplitude w = (Raise ValueError, w))
  /\ (IEEE.is_infinity duration_sec = true ->
      (exists s m e, IEEE.B64.of_Z sample_rate = S754_finite s m e) ->
      generate_white_noise duration_sec sample_rate amplitude w = (Raise OverflowError, w))
  /\ (IEEE.is_infinity duration_sec = true -> sample_rate = 0 ->
      generate_white_noise duration_sec sample_rate amplitude w = (Raise ValueError, w)).
Proof.
  repeat split.
  - intros Hy. apply generate_raise_product. unfold py_float_mul_int. now rewrite Hy.
  - intros Hy Hd. eapply generate_raise_int.
    + unfold py_float_mul_int. rewrite Hy. reflexivity.
    + destruct duration_sec; try discriminate. reflexivity.
  - intros Hd (s & m & e & Hy). eapply generate_raise_int.
    + unfold py_float_mul_int. rewrite Hy. reflexivity.
    + destruct duration_sec; try discriminate. reflexivity.
  - intros Hd ->. eapply generate_raise_int.
    + reflexivity.
    + destruct duration_sec; try discriminate. reflexivity.
Qed.

Lemma generate_not_a_count_witness :
  generate_white_noise S754_nan 48000 (IEEE.B64.of_Z 1) empty_world
    = (Raise ValueError, empty_world)
  /\ generate_white_noise (S754_infinity false) 48000 (IEEE.B64.of_Z 1) empty_world
     = (Raise OverflowError, empty_world)
  /\ generate_white_noise (IEEE.B64.of_Z 1) (2 ^ 1024) (IEEE.B64.of_Z 1) empty_world
     = (Raise OverflowError, empty_world).
Proof.
  split; [|split].
  - apply (proj1 (proj2 (generate_not_a_count S754_nan 48000 (IEEE.B64.of_Z 1) empty_world)));
      vm_compute; reflexivity.
  - apply (proj1 (proj2 (proj2 (generate_not_a_count (S754_infinity false) 48000
                                  (IEEE.B64.of_Z 1) empty_world)))).
    + reflexivity.
    + vm_compute. eauto.
  - apply (proj1 (generate_not_a_count (IEEE.B64.of_Z 1) (2 ^ 1024) (IEEE.B64.of_Z 1)
                    empty_world)).
    vm_compute. reflexivity.
Defined.

(** ** The quantizer *)

Lemma binary_round_aux_opp prec emax s mx ex lx :
  binary_round_aux prec emax (negb s) mx ex lx
  = SFopp (binary_round_aux prec emax s mx ex lx).
Proof.
  unfold binary_round_aux.
  destruct (shr_fexp prec emax mx ex lx) as [mrs' e'].
  destruct (shr_fexp prec emax _ e' loc_Exact) as [mrs'' e''].
  destruct (shr_m mrs''); auto.
  destruct (e'' <=? emax - prec); auto.
Qed.

Lemma SFmul_opp_l prec emax x s m e :
  SFmul prec emax (SFopp x) (S754_finite s m e)
  = SFopp (SFmul prec emax x (S754_finite s m e)).
Proof.
  destruct x as [sx|sx| |sx mx ex]; simpl; auto;
    try (now destruct sx, s).
  rewrite <- binary_round_aux_opp. now destruct sx, s.
Qed.

Lemma SF2Q_opp x : IEEE.SF2Q (SFopp x) = Qopp (IEEE.SF2Q x).
Proof.
  destruct x as [s|s| |s m e]; auto. simpl.
  destruct e as [|p|p]; destruct s; unfold Qopp, inject_Z; simpl;
    try reflexivity; f_equal; lia.
Qed.

Lemma Qtrunc_opp q : Qtrunc (Qopp q) = - Qtrunc q.
Proof. destruct q as [n d]. unfold Qtrunc. simpl. apply Z.quot_opp_l. lia. Qed.

Lemma saturating_trunc_opp p :
  IEEE.is_nan p = false -> saturating_trunc (SFopp p) = - saturating_trunc p.
Proof.
  destruct p as [s|s| |s m e]; try discriminate; intros _.
  - reflexivity.
  - destruct s; reflexivity.
  - change (saturating_trunc (SFopp (S754_finite s m e)))
      with (clamp (- max_int16) max_int16 (Qtrunc (IEEE.SF2Q (SFopp (S754_finite s m e))))).
    change (saturating_trunc (S754_finite s m e))
      with (clamp (- max_int16) max_int16 (Qtrunc (IEEE.SF2Q (S754_finite s m e)))).
    rewrite SF2Q_opp, Qtrunc_opp. unfold clamp, max_int16.
    set (t := Qtrunc _). clearbody t. lia.
Qed.

(** X5.  The quantizer of [save_wav] is odd: the opposite of a sample is
    quantized to the opposite value, for every sample that is not NaN, the
    infinities included. *)
Theorem quantize_odd (invalid : spec_float -> Z) (x : spec_float) :
  not_nan x -> quantize invalid (SFopp x) = - quantize invalid x.
Proof.
  intros Hx.
  assert (Hx' : not_nan (SFopp x)) by (destruct x; auto; discriminate).
  rewrite !quantize_saturating by assumption.
  unfold np_multiply, IEEE.B32.mul. rewrite B32_of_Z_max, SFmul_opp_l.
  apply saturating_trunc_opp.
  rewrite SFmul_finite_not_nan. exact Hx.
Qed.

Lemma quantize_odd_witness :
  quantize (fun _ => 0) (SFopp (IEEE.B32.of_Z_exp 3 (-3)))
  = - quantize (fun _ => 0) (IEEE.B32.of_Z_exp 3 (-3)).
Proof.
  apply (quantize_odd (fun _ => 0) (IEEE.B32.of_Z_exp 3 (-3))).
  vm_compute. reflexivity.
Defined.

(** ** Saving *)

Lemma quiet_refl w : quiet w w.
Proof. repeat split. Qed.

Lemma quiet_trans w1 w2 w3 : quiet w1 w2 -> quiet w2 w3 -> quiet w1 w3.
Proof. intros (A1 & B1 & C1) (A2 & B2 & C2). repeat split; congruence. Qed.

Ltac quiet_cases :=
  intros ?w;
  repeat match goal with
         | |- context [match ?x with _ => _ end] => destruct x
         end;
  repeat split.

Lemma alloc_quiet a : preserves quiet (alloc a).
Proof. unfold alloc. quiet_cases. Qed.

Lemma read_float32_quiet l : preserves quiet (read_float32 l).
Proof. unfold read_float32. quiet_cases. Qed.

Lemma read_int16_quiet l : preserves quiet (read_int16 l).
Proof. unfold read_int16. quiet_cases. Qed.

Lemma platform_cast_quiet : preserves quiet platform_cast.
Proof. unfold platform_cast. quiet_cases. Qed.

Lemma fopen_wb_quiet f : preserves quiet (fopen_wb f).
Proof. unfold fopen_wb. quiet_cases. Qed.

Lemma fwrite_quiet f bs : preserves quiet (fwrite f bs).
Proof. unfold fwrite. quiet_cases. Qed.

Lemma ftell_quiet f : preserves quiet (ftell f).
Proof. unfold ftell. quiet_cases. Qed.

Lemma fpatch_quiet f pos bs : preserves quiet (fpatch f pos bs).
Proof. unfold fpatch. quiet_cases. Qed.

Create HintDb quiet discriminated.
#[export] Hint Resolve quiet_refl alloc_quiet read_float32_quiet read_int16_quiet
  platform_cast_quiet fopen_wb_quiet fwrite_quiet ftell_quiet fpatch_quiet : quiet.

Ltac quiet :=
  repeat first
    [ apply (preserves_bind quiet quiet_trans); [ | intros ? ]
    | apply preserves_if
    | apply (preserves_ret quiet quiet_refl)
    | apply (preserves_raise quiet quiet_refl)
    | apply (preserves_lift quiet quiet_refl)
    | solve [ auto with quiet ] ].

Lemma quantize_buffer_quiet b : preserves quiet (quantize_buffer b).
Proof. unfold quantize_buffer, ndarray_mul, ndarray_clip, ndarray_astype_int16. quiet. Qed.

Lemma wavfile_write_quiet f r d : preserves quiet (wavfile_write f r d).
Proof. unfold wavfile_write. quiet. Qed.

(** X6.  [save_wav] prints its confirmation, with the file name, exactly when
    it returns normally, and prints nothing else: when it raises the console
    is as before.  It never touches the audio stream or the figures. *)
Theorem save_wav_message (buffer : nat) (sample_rate : Z) (filename : string) (w : world) :
  let r := save_wav buffer sample_rate filename w in
  audio (snd r) = audio w
  /\ figures (snd r) = figures w
  /\ console (snd r)
     = match fst r with
       | Ok _ => console w ++ ["[OK] File WAV salvato: " +:+ filename]
       | Raise _ => console w
       end.
Proof.
  unfold save_wav. rewrite bind_run.
  pose proof (quantize_buffer_quiet buffer w) as Q1.
  destruct (quantize_buffer buffer w) as [[l|e] w1]; simpl in Q1.
  - rewrite bind_run.
    pose proof (wavfile_write_quiet filename sample_rate l w1) as Q2.
    destruct (wavfile_write filename sample_rate l w1) as [[u|e] w2]; simpl in Q2.
    + destruct (quiet_trans _ _ _ Q1 Q2) as (C & A & F).
      simpl. rewrite C. auto.
    + destruct (quiet_trans _ _ _ Q1 Q2) as (C & A & F). simpl. auto.
  - destruct Q1 as (C & A & F). simpl. auto.
Qed.

(** ** Playing *)

(** X7.  [play_audio] on a float32 buffer prints the first message before it
    plays and the second one only after a playback that worked: when the
    device fails the first message is the only one.  Arrays, files and
    figures are as before. *)
Theorem play_audio_messages (w : world) (buffer : nat) (xs : list spec_float)
    (sample_rate : Z) :
  heap w !! buffer = Some (Float32 xs) ->
  let r := play_audio buffer sample_rate w in
  console (snd r)
  = console w ++ ["[INFO] Riproduzione audio in corso..."]
      ++ (if device_ok w then ["[OK] Riproduzione terminata."] else [])
  /\ heap (snd r) = heap w /\ files (snd r) = files w /\ figures (snd r) = figures w.
Proof.
  intros Hb. destruct (device_ok w) eqn:Hd.
  - rewrite (play_audio_run _ _ _ _ Hb Hd). simpl. auto.
  - rewrite (play_audio_no_device _ _ _ _ Hb Hd). simpl. auto.
Qed.

Lemma play_audio_messages_witness :
  let w := world_with_buffer [IEEE.B32.of_Z 1] in
  let r := play_audio 0 48000 w in
  console (snd r)
  = console w ++ ["[INFO] Riproduzione audio in corso..."]
      ++ (if device_ok w then ["[OK] Riproduzione terminata."] else [])
  /\ heap (snd r) = heap w /\ files (snd r) = files w /\ figures (snd r) = figures w.
Proof.
  apply (play_audio_messages (world_with_buffer [IEEE.B32.of_Z 1]) 0%nat [IEEE.B32.of_Z 1]).
  vm_compute. reflexivity.
Defined.

(** X8.  The playback of the script [White noise generator.py], [sd.play]
    followed by [sd.wait], on its float64 noise: with a working device both
    calls return, the queue of the stream is then empty and every sample has
    been emitted, converted to float32; without one [sd.play] raises
    [PortAudioError] and the world is unchanged. *)
Theorem script_playback_plays_all (w : world) (white_noise : nat) (xs : list spec_float)
    (sampling_rate : Z) :
  heap w !! white_noise = Some (Float64 xs) ->
  (device_ok w = true ->
   exists w', script_playback white_noise sampling_rate w = (Ok tt, w')
              /\ queued (audio w') = []
              /\ emitted (audio w') = emitted (audio w) ++ map IEEE.B32.of_float xs)
  /\ (device_ok w = false ->
      script_playback white_noise sampling_rate w = (Raise PortAudioError, w)).
Proof.
  intros Hb. split; intros Hd;
    unfold script_playback, sd_play, read_frames, start_stream, sd_wait, mbind, M_bind, bind;
    rewrite Hb; simpl; rewrite Hd; simpl.
  - eexists. split; [reflexivity|]. simpl. now rewrite drain_app.
  - reflexivity.
Qed.

Lemma script_playback_plays_all_witness :
  let xs := [IEEE.B64.of_Z 1; IEEE.B64.of_Z_exp 1 (-1)] in
  exists w', script_playback 0 43100 (world_with_float64 xs) = (Ok tt, w')
             /\ queued (audio w') = []
             /\ emitted (audio w')
                = emitted (audio (world_with_float64 xs)) ++ map IEEE.B32.of_float xs.
Proof.
  apply (proj1 (script_playback_plays_all
                  (world_with_float64 [IEEE.B64.of_Z 1; IEEE.B64.of_Z_exp 1 (-1)])
                  0%nat [IEEE.B64.of_Z 1; IEEE.B64.of_Z_exp 1 (-1)] 43100
                  ltac:(vm_compute; reflexivity))).
  reflexivity.
Defined.

(** ** Plotting *)

(** X10.  [plot_signal_and_spectrum] draws nothing in two cases: on an empty
    buffer [np.fft.rfft] raises [ValueError], whatever the sample rate; on a
    buffer with samples and the sample rate 0, [1.0 / sample_rate] raises
    [ZeroDivisionError].  No figure is added in either case. *)
Theorem plot_refuses (w : world) (buffer : nat) (xs : list spec_float) (sample_rate : Z) :
  heap w !! buffer = Some (Float32 xs) ->
  (xs = [] ->
   exists w', plot_signal_and_spectrum buffer sample_rate w = (Raise ValueError, w')
              /\ figures w' = figures w)
  /\ (xs <> [] -> sample_rate = 0 ->
      exists w', plot_signal_and_spectrum buffer sample_rate w = (Raise ZeroDivisionError, w')
                 /\ figures w' = figures w).
Proof.
  intros Hb.
  destruct (alloc_spec (Int64 (map Z.of_nat (seq 0 (length xs)))) w)
    as (l1 & w1 & E1 & L1 & S1 & F1).
  destruct (alloc_spec
              (Float64 (map (fun v => IEEE.B64.div (IEEE.B64.of_Z v) (IEEE.B64.of_Z sample_rate))
                            (map Z.of_nat (seq 0 (length xs))))) w1)
    as (l2 & w2 & E2 & L2 & S2 & F2).
  assert (Hb2 : heap w2 !! buffer = Some (Float32 xs))
    by (eapply lookup_weaken; [eapply lookup_weaken; [exact Hb|exact S1]|exact S2]).
  assert (Hstart :
             plot_signal_and_spectrum buffer sample_rate w
             = (fft ← np_fft_rfft buffer;
                d ← lift (py_one_over sample_rate);
                freqs ← np_fft_rfftfreq (length xs) d;
                magnitude ← np_abs fft;
                plt_show l2 buffer freqs magnitude) w2).
  { unfold plot_signal_and_spectrum.
    rewrite (bind_Ok_run _ _ _ _ _ (read_float32_run _ _ _ Hb)).
    rewrite (bind_Ok_run _ _ _ _ _ E1).
    rewrite (bind_Ok_run _ _ w1 l2 w2) by (unfold ndarray_truediv; rewrite L1; exact E2).
    reflexivity. }
  rewrite Hstart. split.
  - intros ->. exists w2. split; [|now rewrite F2, F1].
    apply bind_Raise_run. unfold np_fft_rfft.
    rewrite (bind_Ok_run _ _ _ _ _ (read_float32_run _ _ _ Hb2)). reflexivity.
  - intros Hne ->.
    destruct (alloc_spec (Complex (map (rfft_coeff w2 xs) (seq 0 (length xs / 2 + 1)%nat))) w2)
      as (l3 & w3 & E3 & L3 & S3 & F3).
    exists w3. split; [|now rewrite F3, F2, F1].
    rewrite (bind_Ok_run _ _ w2 l3 w3).
    2: { unfold np_fft_rfft. rewrite (bind_Ok_run _ _ _ _ _ (read_float32_run _ _ _ Hb2)).
         destruct xs; [contradiction|]. exact E3. }
    apply bind_Raise_run. reflexivity.
Qed.

Lemma plot_refuses_witness :
  (exists w', plot_signal_and_spectrum 0 48000 (world_with_buffer []) = (Raise ValueError, w')
              /\ figures w' = figures (world_with_buffer []))
  /\ (exists w', plot_signal_and_spectrum 0 0 (world_with_buffer [IEEE.B32.of_Z 1])
                 = (Raise ZeroDivisionError, w')
                 /\ figures w' = figures (world_with_buffer [IEEE.B32.of_Z 1])).
Proof.
  split.
  - apply (proj1 (plot_refuses (world_with_buffer []) 0%nat [] 48000
                    ltac:(vm_compute; reflexivity))).
    reflexivity.
  - apply (proj2 (plot_refuses (world_with_buffer [IEEE.B32.of_Z 1]) 0%nat
                    [IEEE.B32.of_Z 1] 0 ltac:(vm_compute; reflexivity))).
    + discriminate.
    + reflexivity.
Defined.

(** X11.  The left plot, for a buffer that is not empty and a sample rate
    the function accepts and that fits the int64 array it divides: the
    samples of the buffer as they are, NaN and infinities included, and for
    sample [n] the time that binary64 division gives for [n / sample_rate],
    which is [n / sample_rate] up to its rounding. *)
Theorem plot_time_axis (w : world) (buffer : nat) (xs : list spec_float) (sample_rate : Z) :
  heap w !! buffer = Some (Float32 xs) ->
  xs <> [] ->
  rate_accepted (length xs) sample_rate ->
  fits_int64 sample_rate ->
  exists fig w',
    plot_signal_and_spectrum buffer sample_rate w = (Ok tt, w')
    /\ figures w' = figures w ++ [fig]
    /\ fig_signal fig = xs
    /\ length (fig_time fig) = length xs
    /\ forall n, (n < length xs)%nat ->
         fig_time fig !! n
         = Some (IEEE.B64.div (IEEE.B64.of_Z (Z.of_nat n)) (IEEE.B64.of_Z sample_rate)).
Proof.
  intros Hb Hne Hsr _.
  destruct (plot_run w buffer xs sample_rate Hb Hne Hsr) as (w' & Hrun & Hfig).
  eexists. exists w'. split; [exact Hrun|]. split; [exact Hfig|].
  cbn [fig_time fig_signal].
  split; [reflexivity|]. split; [now rewrite !length_map, length_seq|].
  intros n Hn. rewrite !lookup_map, lookup_seq_lt by exact Hn. reflexivity.
Qed.

Lemma plot_time_axis_witness :
  exists fig w',
    plot_signal_and_spectrum 0 48000 (world_with_buffer [IEEE.B32.of_Z 1; S754_nan])
    = (Ok tt, w')
    /\ figures w' = figures (world_with_buffer [IEEE.B32.of_Z 1; S754_nan]) ++ [fig]
    /\ fig_signal fig = [IEEE.B32.of_Z 1; S754_nan]
    /\ length (fig_time fig) = length [IEEE.B32.of_Z 1; S754_nan]
    /\ forall n, (n < length [IEEE.B32.of_Z 1; S754_nan])%nat ->
         fig_time fig !! n
         = Some (IEEE.B64.div (IEEE.B64.of_Z (Z.of_nat n)) (IEEE.B64.of_Z 48000)).
Proof.
  apply (plot_time_axis (world_with_buffer [IEEE.B32.of_Z 1; S754_nan]) 0%nat).
  - vm_compute; reflexivity.
  - discriminate.
  - split; [lia|]. split; [vm_compute; reflexivity|]. vm_compute. intros H; exact H.
  - split; vm_compute; [discriminate | reflexivity].
Defined.

(** ** Running the process *)

Lemma P_run {A B} (m : P A) (k : A -> P B) p :
  (m ≫= k) p = match m p with
               | (Return a, p') => k a p'
               | (Throw e, p') => (Throw e, p')
               end.
Proof. reflexivity. Qed.

Lemma P_Return_run {A B} (m : P A) (k : A -> P B) p a p1 :
  m p = (Return a, p1) -> (m ≫= k) p = k a p1.
Proof. intros H. now rewrite P_run, H. Qed.

Lemma P_Throw_run {A B} (m : P A) (k : A -> P B) p e p1 :
  m p = (Throw e, p1) -> (m ≫= k) p = (Throw e, p1).
Proof. intros H. now rewrite P_run, H. Qed.

Lemma P_Return_inv {A B} (m : P A) (k : A -> P B) p b p' :
  (m ≫= k) p = (Return b, p') ->
  exists a p1, m p = (Return a, p1) /\ k a p1 = (Return b, p').
Proof. rewrite P_run. destruct (m p) as [[a|e] p1]; [eauto | discriminate]. Qed.

Section Post.
Context (R : process -> process -> Prop) (E : pexn -> Prop).
Hypothesis R_refl : forall p, R p p.
Hypothesis R_trans : forall p1 p2 p3, R p1 p2 -> R p2 p3 -> R p1 p3.

Lemma post_ret {A} (a : A) : P_post R E (mret a).
Proof. intros p. split; [apply R_refl | discriminate]. Qed.

Lemma post_throw {A} e : E e -> P_post R E (@throw A e).
Proof. intros He p. split; [apply R_refl | intros e' [= <-]; exact He]. Qed.

Lemma post_bind {A B} (m : P A) (k : A -> P B) :
  P_post R E m -> (forall a, P_post R E (k a)) -> P_post R E (m ≫= k).
Proof.
  intros Hm Hk p. rewrite P_run. destruct (Hm p) as [Hr He].
  destruct (m p) as [[a|e] p1]; simpl in *.
  - destruct (Hk a p1) as [Hr' He']. split; [eapply R_trans; eauto | exact He'].
  - split; [exact Hr | intros e' [= <-]; now apply He].
Qed.

Lemma post_if {A} (c : bool) (m1 m2 : P A) :
  P_post R E m1 -> P_post R E m2 -> P_post R E (if c then m1 else m2).
Proof. destruct c; auto. Qed.

Lemma post_comprehension {A} (keep : A -> P bool) (l : list A) :
  (forall x, P_post R E (keep x)) -> P_post R E (comprehension keep l).
Proof.
  intros Hk. induction l as [|x l IH]; simpl.
  - apply post_ret.
  - apply post_bind; [apply Hk|]. intros b.
    apply post_bind; [apply IH|]. intros kept. apply post_ret.
Qed.
End Post.

(** ** The dependency bootstrap *)

Lemma only_console_refl w : only_console w w.
Proof. exists (console w). now destruct w. Qed.

Lemma only_console_trans w1 w2 w3 :
  only_console w1 w2 -> only_console w2 w3 -> only_console w1 w3.
Proof. intros [c1 ->] [c2 ->]. exists c2. reflexivity. Qed.

Lemma bootstrap_frame_refl p : bootstrap_frame p p.
Proof. repeat split. apply only_console_refl. Qed.

Lemma bootstrap_frame_trans p1 p2 p3 :
  bootstrap_frame p1 p2 -> bootstrap_frame p2 p3 -> bootstrap_frame p1 p3.
Proof.
  intros (A1 & B1 & C1 & D1) (A2 & B2 & C2 & D2).
  repeat split; try congruence. eapply only_console_trans; eauto.
Qed.

Lemma echo_bootstrap s : P_post bootstrap_frame exits_with_1 (echo s).
Proof.
  intros p. split; [|discriminate]. repeat split. simpl. eexists. reflexivity.
Qed.

Lemma sys_executable_bootstrap : P_post bootstrap_frame exits_with_1 sys_executable.
Proof. intros p. split; [apply bootstrap_frame_refl | discriminate]. Qed.

Lemma subprocess_run_bootstrap args : P_post bootstrap_frame exits_with_1 (subprocess_run args).
Proof.
  intros p. unfold subprocess_run. destruct (spawn p args (modules p)) as [c ms].
  split; [|discriminate]. repeat split. simpl. apply only_console_refl.
Qed.

Lemma ensure_import_bootstrap m : P_post bootstrap_frame exits_with_1 (ensure_import m).
Proof. intros p. split; [apply bootstrap_frame_refl | discriminate]. Qed.

Create HintDb bootstrap discriminated.
#[export] Hint Resolve echo_bootstrap sys_executable_bootstrap subprocess_run_bootstrap
  ensure_import_bootstrap : bootstrap.

Ltac bootstrap :=
  repeat first
    [ apply (post_bind bootstrap_frame exits_with_1 bootstrap_frame_trans); [ | intros ? ]
    | apply post_if
    | apply (post_ret bootstrap_frame exits_with_1 bootstrap_frame_refl)
    | apply (post_throw bootstrap_frame exits_with_1 bootstrap_frame_refl); reflexivity
    | apply (post_comprehension bootstrap_frame exits_with_1 bootstrap_frame_refl
               bootstrap_frame_trans); intros ?
    | solve [ auto with bootstrap ]
    | match goal with
      | |- P_post _ _ (match ?x with _ => _ end) => destruct x
      | |- P_post _ _ (let '(_, _) := ?x in _) => destruct x
      end ].

Lemma pip_available_bootstrap : P_post bootstrap_frame exits_with_1 pip_available.
Proof. unfold pip_available. bootstrap. Qed.

Lemma install_loop_bootstrap packages :
  forall results, P_post bootstrap_frame exits_with_1 (install_loop packages results).
Proof.
  induction packages as [|pkg rest IH]; intros results; simpl.
  - bootstrap.
  - bootstrap; apply IH.
Qed.

Lemma not_available_bootstrap r : P_post bootstrap_frame exits_with_1 (not_available r).
Proof. destruct r as [[pkg success] msg]. unfold not_available. bootstrap. Qed.

Lemma ensure_dependencies_bootstrap : P_post bootstrap_frame exits_with_1 ensure_dependencies.
Proof.
  unfold ensure_dependencies, install_packages, sys_exit.
  bootstrap; auto using pip_available_bootstrap, install_loop_bootstrap,
    not_available_bootstrap.
Qed.

(** X13.  [ensure_dependencies] ends in one of two ways, a normal return or
    [sys.exit(1)]: no other exception leaves it.  Whichever it is, the
    arrays, the audio stream and the figures of the program are as they
    were. *)
Theorem ensure_dependencies_confined (p : process) :
  let r := ensure_dependencies p in
  (fst r = Return tt \/ fst r = Throw (SystemExit 1))
  /\ heap (proc_world (snd r)) = heap (proc_world p)
  /\ audio (proc_world (snd r)) = audio (proc_world p)
  /\ figures (proc_world (snd r)) = figures (proc_world p).
Proof.
  destruct (ensure_dependencies_bootstrap p) as [([c Hc] & Hs & _) He]. cbv zeta.
  split; [|rewrite Hc; auto].
  destruct (fst (ensure_dependencies p)) as [[]|e].
  - now left.
  - right. f_equal. now apply He.
Qed.

Lemma install_loop_run packages :
  forall results p,
  exists new p',
    install_loop packages results p = (Return (results ++ new), p')
    /\ map (fun r => fst (fst r)) new = packages
    /\ commands p' = commands p ++ map (install_command (executable p)) packages
    /\ (spawn_monotone p -> modules_grow p p').
Proof.
  induction packages as [|pkg rest IH]; intros results p.
  - exists [], p. rewrite app_nil_r. repeat split; simpl; auto.
    now rewrite app_nil_r.
  - cbn [install_loop].
    unfold echo, in_world, print, sys_executable, subprocess_run, mbind, P_bind, P_then.
    cbn [proc_world set_world modules executable spawn commands stdin].
    destruct (spawn p [executable p; "-m"; "pip"; "install"; "--upgrade"; pkg] (modules p))
      as [c ms] eqn:Hs.
    destruct c as [rc out err|msg]; cbn [proc_world set_world modules executable spawn commands stdin].
    + match goal with |- context [install_loop rest ?r ?q] =>
        destruct (IH r q) as (new & p' & H1 & H2 & H3 & H4) end.
      eexists (_ :: new), p'. rewrite <- app_assoc in H1. split; [exact H1|].
      cbn in H3. split; [simpl; now rewrite H2|]. split.
      * rewrite H3, <- app_assoc. reflexivity.
      * intros Hm. destruct (H4 Hm) as [G1 G2]. cbn in G1, G2. split; [|exact G2].
        etransitivity; [|exact G1]. pose proof (Hm [executable p; "-m"; "pip"; "install"; "--upgrade"; pkg]
                       (modules p)) as Hm'.
        rewrite Hs in Hm'. exact Hm'.
    + match goal with |- context [install_loop rest ?r ?q] =>
        destruct (IH r q) as (new & p' & H1 & H2 & H3 & H4) end.
      eexists (_ :: new), p'. rewrite <- app_assoc in H1. split; [exact H1|].
      cbn in H3. split; [simpl; now rewrite H2|]. split.
      * rewrite H3, <- app_assoc. reflexivity.
      * intros Hm. destruct (H4 Hm) as [G1 G2]. cbn in G1, G2. split; [|exact G2].
        etransitivity; [|exact G1]. pose proof (Hm [executable p; "-m"; "pip"; "install"; "--upgrade"; pkg]
                       (modules p)) as Hm'.
        rewrite Hs in Hm'. exact Hm'.
Qed.

(** X14.  [install_packages] never raises: it returns one result for each
    package, in the order of the packages, and has started one
    [pip install --upgrade] for each of them, in that order, whether or not
    the earlier ones succeeded or could be started at all. *)
Theorem install_packages_results (packages : list string) (p : process) :
  exists results p',
    install_packages packages p = (Return results, p')
    /\ map (fun r => fst (fst r)) results = packages
    /\ commands p' = commands p ++ map (install_command (executable p)) packages.
Proof.
  destruct (install_loop_run packages [] p) as (new & p' & H1 & H2 & H3 & _).
  exists new, p'. auto.
Qed.

Lemma echo_run s p : echo s p = (Return tt, after_echo s p).
Proof. reflexivity. Qed.

Lemma pip_available_run p c ms :
  spawn p (probe_command (executable p)) (modules p) = (c, ms) ->
  pip_available p
  = (Return (match c with Completed rc _ _ => rc =? 0 | SpawnError _ => false end),
     after_child (probe_command (executable p)) ms p).
Proof.
  intros Hs. unfold pip_available, sys_executable, subprocess_run, mbind, P_bind, P_then.
  fold (probe_command (executable p)). rewrite Hs. destruct c; reflexivity.
Qed.

Lemma comprehension_import l p :
  comprehension (fun m => b ← ensure_import m; mret (negb b)) l p
  = (Return (List.filter (fun m => negb (bool_decide (m ∈ modules p))) l), p).
Proof.
  induction l as [|m l IH]; [reflexivity|].
  cbn [comprehension List.filter]. rewrite P_run.
  change ((b ← ensure_import m; mret (negb b)) p)
    with (@Return bool (negb (bool_decide (m ∈ modules p))), p).
  cbv iota beta. rewrite P_run, IH. cbv iota beta.
  destruct (negb (bool_decide (m ∈ modules p))); reflexivity.
Qed.

Lemma comprehension_not_available results p :
  comprehension not_available results p
  = (Return (List.filter (unavailable (modules p)) results), p).
Proof.
  induction results as [|[[pkg success] msg] l IH]; [reflexivity|].
  cbn [comprehension List.filter]. rewrite P_run.
  assert (H : not_available (pkg, success, msg) p
              = (Return (unavailable (modules p) (pkg, success, msg)), p)).
  { unfold not_available, unavailable. destruct success; reflexivity. }
  rewrite H. cbv iota beta. rewrite P_run, IH. cbv iota beta.
  destruct (unavailable (modules p) (pkg, success, msg)); reflexivity.
Qed.

(** Without [pip]. *)
Lemma ensure_dependencies_no_pip p c ms :
  spawn p (probe_command (executable p)) (modules p) = (c, ms) ->
  (forall out err, c <> Completed 0 out err) ->
  ensure_dependencies p
  = (Throw (SystemExit 1),
     after_echo "Prova ad aggiornare Python o a installare pip. Interrompo."
       (after_echo "[ERRORE] 'pip' non è disponibile tramite 'python -m pip'."
          (after_child (probe_command (executable p)) ms
             (after_echo "[INFO] Verifica disponibilità di pip..." p)))).
Proof.
  intros Hs Hc. unfold ensure_dependencies.
  rewrite (P_Return_run _ _ _ _ _ (echo_run _ p)).
  rewrite (P_Return_run _ _ _ _ _ (pip_available_run (after_echo _ p) c ms Hs)).
  assert (Hb : match c with Completed rc _ _ => rc =? 0 | SpawnError _ => false end = false).
  { destruct c as [rc out err|]; auto. destruct (Z.eqb_spec rc 0) as [->|]; auto.
    exfalso. eapply Hc; eauto. }
  rewrite Hb. cbn [negb].
  rewrite !(P_Return_run _ _ _ _ _ (echo_run _ _)). reflexivity.
Qed.

(** With [pip]. *)
Lemma ensure_dependencies_with_pip p out err ms :
  spawn p (probe_command (executable p)) (modules p) = (Completed 0 out err, ms) ->
  exists r p',
    ensure_dependencies p = (r, p')
    /\ commands p'
       = commands p ++ probe_command (executable p)
           :: map (install_command (executable p)) (missing_from ms)
    /\ (r = Return tt -> forall m, In m (missing_from ms) -> m ∈ modules p')
    /\ (spawn_monotone p -> ms ⊆ modules p').
Proof.
  intros Hs. unfold ensure_dependencies.
  rewrite (P_Return_run _ _ _ _ _ (echo_run _ p)).
  rewrite (P_Return_run _ _ _ _ _ (pip_available_run (after_echo _ p) _ ms Hs)).
  cbn [Z.eqb negb].
  rewrite (P_Return_run _ _ _ _ _ (comprehension_import _ _)).
  change (List.filter _ required) with (missing_from ms).
  destruct (missing_from ms) as [|m0 rest] eqn:Hm.
  - rewrite echo_run. do 2 eexists. split; [reflexivity|].
    split; [reflexivity|]. split; [intros _ m []|]. intros _. reflexivity.
  - rewrite (P_Return_run _ _ _ _ _ (echo_run _ _)).
    match goal with |- context [install_packages ?l ≫= _] =>
      destruct (install_loop_run l [] (after_echo
        ("[INFO] Mancano i seguenti pacchetti: " +:+ String.concat ", " l)
        (after_child (probe_command (executable p)) ms
           (after_echo "[INFO] Verifica disponibilità di pip..." p))))
        as (results & p3 & H1 & H2 & H3 & H4) end.
    unfold install_packages. rewrite (P_Return_run _ _ _ _ _ H1).
    rewrite (P_Return_run _ _ _ _ _ (comprehension_not_available _ _)).
    cbn in H3. cbn [app].
    destruct (List.filter (unavailable (modules p3)) results) as [|r0 still] eqn:Hf.
    + cbn [map]. rewrite echo_run. do 2 eexists. split; [reflexivity|].
      split; [|split].
      * cbn. rewrite H3, <- app_assoc. reflexivity.
      * intros _ m Hin. cbn.
        rewrite <- H2 in Hin. apply in_map_iff in Hin as ([[pkg success] msg] & <- & Hin).
        assert (Hu : unavailable (modules p3) (pkg, success, msg) = false).
        { destruct (unavailable (modules p3) (pkg, success, msg)) eqn:Hu; auto.
          assert (Hin' : In (pkg, success, msg) (List.filter (unavailable (modules p3)) results))
            by (apply filter_In; auto).
          rewrite Hf in Hin'. destruct Hin'. }
        unfold unavailable in Hu. cbn in Hu. apply orb_false_iff in Hu as [_ Hu].
        apply negb_false_iff, bool_decide_eq_true in Hu. exact Hu.
      * intros Hmono. destruct (H4 Hmono) as [G _]. exact G.
    + cbn [map]. rewrite !(P_Return_run _ _ _ _ _ (echo_run _ _)).
      do 2 eexists. split; [reflexivity|]. split; [|split].
      * cbn. rewrite H3, <- app_assoc. reflexivity.
      * discriminate.
      * intros Hmono. destruct (H4 Hmono) as [G _]. exact G.
Qed.

Lemma working_pip_monotone ms lines : spawn_monotone (process_with ms lines).
Proof.
  intros args ms'. unfold process_with, working_pip; cbn [spawn].
  do 6 (destruct args as [|? args]; [cbn; set_solver|]).
  destruct args; cbn; set_solver.
Qed.

(** X15.  Without a working [pip] (the probe cannot be started, or ends with
    a code other than 0) [ensure_dependencies] ends the program with
    [sys.exit(1)]: the probe is the only child it has started, nothing has
    been installed. *)
Theorem no_pip_no_install (p : process) (c : completed) (ms : gset string) :
  spawn p (probe_command (executable p)) (modules p) = (c, ms) ->
  (forall out err, c <> Completed 0 out err) ->
  exists p',
    ensure_dependencies p = (Throw (SystemExit 1), p')
    /\ commands p' = commands p ++ [probe_command (executable p)]
    /\ modules p' = ms.
Proof.
  intros Hs Hc. rewrite (ensure_dependencies_no_pip p c ms Hs Hc).
  eexists. split; [reflexivity|]. split; reflexivity.
Qed.

Lemma no_pip_no_install_witness :
  exists p',
    ensure_dependencies (process_without_pip ∅ []) = (Throw (SystemExit 1), p')
    /\ commands p' = [] ++ [probe_command "python3"]
    /\ modules p' = ∅.
Proof.
  apply (no_pip_no_install (process_without_pip ∅ [])
           (SpawnError "No such file or directory") ∅).
  - reflexivity.
  - discriminate.
Defined.

(** X16.  With a working [pip], [ensure_dependencies] starts, after the
    probe, one [pip install --upgrade] for each required module that was not
    importable, in the order of [required], and no other child: a failed
    installation does not stop the later ones, and nothing is installed when
    nothing is missing. *)
Theorem ensure_dependencies_commands (p : process) (out err : string) (ms : gset string) :
  spawn p (probe_command (executable p)) (modules p) = (Completed 0 out err, ms) ->
  commands (snd (ensure_dependencies p))
  = commands p ++ probe_command (executable p)
      :: map (install_command (executable p)) (missing_from ms).
Proof.
  intros Hs.
  destruct (ensure_dependencies_with_pip p out err ms Hs) as (r & p' & H1 & H2 & _).
  rewrite H1. exact H2.
Qed.

Lemma ensure_dependencies_commands_witness :
  commands (snd (ensure_dependencies (process_with {["numpy"; "matplotlib"]} [])))
  = [] ++ probe_command "python3"
      :: map (install_command "python3") (missing_from {["numpy"; "matplotlib"]}).
Proof.
  apply (ensure_dependencies_commands (process_with {["numpy"; "matplotlib"]} [])
           "pip 24.0" "" {["numpy"; "matplotlib"]}).
  reflexivity.
Defined.

(** X17.  When [ensure_dependencies] returns, rather than exiting, every
    required module is importable, provided that running [pip] never makes a
    module disappear. *)
Theorem ensure_dependencies_importable (p p' : process) :
  spawn_monotone p ->
  ensure_dependencies p = (Return tt, p') ->
  forall m, In m required -> m ∈ modules p'.
Proof.
  intros Hmono Hrun m Hm.
  destruct (spawn p (probe_command (executable p)) (modules p)) as [c ms] eqn:Hs.
  assert (Hc : exists out err, c = Completed 0 out err).
  { destruct c as [rc out err|msg].
    - destruct (Z.eq_dec rc 0) as [->|Hrc]; [eauto|].
      rewrite (ensure_dependencies_no_pip p _ ms Hs) in Hrun;
        [discriminate | intros ? ? [= ? ? ?]; contradiction].
    - rewrite (ensure_dependencies_no_pip p _ ms Hs) in Hrun; discriminate. }
  destruct Hc as (out & err & ->).
  destruct (ensure_dependencies_with_pip p out err ms Hs) as (r & q & H1 & _ & H3 & H4).
  rewrite Hrun in H1. injection H1 as <- <-.
  destruct (bool_decide (m ∈ ms)) eqn:Hin.
  - apply bool_decide_eq_true in Hin. apply (H4 Hmono). exact Hin.
  - apply H3; [reflexivity|]. unfold missing_from. apply filter_In. split; [exact Hm|].
    now rewrite Hin.
Qed.

Lemma ensure_dependencies_importable_witness :
  "scipy" ∈ modules (snd (ensure_dependencies (process_with {["numpy"]} []))).
Proof.
  apply (ensure_dependencies_importable (process_with {["numpy"]} [])
           (snd (ensure_dependencies (process_with {["numpy"]} [])))).
  - apply working_pip_monotone.
  - vm_compute. reflexivity.
  - vm_compute. auto.
Defined.

(** ** The menu *)

(** *** [str.strip] *)

Lemma after_prefix_length c s rest :
  after_prefix c s = Some rest -> String.length s = (String.length c + String.length rest)%nat.
Proof.
  revert s. induction c as [|a c IH]; intros s H.
  - injection H as <-. reflexivity.
  - destruct s as [|b s]; [discriminate|]. simpl in H.
    destruct (Ascii.eqb a b); [|discriminate]. simpl. f_equal. now apply IH.
Qed.

Lemma head_omap_Some {A B} (f : A -> option B) (l : list A) (b : B) :
  head (omap f l) = Some b -> exists a, In a l /\ f a = Some b.
Proof.
  induction l as [|a l IH]; [discriminate|]. simpl.
  destruct (f a) as [b'|] eqn:Hf.
  - intros [= <-]. exists a. auto.
  - intros H. destruct (IH H) as (a' & Hin & Ha). exists a'. auto.
Qed.

(** With fuel for every byte, [lstrip_with] stops only where no character of
    [spaces] starts the string. *)
Lemma lstrip_with_done (spaces : list string) (fuel : nat) (s : string) :
  (forall c, In c spaces -> c <> EmptyString) ->
  (String.length s <= fuel)%nat ->
  head (omap (fun c => after_prefix c (lstrip_with spaces fuel s)) spaces) = None.
Proof.
  intros Hne. revert s. induction fuel as [|fuel IH]; intros s Hlen.
  - destruct s; [|simpl in Hlen; lia]. simpl.
    destruct (head (omap (fun c => after_prefix c EmptyString) spaces)) as [rest|] eqn:H; auto.
    apply head_omap_Some in H as (c & Hin & Hc).
    destruct c; [now apply Hne in Hin | discriminate].
  - simpl. destruct (head (omap (fun c => after_prefix c s) spaces)) as [rest|] eqn:H; auto.
    apply IH. apply head_omap_Some in H as (c & Hin & Hc).
    apply after_prefix_length in Hc.
    assert (String.length c <> 0)%nat by (destruct c; [now apply Hne in Hin | discriminate]).
    lia.
Qed.

(** No white space is left in front of [lstrip s]. *)
Lemma lstrip_done (s : string) :
  head (omap (fun c => after_prefix c (lstrip s)) whitespace) = None.
Proof.
  apply lstrip_with_done; [|reflexivity].
  intros c Hin ->. vm_compute in Hin. intuition discriminate.
Qed.

(** White space of Unicode is removed like a blank. *)
Example strip_unicode :
  strip (nbsp +:+ " 6" +:+ utf8 [226; 128; 138; 10]%nat) = "6"
  /\ strip nbsp = ""
  /\ strip " a b " = "a b".
Proof. repeat split; vm_compute; reflexivity. Qed.

Lemma turn_frame_refl p : turn_frame p p.
Proof. split; [exists []; reflexivity | unfold heap_grows; reflexivity]. Qed.

Lemma turn_frame_trans p1 p2 p3 : turn_frame p1 p2 -> turn_frame p2 p3 -> turn_frame p1 p3.
Proof.
  intros [[u1 H1] G1] [[u2 H2] G2]. split.
  - exists (u1 ++ u2). rewrite H1, H2. apply app_assoc.
  - unfold heap_grows in *. etransitivity; eauto.
Qed.

Lemma post_Return {A} R E (m : P A) p a p' :
  P_post R E m -> m p = (Return a, p') -> R p p'.
Proof. intros H Hm. destruct (H p) as [Hr _]. now rewrite Hm in Hr. Qed.

Lemma in_world_turn {A} (m : M A) :
  preserves heap_grows m -> P_post turn_frame any_exception (in_world m).
Proof.
  intros Hm p. specialize (Hm (proc_world p)). unfold in_world.
  destruct (m (proc_world p)) as [[a|e] w]; simpl in *;
    (split; [split; [exists []; reflexivity | exact Hm] | intros; exact I]).
Qed.

Lemma frame_heap_grows {A} f (m : M A) : preserves (frame f) m -> preserves heap_grows m.
Proof. intros H w. apply H. Qed.

Lemma echo_turn s : P_post turn_frame any_exception (echo s).
Proof. apply in_world_turn, (frame_heap_grows ""), print_frame. Qed.

Lemma readline_turn : P_post turn_frame any_exception readline.
Proof.
  intros p. unfold readline. destruct (stdin p) as [|line rest] eqn:Hs; simpl.
  - split; [apply turn_frame_refl | intros; exact I].
  - split; [|discriminate]. split; [exists [line]; now rewrite Hs | unfold heap_grows; reflexivity].
Qed.

Lemma input_turn s : P_post turn_frame any_exception (input s).
Proof.
  apply (post_bind _ _ turn_frame_trans); [apply echo_turn|].
  intros _. apply readline_turn.
Qed.

Lemma ensure_dependencies_turn : P_post turn_frame any_exception ensure_dependencies.
Proof.
  intros p. destruct (ensure_dependencies_bootstrap p) as [([c Hc] & Hs & _) _].
  split; [|intros; exact I]. split.
  - exists []. now rewrite Hs.
  - unfold heap_grows. rewrite Hc. reflexivity.
Qed.

Lemma generate_Ok d sr amp w b w' :
  generate_white_noise d sr amp w = (Ok b, w') ->
  heap_grows w w'
  /\ exists xs p,
      heap w' !! b = Some (Float32 xs)
      /\ py_float_mul_int d sr = Ok p
      /\ py_int p = Ok (Z.of_nat (length xs)).
Proof.
  intros H.
  destruct (generate_Ok_inv _ _ _ _ _ _ H)
    as (p & n & xs & Hp & Hn & _ & _ & _ & Hb & Hlen & Hh).
  split; [exact Hh|]. exists xs, p. split; [exact Hb|]. split; [exact Hp|]. now rewrite Hlen.
Qed.

Lemma generate_heap_grows d sr amp : preserves heap_grows (generate_white_noise d sr amp).
Proof.
  intros w. destruct (generate_white_noise d sr amp w) as [[b|e] w'] eqn:H.
  - now destruct (generate_Ok_inv _ _ _ _ _ _ H) as (p & n & xs & _ & _ & _ & _ & _ & _ & _ & Hh).
  - destruct (generate_cases d sr amp w) as [[e' He]|(p & n & Hp & Hn & H0 & Hmax & Hg)].
    + rewrite He in H. injection H as _ <-. unfold heap_grows. reflexivity.
    + destruct (generate_shape _ _ amp w _ _ Hp Hn H0 Hmax Hg) as (b' & h & Hrun & _).
      congruence.
Qed.

Lemma in_world_Return {A} (m : M A) p a p' :
  in_world m p = (Return a, p') ->
  exists w, m (proc_world p) = (Ok a, w) /\ p' = set_world w p.
Proof.
  unfold in_world. destruct (m (proc_world p)) as [[a'|e] w]; [|discriminate].
  intros [= <- <-]. eauto.
Qed.

Lemma then_Return {A B} (m : P A) (b : B) p r p' :
  (m;; mret b) p = (Return r, p') -> r = b /\ exists a, m p = (Return a, p').
Proof.
  intros H. apply P_Return_inv in H as (a & p1 & H1 & H2).
  injection H2 as <- <-. eauto.
Qed.

Section MenuTurn.
Variable float_of_string : string -> option spec_float.
Variable int_of_string : string -> option Z.

Lemma read_parameters_turn : P_post turn_frame any_exception (read_parameters float_of_string int_of_string).
Proof.
  unfold read_parameters.
  repeat first
    [ apply (post_bind _ _ turn_frame_trans); [apply input_turn | intros ?]
    | apply (post_ret _ _ turn_frame_refl)
    | match goal with |- P_post _ _ (match ?x with _ => _ end) => destruct x end ].
Qed.

Lemma print_menu_run p :
  exists c, print_menu p = (Return tt, set_world (set_console c (proc_world p)) p).
Proof. eexists. reflexivity. Qed.

(** What a turn that returns has done. *)
Lemma menu_turn_Return s p r p' :
  menu_turn float_of_string int_of_string s p = (Return r, p') ->
  exists line used,
    stdin p = line :: used ++ stdin p'
    /\ heap_grows (proc_world p) (proc_world p')
    /\ match r with
       | None => strip line = "6" /\ stdin p = line :: stdin p'
                 /\ last (console (proc_world p')) = Some goodbye
       | Some s' => strip line <> "6" /\ (s' = s \/ session_ok s' (proc_world p'))
       end.
Proof.
  unfold menu_turn. intros H.
  destruct (print_menu_run p) as [c Hc].
  rewrite (P_Return_run _ _ _ _ _ Hc) in H.
  set (p1 := set_world (set_console c (proc_world p)) p) in *.
  apply P_Return_inv in H as (line & p2 & Hin & H).
  assert (Hline : stdin p = line :: stdin p2
                  /\ heap (proc_world p2) = heap (proc_world p)).
  { unfold input, echo, in_world, print, readline, mbind, P_bind, P_then in Hin. simpl in Hin.
    destruct (stdin p) as [|l rest]; [discriminate|]. injection Hin as <- <-. auto. }
  destruct Hline as [Hline Hheap].
  assert (Hend : forall (r : option session),
             turn_frame p2 p' ->
             match r with
             | None => strip line = "6" /\ stdin p = line :: stdin p'
                 /\ last (console (proc_world p')) = Some goodbye
             | Some s' => strip line <> "6" /\ (s' = s \/ session_ok s' (proc_world p'))
             end ->
             exists line0 used,
               stdin p = line0 :: used ++ stdin p'
               /\ heap_grows (proc_world p) (proc_world p')
               /\ match r with
                  | None => strip line0 = "6" /\ stdin p = line0 :: stdin p'
                 /\ last (console (proc_world p')) = Some goodbye
                  | Some s' => strip line0 <> "6" /\ (s' = s \/ session_ok s' (proc_world p'))
                  end).
  { intros r0 [[used Hu] Hg] Hr. exists line, used. split; [|split; [|exact Hr]].
    - rewrite Hline, Hu. reflexivity.
    - unfold heap_grows in *. now rewrite <- Hheap. }
  destruct (String.eqb_spec (strip line) "1") as [E1|N1].
  { apply then_Return in H as [-> [a H]].
    apply (Hend (Some s)).
    - exact (post_Return _ _ _ _ _ _ ensure_dependencies_turn H).
    - split; [rewrite E1; discriminate | auto]. }
  destruct (String.eqb_spec (strip line) "2") as [E2|N2].
  { apply P_Return_inv in H as (par & p3 & Hpar & H).
    pose proof (post_Return _ _ _ _ _ _ read_parameters_turn Hpar) as F3.
    destruct par as [[[dur sr] amp]|].
    - apply P_Return_inv in H as (b & p4 & Hgen & H).
      apply P_Return_inv in H as (n & p5 & Hlen & H).
      apply then_Return in H as [-> [a H]].
      pose proof (post_Return _ _ _ _ _ _
                    (in_world_turn _ (generate_heap_grows dur sr amp)) Hgen) as F4.
      apply in_world_Return in Hgen as (w4 & Hgen & ->).
      apply generate_Ok in Hgen as (_ & xs & pr & Hb & Hp & Hn).
      assert (F5 : p5 = set_world w4 p3).
      { apply in_world_Return in Hlen as (w5 & Hlen & ->).
        unfold ndarray_len in Hlen. simpl in Hlen. rewrite Hb in Hlen. now injection Hlen as <- <-. }
      subst p5.
      pose proof (post_Return _ _ _ _ _ _ (echo_turn _) H) as F6.
      apply (Hend (Some _)).
      + eapply turn_frame_trans; [exact F3|]. eapply turn_frame_trans; eauto.
      + split; [rewrite E2; discriminate|]. right.
        exists xs, dur, pr. split; [|auto].
        destruct F6 as [_ F6]. eapply lookup_weaken; [|exact F6]. exact Hb.
    - apply then_Return in H as [-> [a H]].
      pose proof (post_Return _ _ _ _ _ _ (echo_turn _) H) as F4.
      apply (Hend (Some s)).
      + eapply turn_frame_trans; eauto.
      + split; [rewrite E2; discriminate | auto]. }
  destruct (String.eqb_spec (strip line) "3") as [E3|N3].
  { destruct (current_buffer s) as [b|];
      apply then_Return in H as [-> [a H]]; apply (Hend (Some s)).
    - exact (post_Return _ _ _ _ _ _
               (in_world_turn _ (frame_heap_grows "" _ (play_audio_frame "" _ _))) H).
    - split; [rewrite E3; discriminate | auto].
    - exact (post_Return _ _ _ _ _ _ (echo_turn _) H).
    - split; [rewrite E3; discriminate | auto]. }
  destruct (String.eqb_spec (strip line) "4") as [E4|N4].
  { destruct (current_buffer s) as [b|].
    - apply P_Return_inv in H as (l2 & p3 & Hin2 & H).
      apply then_Return in H as [-> [a H]].
      pose proof (post_Return _ _ _ _ _ _ (input_turn _) Hin2) as F3.
      pose proof (post_Return _ _ _ _ _ _
                    (in_world_turn _ (frame_heap_grows _ _ (save_wav_frame _ _ _))) H) as F4.
      apply (Hend (Some s)).
      + eapply turn_frame_trans; eauto.
      + split; [rewrite E4; discriminate | auto].
    - apply then_Return in H as [-> [a H]]. apply (Hend (Some s)).
      + exact (post_Return _ _ _ _ _ _ (echo_turn _) H).
      + split; [rewrite E4; discriminate | auto]. }
  destruct (String.eqb_spec (strip line) "5") as [E5|N5].
  { destruct (current_buffer s) as [b|];
      apply then_Return in H as [-> [a H]]; apply (Hend (Some s)).
    - exact (post_Return _ _ _ _ _ _
               (in_world_turn _ (frame_heap_grows "" _ (plot_frame "" _ _))) H).
    - split; [rewrite E5; discriminate | auto].
    - exact (post_Return _ _ _ _ _ _ (echo_turn _) H).
    - split; [rewrite E5; discriminate | auto]. }
  destruct (String.eqb_spec (strip line) "6") as [E6|N6].
  { apply then_Return in H as [-> [a H]]. apply (Hend None).
    - exact (post_Return _ _ _ _ _ _ (echo_turn _) H).
    - split; [exact E6|].
      unfold echo, in_world, print in H. simpl in H. injection H as _ <-. simpl.
      split; [exact Hline | apply last_snoc]. }
  apply then_Return in H as [-> [a H]]. apply (Hend (Some s)).
  - exact (post_Return _ _ _ _ _ _ (echo_turn _) H).
  - auto.
Qed.

End MenuTurn.

Section MenuLoop.
Variable float_of_string : string -> option spec_float.
Variable int_of_string : string -> option Z.

(** X19.  Every turn of the loop of [main] reads at least one line.  On an
    input of n lines the loop therefore ends within n + 1 turns, by the
    [break] of choice 6 or by an exception ([EOFError] when the input is
    exhausted), never because the bound on the turns is reached; a larger
    bound gives the same run. *)
Theorem main_loop_ends (fuel fuel' : nat) (s : session) (p : process) :
  (length (stdin p) < fuel)%nat ->
  (length (stdin p) < fuel')%nat ->
  main_loop float_of_string int_of_string fuel s p
  = main_loop float_of_string int_of_string fuel' s p
  /\ fst (main_loop float_of_string int_of_string fuel s p) <> Return false.
Proof.
  revert fuel' s p. induction fuel as [|fuel IH]; intros fuel' s p H1 H2; [lia|].
  destruct fuel' as [|fuel']; [lia|].
  cbn [main_loop]. rewrite !P_run.
  destruct (menu_turn float_of_string int_of_string s p) as [[[s'|]|e] p'] eqn:Hturn.
  - destruct (menu_turn_Return _ _ s p _ p' Hturn) as (line & used & Hin & _).
    assert (Hlen : (length (stdin p') < length (stdin p))%nat).
    { rewrite Hin. cbn [length]. rewrite length_app. lia. }
    apply IH; lia.
  - split; [reflexivity | discriminate].
  - split; [reflexivity | discriminate].
Qed.

(** X20.  The loop of [main] ends normally only through choice 6: a line of
    the input that is [6] once stripped was the last one read, and the last
    line printed is the farewell. *)
Theorem main_loop_break (fuel : nat) (s : session) (p p' : process) :
  main_loop float_of_string int_of_string fuel s p = (Return true, p') ->
  exists before line,
    stdin p = before ++ line :: stdin p'
    /\ strip line = "6"
    /\ last (console (proc_world p')) = Some goodbye.
Proof.
  revert s p. induction fuel as [|fuel IH]; intros s p H; [discriminate|].
  cbn [main_loop] in H. apply P_Return_inv in H as (r & p1 & Hturn & H).
  destruct (menu_turn_Return _ _ s p _ p1 Hturn) as (line & used & Hin & _ & Hr).
  destruct r as [s'|].
  - destruct (IH _ _ H) as (before & line' & Hin' & H6 & Hlast).
    exists (line :: used ++ before), line'. split; [|auto].
    rewrite Hin, Hin'. cbn [app]. now rewrite <- app_assoc.
  - injection H as <-. destruct Hr as (H6 & Hin6 & Hlast).
    exists [], line. auto.
Qed.

Lemma print_menu_run' p :
  exists p1,
    print_menu p = (Return tt, p1)
    /\ stdin p1 = stdin p /\ commands p1 = commands p /\ modules p1 = modules p
    /\ spawn p1 = spawn p /\ executable p1 = executable p
    /\ only_console (proc_world p) (proc_world p1).
Proof.
  unfold print_menu. rewrite !(P_Return_run _ _ _ _ _ (echo_run _ _)), echo_run.
  eexists. split; [reflexivity|]. repeat split. eexists. reflexivity.
Qed.

Lemma input_run prompt p line rest :
  stdin p = line :: rest ->
  input prompt p = (Return line, set_stdin rest (after_echo prompt p)).
Proof.
  intros Hs. unfold input. rewrite (P_Return_run _ _ _ _ _ (echo_run _ _)).
  unfold readline. cbn [stdin after_echo set_world]. now rewrite Hs.
Qed.

(** The start of a turn: the menu, then the choice. *)
Lemma menu_turn_start p line rest :
  stdin p = line :: rest ->
  exists p2,
    stdin p2 = rest /\ commands p2 = commands p /\ modules p2 = modules p
    /\ only_console (proc_world p) (proc_world p2)
    /\ forall (k : string -> P (option session)),
        (print_menu;; line ← input "Seleziona un'opzione (1-6): "; k line) p = k line p2.
Proof.
  intros Hs. destruct (print_menu_run' p) as (p1 & Hm & H1 & H2 & H3 & _ & _ & [c Hc]).
  exists (set_stdin rest (after_echo "Seleziona un'opzione (1-6): " p1)).
  split; [reflexivity|]. split; [exact H2|]. split; [exact H3|]. split.
  - eexists. cbn [set_stdin after_echo set_world proc_world]. rewrite Hc. reflexivity.
  - intros k. rewrite (P_Return_run _ _ _ _ _ Hm).
    rewrite (P_Return_run _ _ _ _ _ (input_run _ p1 line rest ltac:(congruence))).
    reflexivity.
Qed.

Lemma after_echo_answers msg s rest p q :
  stdin q = rest -> commands q = commands p -> modules q = modules p ->
  only_console (proc_world p) (proc_world q) ->
  answers_only msg s rest p ((echo msg;; mret (Some s)) q).
Proof.
  intros H1 H2 H3 [c Hc]. rewrite (P_Return_run _ _ _ _ _ (echo_run _ _)).
  unfold answers_only. cbn [fst snd mret P_ret P_return].
  split; [reflexivity|]. split; [exact H1|]. split; [|split; [apply last_snoc|auto]].
  eexists. cbn [after_echo set_world proc_world]. rewrite Hc. reflexivity.
Qed.

Ltac choose Hc :=
  cbv beta zeta; rewrite Hc; cbn [String.eqb Ascii.eqb Bool.eqb].

(** X21.  Choices 3, 4 and 5 before any generation: the turn prints the
    warning and does nothing else.  The session is as before, only the line
    of the choice has been read (choice 4 does not ask for a file name), no
    child is started and nothing but the console has changed. *)
Theorem no_buffer_guard (s : session) (p : process) (line : string) (rest : list string) :
  current_buffer s = None ->
  stdin p = line :: rest ->
  strip line = "3" \/ strip line = "4" \/ strip line = "5" ->
  answers_only no_buffer_warning s rest p
    (menu_turn float_of_string int_of_string s p).
Proof.
  intros Hb Hs Hc.
  destruct (menu_turn_start p line rest Hs) as (p2 & H1 & H2 & H3 & H4 & Hrun).
  unfold menu_turn. rewrite Hrun.
  destruct Hc as [Hc | [Hc | Hc]]; choose Hc; rewrite Hb;
    now apply after_echo_answers.
Qed.

(** The three ways [read_parameters] gives up. *)
Lemma read_parameters_None p rest :
  (exists l1, stdin p = l1 :: rest
              /\ float_of_string (or_default (strip l1) "2.0") = None)
  \/ (exists l1 l2 dur,
         stdin p = l1 :: l2 :: rest
         /\ float_of_string (or_default (strip l1) "2.0") = Some dur
         /\ int_of_string (or_default (strip l2) "48000") = None)
  \/ (exists l1 l2 l3 dur sr,
         stdin p = l1 :: l2 :: l3 :: rest
         /\ float_of_string (or_default (strip l1) "2.0") = Some dur
         /\ int_of_string (or_default (strip l2) "48000") = Some sr
         /\ float_of_string (or_default (strip l3) "0.2") = None) ->
  exists p',
    read_parameters float_of_string int_of_string p = (Return None, p')
    /\ stdin p' = rest /\ commands p' = commands p /\ modules p' = modules p
    /\ only_console (proc_world p) (proc_world p').
Proof.
  unfold read_parameters.
  intros [(l1 & Hs & H1) | [(l1 & l2 & dur & Hs & H1 & H2)
                           | (l1 & l2 & l3 & dur & sr & Hs & H1 & H2 & H3)]].
  - rewrite (P_Return_run _ _ _ _ _ (input_run _ p l1 _ Hs)). rewrite H1.
    eexists. split; [reflexivity|]. repeat split. eexists. reflexivity.
  - rewrite (P_Return_run _ _ _ _ _ (input_run _ p l1 _ Hs)). rewrite H1.
    erewrite (P_Return_run (input _)) by (apply input_run; reflexivity). rewrite H2.
    eexists. split; [reflexivity|]. repeat split. eexists. reflexivity.
  - rewrite (P_Return_run _ _ _ _ _ (input_run _ p l1 _ Hs)). rewrite H1.
    erewrite (P_Return_run (input _)) by (apply input_run; reflexivity). rewrite H2.
    erewrite (P_Return_run (input _)) by (apply input_run; reflexivity). rewrite H3.
    eexists. split; [reflexivity|]. repeat split. eexists. reflexivity.
Qed.

Lemma read_parameters_Some p l1 l2 l3 rest dur sr amp :
  stdin p = l1 :: l2 :: l3 :: rest ->
  float_of_string (or_default (strip l1) "2.0") = Some dur ->
  int_of_string (or_default (strip l2) "48000") = Some sr ->
  float_of_string (or_default (strip l3) "0.2") = Some amp ->
  exists p',
    read_parameters float_of_string int_of_string p = (Return (Some (dur, sr, amp)), p')
    /\ stdin p' = rest /\ commands p' = commands p /\ modules p' = modules p
    /\ only_console (proc_world p) (proc_world p').
Proof.
  intros Hs H1 H2 H3. unfold read_parameters.
  rewrite (P_Return_run _ _ _ _ _ (input_run _ p l1 _ Hs)). rewrite H1.
  erewrite (P_Return_run (input _)) by (apply input_run; reflexivity). rewrite H2.
  erewrite (P_Return_run (input _)) by (apply input_run; reflexivity). rewrite H3.
  eexists. split; [reflexivity|]. repeat split. eexists. reflexivity.
Qed.

Lemma only_console_trans' p1 p2 p3 :
  only_console (proc_world p1) (proc_world p2) ->
  only_console (proc_world p2) (proc_world p3) ->
  only_console (proc_world p1) (proc_world p3).
Proof. apply only_console_trans. Qed.

Lemma in_world_Ok {A} (m : M A) p a w :
  m (proc_world p) = (Ok a, w) -> in_world m p = (Return a, set_world w p).
Proof. intros H. unfold in_world. now rewrite H. Qed.

Lemma input_Return prompt p l p' :
  input prompt p = (Return l, p') ->
  stdin p = l :: stdin p' /\ only_console (proc_world p) (proc_world p').
Proof.
  unfold input. intros H. rewrite (P_Return_run _ _ _ _ _ (echo_run _ _)) in H.
  unfold readline in H. cbn [stdin after_echo set_world] in H.
  destruct (stdin p) as [|l0 rest]; [discriminate|]. injection H as <- <-.
  split; [reflexivity|]. eexists. reflexivity.
Qed.

Lemma read_parameters_Some_inv p dur sr amp p' :
  read_parameters float_of_string int_of_string p = (Return (Some (dur, sr, amp)), p') ->
  exists l1 l2 l3,
    stdin p = l1 :: l2 :: l3 :: stdin p'
    /\ accepted float_of_string int_of_string l1 l2 l3 dur sr amp
    /\ only_console (proc_world p) (proc_world p').
Proof.
  unfold read_parameters. intros H.
  apply P_Return_inv in H as (l1 & p1 & I1 & H).
  destruct (float_of_string (or_default (strip l1) "2.0")) as [d|] eqn:H1; [|discriminate].
  apply P_Return_inv in H as (l2 & p2 & I2 & H).
  destruct (int_of_string (or_default (strip l2) "48000")) as [r|] eqn:H2; [|discriminate].
  apply P_Return_inv in H as (l3 & p3 & I3 & H).
  destruct (float_of_string (or_default (strip l3) "0.2")) as [a|] eqn:H3; [|discriminate].
  injection H as <- <- <- <-.
  apply input_Return in I1 as [S1 C1]. apply input_Return in I2 as [S2 C2].
  apply input_Return in I3 as [S3 C3].
  exists l1, l2, l3. split; [now rewrite S1, S2, S3|]. split; [repeat split; assumption|].
  eapply only_console_trans; [exact C1|]. eapply only_console_trans; eauto.
Qed.

Lemma ndarray_len_world b w n w' : ndarray_len b w = (Ok n, w') -> w' = w.
Proof.
  unfold ndarray_len. destruct (heap w !! b) as [[]|]; intros [= _ <-]; reflexivity.
Qed.

(** X18.  The two variables of the loop change together, and only by a
    generation.  A turn that continues the loop leaves the session as it
    was, unless the choice was 2 and the three values were accepted: the
    session then holds the buffer [generate_white_noise] returned and the
    sample rate that was passed to it.  Conversely choice 2 with accepted
    values and a generator that returns gives that session.  The arrays that
    existed before the turn are kept. *)
Theorem turn_updates_session (s : session) (p : process) (line : string)
    (rest : list string) :
  stdin p = line :: rest ->
  (forall s' p',
      menu_turn float_of_string int_of_string s p = (Return (Some s'), p') ->
      heap_grows (proc_world p) (proc_world p')
      /\ (s' = s
          \/ strip line = "2"
             /\ exists l1 l2 l3 dur sr amp w b w',
                 rest = l1 :: l2 :: l3 :: stdin p'
                 /\ accepted float_of_string int_of_string l1 l2 l3 dur sr amp
                 /\ only_console (proc_world p) w
                 /\ generate_white_noise dur sr amp w = (Ok b, w')
                 /\ only_console w' (proc_world p')
                 /\ s' = {| current_buffer := Some b; current_sr := sr |}))
  /\ (forall l1 l2 l3 rest' dur sr amp,
         strip line = "2" ->
         rest = l1 :: l2 :: l3 :: rest' ->
         accepted float_of_string int_of_string l1 l2 l3 dur sr amp ->
         exists w,
           only_console (proc_world p) w
           /\ forall b w',
               generate_white_noise dur sr amp w = (Ok b, w') ->
               exists p',
                 menu_turn float_of_string int_of_string s p
                 = (Return (Some {| current_buffer := Some b; current_sr := sr |}), p')
                 /\ stdin p' = rest'
                 /\ only_console w' (proc_world p')).
Proof.
  intros Hs. split.
  - intros s' p' Hturn. split.
    { destruct (menu_turn_Return _ _ s p _ p' Hturn) as (l & used & _ & Hg & _). exact Hg. }
    destruct (menu_turn_start p line rest Hs) as (p2 & H1 & _ & _ & H4 & Hrun).
    unfold menu_turn in Hturn. rewrite Hrun in Hturn. cbv beta zeta in Hturn.
    destruct (String.eqb_spec (strip line) "1") as [E1|N1].
    { apply then_Return in Hturn as [Heq _]. injection Heq as <-. now left. }
    destruct (String.eqb_spec (strip line) "2") as [E2|N2].
    { apply P_Return_inv in Hturn as (par & p3 & Hpar & H).
      destruct par as [[[dur sr] amp]|].
      - right. split; [exact E2|].
        apply read_parameters_Some_inv in Hpar as (l1 & l2 & l3 & Hst & Hacc & C3).
        apply P_Return_inv in H as (b & p4 & Hgen & H).
        apply P_Return_inv in H as (n & p5 & Hlen & H).
        apply then_Return in H as [Heq [a H]]. injection Heq as ->.
        apply in_world_Return in Hgen as (w4 & Hgen & ->).
        apply in_world_Return in Hlen as (w5 & Hlen & ->).
        apply ndarray_len_world in Hlen. cbn [proc_world set_world] in Hlen. subst w5.
        apply in_world_Return in H as (w6 & Hpr & ->).
        unfold print in Hpr. injection Hpr as _ <-.
        exists l1, l2, l3, dur, sr, amp, (proc_world p3), b, w4.
        split; [cbn [stdin set_world]; congruence|]. split; [exact Hacc|].
        split; [eapply only_console_trans; eauto|]. split; [exact Hgen|].
        split; [eexists; reflexivity | reflexivity].
      - apply then_Return in H as [Heq _]. injection Heq as <-. now left. }
    destruct (String.eqb_spec (strip line) "3") as [E3|N3].
    { destruct (current_buffer s);
        apply then_Return in Hturn as [Heq _]; injection Heq as <-; now left. }
    destruct (String.eqb_spec (strip line) "4") as [E4|N4].
    { destruct (current_buffer s).
      - apply P_Return_inv in Hturn as (l2 & p3 & _ & H).
        apply then_Return in H as [Heq _]. injection Heq as <-. now left.
      - apply then_Return in Hturn as [Heq _]. injection Heq as <-. now left. }
    destruct (String.eqb_spec (strip line) "5") as [E5|N5].
    { destruct (current_buffer s);
        apply then_Return in Hturn as [Heq _]; injection Heq as <-; now left. }
    destruct (String.eqb_spec (strip line) "6") as [E6|N6].
    { apply then_Return in Hturn as [Heq _]. discriminate. }
    apply then_Return in Hturn as [Heq _]. injection Heq as <-. now left.
  - intros l1 l2 l3 rest' dur sr amp Hc -> (A1 & A2 & A3).
    destruct (menu_turn_start p line _ Hs) as (p2 & H1 & _ & _ & H4 & Hrun).
    destruct (read_parameters_Some p2 l1 l2 l3 rest' dur sr amp H1 A1 A2 A3)
      as (p3 & Hrp & K1 & _ & _ & K4).
    exists (proc_world p3). split; [eapply only_console_trans; eauto|].
    intros b w' Hgen.
    destruct (generate_Ok_inv _ _ _ _ _ _ Hgen)
      as (pr & n & xs & _ & _ & _ & _ & _ & Hb & _ & _).
    assert (Hlen : ndarray_len b (proc_world (set_world w' p3))
                   = (Ok (Z.of_nat (length xs)), w')).
    { unfold ndarray_len. cbn [proc_world set_world]. now rewrite Hb. }
    eexists. split; [|split].
    + unfold menu_turn. rewrite Hrun. choose Hc.
      rewrite (P_Return_run _ _ _ _ _ Hrp). cbv beta iota.
      rewrite (P_Return_run _ _ _ _ _ (in_world_Ok _ _ _ _ Hgen)).
      rewrite (P_Return_run _ _ _ _ _ (in_world_Ok _ _ _ _ Hlen)).
      rewrite (P_Return_run _ _ _ _ _ (echo_run _ _)). reflexivity.
    + exact K1.
    + eexists. reflexivity.
Qed.

(** X22.  Choice 2 with a value that [float] or [int] refuses: the turn
    prints the error message and continues the loop with the session as it
    was.  The prompts after the refused value are skipped, their lines stay
    in the input, and nothing is generated: only the console has changed. *)
Theorem parameters_rejected (s : session) (p : process) (l0 : string) :
  strip l0 = "2" ->
  (forall l1 rest,
      stdin p = l0 :: l1 :: rest ->
      float_of_string (or_default (strip l1) "2.0") = None ->
      answers_only bad_parameters s rest p
        (menu_turn float_of_string int_of_string s p))
  /\ (forall l1 l2 rest dur,
         stdin p = l0 :: l1 :: l2 :: rest ->
         float_of_string (or_default (strip l1) "2.0") = Some dur ->
         int_of_string (or_default (strip l2) "48000") = None ->
         answers_only bad_parameters s rest p
        (menu_turn float_of_string int_of_string s p))
  /\ (forall l1 l2 l3 rest dur sr,
         stdin p = l0 :: l1 :: l2 :: l3 :: rest ->
         float_of_string (or_default (strip l1) "2.0") = Some dur ->
         int_of_string (or_default (strip l2) "48000") = Some sr ->
         float_of_string (or_default (strip l3) "0.2") = None ->
         answers_only bad_parameters s rest p
        (menu_turn float_of_string int_of_string s p)).
Proof.
  intros Hc.
  assert (Hall : forall lines rest,
             stdin p = l0 :: lines ->
             (forall q, stdin q = lines ->
                        exists q', read_parameters float_of_string int_of_string q
                                   = (Return None, q')
                                   /\ stdin q' = rest /\ commands q' = commands q
                                   /\ modules q' = modules q
                                   /\ only_console (proc_world q) (proc_world q')) ->
             answers_only bad_parameters s rest p
        (menu_turn float_of_string int_of_string s p)).
  { intros lines rest Hs Hread.
    destruct (menu_turn_start p l0 lines Hs) as (p2 & H1 & H2 & H3 & H4 & Hrun).
    unfold menu_turn. rewrite Hrun. choose Hc.
    destruct (Hread p2 H1) as (p3 & Hrp & G1 & G2 & G3 & G4).
    rewrite (P_Return_run _ _ _ _ _ Hrp).
    apply after_echo_answers; try congruence.
    eapply only_console_trans'; eauto. }
  split; [|split].
  - intros l1 rest Hs H1. apply (Hall _ rest Hs).
    intros q Hq. apply read_parameters_None. left. eauto.
  - intros l1 l2 rest dur Hs H1 H2. apply (Hall _ rest Hs).
    intros q Hq. apply read_parameters_None. right. left. eauto 6.
  - intros l1 l2 l3 rest dur sr Hs H1 H2 H3. apply (Hall _ rest Hs).
    intros q Hq. apply read_parameters_None. right. right. eauto 10.
Qed.

Lemma in_world_Raise {A} (m : M A) p e w :
  m (proc_world p) = (Raise e, w) -> in_world m p = (Throw (PyExn e), set_world w p).
Proof. intros H. unfold in_world. now rewrite H. Qed.

(** X23.  The [try] of choice 2 covers the three conversions only: when the
    values are accepted and their product truncates to a negative count, the
    [ValueError] of the generator is not caught and ends [main], after the
    three parameter lines have been read and with nothing changed but the
    console. *)
Theorem generator_error_escapes (fuel : nat) (s : session) (p : process)
    (l0 l1 l2 l3 : string) (rest : list string)
    (dur : spec_float) (sr : Z) (amp product : spec_float) (n : Z) :
  stdin p = l0 :: l1 :: l2 :: l3 :: rest ->
  strip l0 = "2" ->
  float_of_string (or_default (strip l1) "2.0") = Some dur ->
  int_of_string (or_default (strip l2) "48000") = Some sr ->
  float_of_string (or_default (strip l3) "0.2") = Some amp ->
  py_float_mul_int dur sr = Ok product ->
  py_int product = Ok n ->
  n < 0 ->
  exists p',
    main_loop float_of_string int_of_string (S fuel) s p = (Throw (PyExn ValueError), p')
    /\ stdin p' = rest
    /\ only_console (proc_world p) (proc_world p').
Proof.
  intros Hs Hc H1 H2 H3 Hp Hn Hneg.
  destruct (menu_turn_start p l0 _ Hs) as (p2 & G1 & _ & _ & G4 & Hrun).
  destruct (read_parameters_Some p2 l1 l2 l3 rest dur sr amp G1 H1 H2 H3)
    as (p3 & Hrp & K1 & _ & _ & K4).
  exists p3. split; [|split; [exact K1 | eapply only_console_trans'; eauto]].
  cbn [main_loop]. apply P_Throw_run.
  unfold menu_turn. rewrite Hrun. choose Hc.
  rewrite (P_Return_run _ _ _ _ _ Hrp). apply P_Throw_run.
  rewrite (in_world_Raise _ _ _ _ (generate_negative _ _ amp _ _ _ Hp Hn Hneg)).
  now destruct p3.
Qed.

(** X24.  Choice 4 with a file that cannot be opened for writing: the
    [OSError] of [wavfile.write] is not caught and ends [main]; the file name
    is the stripped line, or [white_noise.wav] when that is empty, and no
    file has been created or changed. *)
Theorem save_error_escapes (fuel : nat) (s : session) (p : process) (buffer : nat)
    (l0 l1 : string) (rest : list string) :
  session_ok s (proc_world p) ->
  current_buffer s = Some buffer ->
  stdin p = l0 :: l1 :: rest ->
  strip l0 = "4" ->
  writable (proc_world p) (or_default (strip l1) "white_noise.wav") = false ->
  exists p',
    main_loop float_of_string int_of_string (S fuel) s p = (Throw (PyExn OSError), p')
    /\ stdin p' = rest
    /\ files (proc_world p') = files (proc_world p).
Proof.
  intros Hok Hb Hs Hc Hw. unfold session_ok in Hok. rewrite Hb in Hok.
  destruct Hok as (xs & _ & _ & Hxs & _).
  destruct (menu_turn_start p l0 _ Hs) as (p2 & G1 & _ & _ & [c G4] & Hrun).
  set (p3 := set_stdin rest (after_echo "Nome file WAV (es. white_noise.wav): " p2)).
  destruct (save_wav_unwritable (proc_world p3) buffer xs (current_sr s)
              (or_default (strip l1) "white_noise.wav"))
    as (w' & Hsave & Hf & _).
  { unfold p3. cbn [set_stdin after_echo set_world proc_world]. rewrite G4. exact Hxs. }
  { unfold p3. cbn [set_stdin after_echo set_world proc_world]. rewrite G4. exact Hw. }
  exists (set_world w' p3). split; [|split].
  - cbn [main_loop]. apply P_Throw_run.
    unfold menu_turn. rewrite Hrun. choose Hc. rewrite Hb.
    rewrite (P_Return_run _ _ _ _ _ (input_run _ p2 l1 rest G1)). cbv beta zeta.
    apply P_Throw_run. now apply in_world_Raise.
  - reflexivity.
  - cbn [set_world proc_world]. rewrite Hf. unfold p3.
    cbn [set_stdin after_echo set_world proc_world]. now rewrite G4.
Qed.

(** X25.  Without a working [pip], [main] ends with [sys.exit(1)] before the
    menu is ever shown: the console holds the first line of [main] and the
    three lines of [ensure_dependencies], nothing else; no prompt has been
    written. *)
Theorem main_needs_pip (fuel : nat) (p : process) (c : completed) (ms : gset string) :
  spawn p (probe_command (executable p)) (modules p) = (c, ms) ->
  (forall out err, c <> Completed 0 out err) ->
  exists p',
    main float_of_string int_of_string fuel p = (Throw (SystemExit 1), p')
    /\ console (proc_world p')
       = console (proc_world p)
           ++ ["[INFO] Avvio mini terminale. Passo 1: dipendenze.";
               "[INFO] Verifica disponibilità di pip...";
               "[ERRORE] 'pip' non è disponibile tramite 'python -m pip'.";
               "Prova ad aggiornare Python o a installare pip. Interrompo."].
Proof.
  intros Hs Hc. unfold main.
  rewrite (P_Return_run _ _ _ _ _ (echo_run _ p)).
  rewrite (P_Throw_run _ _ _ _ _ (ensure_dependencies_no_pip (after_echo _ p) c ms Hs Hc)).
  eexists. split; [reflexivity|].
  cbn [after_echo after_child proc_world set_world console set_console].
  now rewrite <- !app_assoc.
Qed.

End MenuLoop.

Lemma turn_updates_session_witness :
  exists w,
    only_console (proc_world (process_with_buffer ["2"; ""; "4"; ""; "6"])) w
    /\ forall b w',
        generate_white_noise (IEEE.B64.of_Z 2) 4 (S754_finite false 7205759403792794 (-55)) w
        = (Ok b, w') ->
        exists p',
          menu_turn example_float example_int second_session
            (process_with_buffer ["2"; ""; "4"; ""; "6"])
          = (Return (Some {| current_buffer := Some b; current_sr := 4 |}), p')
          /\ stdin p' = ["6"]
          /\ only_console w' (proc_world p').
Proof.
  apply (proj2 (turn_updates_session example_float example_int second_session
                  (process_with_buffer ["2"; ""; "4"; ""; "6"]) "2" [""; "4"; ""; "6"]
                  ltac:(reflexivity))
               "" "4" "" ["6"]).
  - vm_compute. reflexivity.
  - reflexivity.
  - repeat split; vm_compute; reflexivity.
Defined.

Lemma main_loop_ends_witness :
  main_loop example_float example_int 3 first_session (process_with all_modules ["7"; "6"])
  = main_loop example_float example_int 5 first_session (process_with all_modules ["7"; "6"])
  /\ fst (main_loop example_float example_int 3 first_session
            (process_with all_modules ["7"; "6"])) <> Return false.
Proof.
  apply (main_loop_ends example_float example_int 3 5 first_session
           (process_with all_modules ["7"; "6"])); simpl; lia.
Defined.

Lemma main_loop_break_witness :
  exists before line,
    stdin (process_with all_modules ["7"; nbsp +:+ "6 "; "zzz"])
    = before ++ line :: stdin (snd (main_loop example_float example_int 5 first_session
                                      (process_with all_modules ["7"; nbsp +:+ "6 "; "zzz"])))
    /\ strip line = "6"
    /\ last (console (proc_world
                        (snd (main_loop example_float example_int 5 first_session
                                (process_with all_modules ["7"; nbsp +:+ "6 "; "zzz"])))))
       = Some goodbye.
Proof.
  apply (main_loop_break example_float example_int 5 first_session
           (process_with all_modules ["7"; nbsp +:+ "6 "; "zzz"])).
  vm_compute. reflexivity.
Defined.

Lemma no_buffer_guard_witness :
  answers_only no_buffer_warning first_session ["x"] (process_with all_modules [" 4"; "x"])
    (menu_turn example_float example_int first_session (process_with all_modules [" 4"; "x"])).
Proof.
  apply (no_buffer_guard example_float example_int first_session
           (process_with all_modules [" 4"; "x"]) " 4" ["x"]).
  - reflexivity.
  - reflexivity.
  - right. left. vm_compute. reflexivity.
Defined.

Lemma parameters_rejected_witness :
  answers_only bad_parameters first_session ["6"] (process_with all_modules ["2"; "abc"; "6"])
    (menu_turn example_float example_int first_session
       (process_with all_modules ["2"; "abc"; "6"])).
Proof.
  apply (proj1 (parameters_rejected example_float example_int first_session
                  (process_with all_modules ["2"; "abc"; "6"]) "2"
                  ltac:(vm_compute; reflexivity)) "abc" ["6"]).
  - reflexivity.
  - vm_compute. reflexivity.
Defined.

Lemma generator_error_escapes_witness :
  exists p',
    main_loop example_float example_int 1 first_session
      (process_with all_modules ["2"; "-1.0"; "4"; ""; "6"])
    = (Throw (PyExn ValueError), p')
    /\ stdin p' = ["6"]
    /\ only_console (proc_world (process_with all_modules ["2"; "-1.0"; "4"; ""; "6"]))
         (proc_world p').
Proof.
  apply (generator_error_escapes example_float example_int 0 first_session
           (process_with all_modules ["2"; "-1.0"; "4"; ""; "6"])
           "2" "-1.0" "4" "" ["6"]
           (IEEE.B64.of_Z (-1)) 4 (S754_finite false 7205759403792794 (-55))
           (S754_finite true 4503599627370496 (-50)) (-4));
    try (vm_compute; reflexivity).
Defined.

Lemma save_error_escapes_witness :
  exists p',
    main_loop example_float example_int 1 second_session
      (process_with_buffer ["4"; "/nonexistent/a.wav"])
    = (Throw (PyExn OSError), p')
    /\ stdin p' = []
    /\ files (proc_world p')
       = files (proc_world (process_with_buffer ["4"; "/nonexistent/a.wav"])).
Proof.
  apply (save_error_escapes example_float example_int 0 second_session
           (process_with_buffer ["4"; "/nonexistent/a.wav"]) 0%nat
           "4" "/nonexistent/a.wav" []).
  - exists (repeat (S754_zero false) 8), (IEEE.B64.of_Z 2), (IEEE.B64.of_Z 8).
    repeat split; vm_compute; reflexivity.
  - reflexivity.
  - reflexivity.
  - vm_compute. reflexivity.
  - vm_compute. reflexivity.
Defined.

Lemma main_needs_pip_witness :
  exists p',
    main example_float example_int 1 (process_without_pip ∅ ["6"])
    = (Throw (SystemExit 1), p')
    /\ console (proc_world p')
       = console (proc_world (process_without_pip ∅ ["6"]))
           ++ ["[INFO] Avvio mini terminale. Passo 1: dipendenze.";
               "[INFO] Verifica disponibilità di pip...";
               "[ERRORE] 'pip' non è disponibile tramite 'python -m pip'.";
               "Prova ad aggiornare Python o a installare pip. Interrompo."].
Proof.
  apply (main_needs_pip example_float example_int 1 (process_without_pip ∅ ["6"])
           (SpawnError "No such file or directory") ∅).
  - reflexivity.
  - discriminate.
Defined.
